(** * PyMAPDL lessons: the pipe and plate notebooks as programs over a
      solver session

    The repository holds two notebooks that drive the MAPDL solver through
    its Python client.  Each notebook is embedded as a program in a small
    state-and-exception monad.  The state is the notebook's global
    namespace, the state of the solver behind the client library, and a
    transcript of every library call the notebook has made.  The client
    library and the solver are not part of the repository: they enter as
    an interface ([Library]) whose calls may change the solver state and
    may raise. *)

From Stdlib Require Import ZArith QArith Qminmax Qabs List String Lia Lqa.
From stdpp Require Import base gmap strings list fin_maps.

Set Default Proof Using "Type".
Open Scope string_scope.
Open Scope list_scope.

(** ** Python values *)

(** Floats are read as the rationals their literals denote; rounding is not
    modelled.  [VPow10 y] is the float [10 ** y], kept symbolic because it
    is irrational for most [y]; the notebooks only pass such values on. *)
#[warnings="-register-all"]
Inductive pyval : Type :=
| VNone
| VInt (z : Z)
| VFloat (q : Q)
| VPow10 (y : Q)
| VBool (b : bool)
| VStr (s : string)
| VList (l : list pyval)
| VTuple (l : list pyval)
| VArray (l : list pyval)
| VObj (cls : string).

Inductive exn : Type :=
| MapdlError (msg : string)
| NameError (name : string)
| AttributeError (attr : string)
| TypeError (what : string)
| ValueError (what : string)
| IndexError (what : string)
| ZeroDivisionError
| OverflowError (what : string).

(** ** Library calls and the transcript *)

Record call : Type := Call {
  meth : string;
  args : list pyval;
  kwargs : list (string * pyval)
}.

Inductive response : Type :=
| Done
| Floats (a : list Q)
| Ints (a : list Z)
| Raises (e : exn).

(** [Cmd] is a call into the solver's client library together with what
    came back; [Show] is a call that only displays (print, matplotlib). *)
Inductive event : Type :=
| Cmd (c : call) (r : response)
| Show (c : call).

(** The client library with the solver behind it.  The notebooks ignore
    what a command returns, so a command either returns or raises; the two
    result queries return arrays. *)
Class Library : Type := {
  Remote : Type;
  command : call -> Remote -> option exn * Remote;
  nodal_eqv_stress_query : Remote -> (list Q + exn) * Remote;
  nnum_all_query : Remote -> (list Z + exn) * Remote
}.

Section Notebooks.

Context {L : Library}.

Record world : Type := World {
  globals : gmap string pyval;
  remote : Remote;
  trace : list event
}.

Inductive outcome (A : Type) : Type :=
| Ok (a : A) (w : world)
| Raised (e : exn) (w : world).
Arguments Ok {A} a w.
Arguments Raised {A} e w.

Definition final {A} (o : outcome A) : world :=
  match o with Ok _ w => w | Raised _ w => w end.

(** ** The monad *)

Definition M (A : Type) : Type := world -> outcome A.

Definition ret {A} (a : A) : M A := fun w => Ok a w.

Definition bind {A B} (m : M A) (k : A -> M B) : M B :=
  fun w => match m w with
           | Ok a w' => k a w'
           | Raised e w' => Raised e w'
           end.

Definition raise {A} (e : exn) : M A := fun w => Raised e w.

#[global] Instance M_ret : MRet M := @ret.
#[global] Instance M_bind : MBind M := fun A B k m => bind m k.

Definition log (ev : event) (w : world) : world :=
  World (globals w) (remote w) (trace w ++ [ev]).

Definition moved (s : Remote) (w : world) : world :=
  World (globals w) s (trace w).

(** Reading and binding a global name.

    The names that the notebooks bind by [import] and [def] ([np], [plt],
    [launch_mapdl], [pipe_plane_strain]) and the built-ins ([print],
    [range]) are taken as bound to what the source binds them to: a use of
    one of them is the operation itself, not a lookup in [globals].  Where
    a property lists the names a program reads, those among them that the
    source reads are listed with the others. *)
Definition name (x : string) : M pyval :=
  fun w => match globals w !! x with
           | Some v => Ok v w
           | None => Raised (NameError x) w
           end.

Definition assign (x : string) (v : pyval) : M unit :=
  fun w => Ok tt (World (<[x := v]> (globals w)) (remote w) (trace w)).

(** A command sent through the client library. *)
Definition issue (c : call) : M unit :=
  fun w => match command c (remote w) with
           | (None, s) => Ok tt (log (Cmd c Done) (moved s w))
           | (Some e, s) => Raised e (log (Cmd c (Raises e)) (moved s w))
           end.

Definition show (c : call) : M unit :=
  fun w => Ok tt (log (Show c) w).

(** ** The [mapdl] object *)

Definition Mapdl : pyval := VObj "Mapdl".

Definition is_obj (cls : string) (v : pyval) : bool :=
  match v with VObj c => String.eqb c cls | _ => false end.

(** A method call [x.m(...)] on the object bound to the global [x]: Python
    looks [x] up, then evaluates the arguments from left to right, then
    makes the call. *)
Definition call_on (x cls m : string) (a : M (list pyval))
    (kw : M (list (string * pyval))) : M unit :=
  h ← name x;
  if is_obj cls h then
    av ← a; kv ← kw; issue (Call m av kv)
  else raise (AttributeError m).

(** [mapdl.m(...)]. *)
Definition mapdl_with (m : string) (a : M (list pyval))
    (kw : M (list (string * pyval))) : M unit :=
  call_on "mapdl" "Mapdl" m a kw.

(** The same with arguments that are already values. *)
Definition mapdl (m : string) (a : list pyval) (kw : list (string * pyval))
  : M unit :=
  mapdl_with m (mret a) (mret kw).

Definition nodal_eqv_stress_call : call :=
  Call "post_processing.nodal_eqv_stress" [] [].
Definition nnum_all_call : call := Call "mesh.nnum_all" [] [].

Definition ask_nodal_eqv_stress : M (list Q) :=
  fun w => match nodal_eqv_stress_query (remote w) with
           | (inl a, s) =>
               Ok a (log (Cmd nodal_eqv_stress_call (Floats a)) (moved s w))
           | (inr e, s) =>
               Raised e (log (Cmd nodal_eqv_stress_call (Raises e)) (moved s w))
           end.

Definition ask_nnum_all : M (list Z) :=
  fun w => match nnum_all_query (remote w) with
           | (inl a, s) => Ok a (log (Cmd nnum_all_call (Ints a)) (moved s w))
           | (inr e, s) =>
               Raised e (log (Cmd nnum_all_call (Raises e)) (moved s w))
           end.

(** [mapdl.post_processing.nodal_eqv_stress()] and [mapdl.mesh.nnum_all]. *)
Definition mapdl_nodal_eqv_stress : M (list Q) :=
  h ← name "mapdl";
  if is_obj "Mapdl" h then ask_nodal_eqv_stress
  else raise (AttributeError "post_processing").

Definition mapdl_nnum_all : M (list Z) :=
  h ← name "mapdl";
  if is_obj "Mapdl" h then ask_nnum_all else raise (AttributeError "mesh").

(** ** numpy *)

Definition Qmaxb (a b : Q) : Q := if Qle_bool a b then b else a.

(** [np.max] of a one-dimensional array; an empty array raises. *)
Definition np_max (a : list Q) : M Q :=
  match a with
  | [] => raise (ValueError "zero-size array to reduction operation maximum")
  | x :: xs => mret (fold_left Qmaxb xs x)
  end.

(** [np.linspace(start, stop, num)]: [num] evenly spaced samples with both
    end points. *)
Definition np_linspace (start stop : Q) (num : nat) : list Q :=
  let step := ((stop - start) / inject_Z (Z.of_nat num - 1))%Q in
  map (fun i => Qred (start + inject_Z (Z.of_nat i) * step)) (seq 0 num).

(** [np.logspace(start, stop, num)] is [10 ** np.linspace(start, stop, num)]. *)
Definition np_logspace (start stop : Q) (num : nat) : list pyval :=
  map VPow10 (np_linspace start stop num).

(** ** Python operators and built-ins

    Only the numeric cases of the operators are modelled; any other pair of
    operands is reported as a [TypeError].  A bool counts as the int 0 or
    1.  An int is converted to a float where it meets one, and the quotient
    of two ints is a float: Python raises [OverflowError] where the int, or
    the quotient, rounds to a magnitude beyond the largest float, which is
    from [2**1024 - 2**970] on.  Within the range the results are the exact
    rationals; the product, sum or quotient of two floats is never out of
    range for Python (it gives an infinity), and is exact here as well. *)

Definition float_limit : Z := (2 ^ 1024 - 2 ^ 970)%Z.

Definition in_float_range (q : Q) : bool :=
  negb (Qle_bool (inject_Z float_limit) (Qabs q)).

Definition as_int (v : pyval) : pyval :=
  match v with VBool b => VInt (Z.b2z b) | _ => v end.

Definition float_of_int (x : Z) : M Q :=
  if in_float_range (inject_Z x) then mret (inject_Z x)
  else raise (OverflowError "int too large to convert to float").

Definition py_mul (a b : pyval) : M pyval :=
  match as_int a, as_int b with
  | VInt x, VInt y => mret (VInt (x * y))
  | VInt x, VFloat y => fx ← float_of_int x; mret (VFloat (Qred (fx * y)))
  | VFloat x, VInt y => fy ← float_of_int y; mret (VFloat (Qred (x * fy)))
  | VFloat x, VFloat y => mret (VFloat (Qred (x * y)))
  | _, _ => raise (TypeError "*")
  end.

Definition py_add (a b : pyval) : M pyval :=
  match as_int a, as_int b with
  | VInt x, VInt y => mret (VInt (x + y))
  | VInt x, VFloat y => fx ← float_of_int x; mret (VFloat (Qred (fx + y)))
  | VFloat x, VInt y => fy ← float_of_int y; mret (VFloat (Qred (x + fy)))
  | VFloat x, VFloat y => mret (VFloat (Qred (x + y)))
  | _, _ => raise (TypeError "+")
  end.

(** The quotient of two floats. *)
Definition float_div (x y : Q) : M pyval :=
  if Qeq_bool y 0 then raise ZeroDivisionError
  else mret (VFloat (Qred (x / y))).

(** True division [a / b] always gives a float.  Two ints are divided
    exactly and the quotient is then rounded, so that only the quotient has
    to be in the range of the floats. *)
Definition py_truediv (a b : pyval) : M pyval :=
  match as_int a, as_int b with
  | VInt x, VInt y =>
      if (y =? 0)%Z then raise ZeroDivisionError
      else
        let q := (inject_Z x / inject_Z y)%Q in
        if in_float_range q then mret (VFloat (Qred q))
        else raise (OverflowError "integer division result too large for a float")
  | VInt x, VFloat y => fx ← float_of_int x; float_div fx y
  | VFloat x, VInt y => fy ← float_of_int y; float_div x fy
  | VFloat x, VFloat y => float_div x y
  | _, _ => raise (TypeError "/")
  end.

(** [range(a, b)] as the list of its items. *)
Definition py_range (a b : pyval) : M (list pyval) :=
  match as_int a, as_int b with
  | VInt x, VInt y =>
      mret (map (fun k => VInt (x + Z.of_nat k)) (seq 0 (Z.to_nat (y - x))))
  | _, _ => raise (TypeError "range")
  end.

Definition items (v : pyval) : M (list pyval) :=
  match v with
  | VList l | VTuple l | VArray l => mret l
  | _ => raise (TypeError "not iterable")
  end.

(** [for x in xs: body], with [xs] already turned into its items. *)
Fixpoint for_in (x : string) (xs : list pyval) (body : M unit) : M unit :=
  match xs with
  | [] => mret tt
  | v :: rest => assign x v ;; body ;; for_in x rest body
  end.

(** [x.append(v)] on the list bound to the global [x]. *)
Definition append (x : string) (v : M pyval) : M unit :=
  l ← name x;
  match l with
  | VList old => a ← v; assign x (VList (old ++ [a]))
  | _ => raise (AttributeError "append")
  end.

(** [v[i]] for a sequence [v]; a negative [i] counts from the end. *)
Definition subscript (v : pyval) (i : Z) : M pyval :=
  l ← items v;
  let n := Z.of_nat (length l) in
  let j := (if i <? 0 then n + i else i)%Z in
  if ((0 <=? j) && (j <? n))%Z
  then match nth_error l (Z.to_nat j) with
       | Some a => mret a
       | None => raise (IndexError "index out of range")
       end
  else raise (IndexError "index out of range").

(** ** Lesson 2: the pipe cross section *)

Definition S_ (s : string) : pyval := VStr s.

Definition pipe_plane_strain (e nu inn_radius out_radius press AESIZE : pyval)
  : M (Z * Q) :=
  (* reset mapdl *)
  mapdl "clear" [] [] ;;
  mapdl "prep7" [] [] ;;
  (* element attributes *)
  mapdl "et" [VInt 1; S_ "PLANE182"] [("kop3", VInt 2)] ;;
  (* geometry: one quadrant of the vessel *)
  mapdl "pcirc" [inn_radius; out_radius] [("theta1", VInt 0); ("theta2", VInt 90)] ;;
  mapdl "cm" [S_ "PIPE_PROFILE"; S_ "AREA"] [] ;;
  (* material properties *)
  mapdl "mp" [S_ "EX"; VInt 1; e] [] ;;
  mapdl "mp" [S_ "PRXY"; VInt 1; nu] [] ;;
  (* mesh controls *)
  mapdl "aesize" [S_ "ALL"; AESIZE] [] ;;
  mapdl "mshape" [VInt 0; S_ "2D"] [] ;;
  mapdl "mshkey" [VInt 1] [] ;;
  mapdl "cmsel" [S_ "S"; S_ "PIPE_PROFILE"] [] ;;
  mapdl "amesh" [S_ "ALL"] [] ;;
  (* components for loads and constraints *)
  mapdl "nsel" [S_ "S"; S_ "LOC"; S_ "X"; VInt 0] [] ;;
  mapdl "cm" [S_ "X_FIXED"; S_ "NODES"] [] ;;
  mapdl "nsel" [S_ "S"; S_ "LOC"; S_ "Y"; VInt 0] [] ;;
  mapdl "cm" [S_ "Y_FIXED"; S_ "NODES"] [] ;;
  mapdl "allsel" [] [] ;;
  mapdl_with "lsel" (mret [S_ "S"; S_ "RADIUS"])
    (rad1 ← name "rad1"; mret [("vmin", rad1)]) ;;
  mapdl "cm" [S_ "PRESSURE_EDGE"; S_ "LINE"] [] ;;
  mapdl "allsel" [] [] ;;
  (* solution controls *)
  mapdl "slashsolu" [] [] ;;
  mapdl "antype" [S_ "STATIC"; S_ "NEW"] [] ;;
  mapdl "d" [S_ "X_FIXED"; S_ "UX"; VInt 0] [] ;;
  mapdl "d" [S_ "Y_FIXED"; S_ "UY"; VInt 0] [] ;;
  mapdl "csys" [VInt 1] [] ;;
  mapdl "sfl" [S_ "PRESSURE_EDGE"; S_ "PRES"; press] [] ;;
  (* solve *)
  mapdl "allsel" [] [] ;;
  mapdl "solve" [] [] ;;
  mapdl "finish" [] [] ;;
  (* post-processor *)
  mapdl "post1" [] [] ;;
  mapdl "set" [VInt 1; VInt 1] [] ;;
  stress ← mapdl_nodal_eqv_stress;
  max_eqv_stress ← np_max stress;
  all_dof ← mapdl_nnum_all;
  let num_dof := (2 * Z.of_nat (length all_dof))%Z in
  mret (num_dof, max_eqv_stress).


(** *** Step 1: launch *)

Definition launch_mapdl : M pyval :=
  issue (Call "launch_mapdl" [] []) ;; mret Mapdl.

Definition pipe_launch : M unit :=
  h ← launch_mapdl; assign "mapdl" h ;;
  h ← name "mapdl"; show (Call "print" [h] []).

(** *** Step 3: the mesh convergence study *)

Definition print_format : string :=
  "DOF: {dof:5d}   #Stress: {eqv_stress:.2f} MPa".

(** [dof, eqv_stress = pipe_plane_strain(e, nu, rad1, rad2, pressure, esize)]:
    the call, then what the loop does with its result. *)
Definition sweep_call : M (Z * Q) :=
  e ← name "e"; nu ← name "nu"; rad1 ← name "rad1"; rad2 ← name "rad2";
  pressure ← name "pressure"; esize ← name "esize";
  pipe_plane_strain e nu rad1 rad2 pressure esize.

Definition sweep_record (r : Z * Q) : M unit :=
  assign "dof" (VInt r.1) ;;
  assign "eqv_stress" (VFloat r.2) ;;
  append "num_dof" (name "dof") ;;
  append "max_stress" (name "eqv_stress") ;;
  dof ← name "dof"; eqv_stress ← name "eqv_stress";
  show (Call "print" [S_ print_format; dof; eqv_stress] []).

Definition sweep_body : M unit :=
  r ← sweep_call; sweep_record r.

(** The element sizes and the model parameters of the study. *)
Definition esizes : list pyval := np_logspace 1.4 0 20.

Definition study_parameters : M unit :=
  assign "rad1" (VInt 175) ;;
  assign "rad2" (VInt 200) ;;
  assign "pressure" (VInt 100) ;;
  assign "e" (VFloat 2e5) ;;
  assign "nu" (VFloat 0.3) ;;
  assign "num_dof" (VList []) ;;
  assign "max_stress" (VList []) ;;
  assign "esizes" (VArray esizes).

Definition study_loop : M unit :=
  esizes ← name "esizes";
  xs ← items esizes;
  for_in "esize" xs sweep_body.

Definition convergence_study : M unit :=
  study_parameters ;; study_loop.

(** *** Plot of the convergence results *)

Definition plot_convergence : M unit :=
  show (Call "plt.figure" [] [("figsize", VTuple [VInt 8; VInt 6]); ("dpi", VInt 80)]) ;;
  (num_dof ← name "num_dof"; max_stress ← name "max_stress";
   show (Call "plt.plot" [num_dof; max_stress; S_ "b-o"] [])) ;;
  (num_dof ← name "num_dof"; d0 ← subscript num_dof 0;
   num_dof ← name "num_dof"; d1 ← subscript num_dof (-1);
   max_stress ← name "max_stress"; s0 ← subscript max_stress (-1);
   max_stress ← name "max_stress"; s1 ← subscript max_stress (-1);
   show (Call "plt.plot" [VList [d0; d1]; VList [s0; s1]; S_ "r:"] [])) ;;
  show (Call "plt.title" [S_ "Mesh Convergence Study"] []) ;;
  show (Call "plt.xlabel" [S_ "Number of DOF"] []) ;;
  show (Call "plt.ylabel" [S_ "Maximum eqv. Stress (MPa)"] []) ;;
  show (Call "plt.show" [] []).

(** *** Step 4: plots of the converged analysis, then exit *)

Definition plot_mesh : M unit :=
  mapdl "allsel" [S_ "ALL"] [] ;;
  mapdl "eplot" []
    [("title", S_ "Element Plot"); ("line_width", VInt 1);
     ("show_bounds", VBool true); ("cpos", S_ "xy")].

Definition plot_displacement : M unit :=
  mapdl "post1" [] [] ;;
  mapdl "set" [VInt 1; VInt 1] [] ;;
  mapdl "post_processing.plot_nodal_displacement" [S_ "NORM"]
    [("cpos", S_ "xy"); ("cmap", S_ "magma")].

Definition plot_stress : M unit :=
  mapdl "post_processing.plot_nodal_eqv_stress" []
    [("cpos", S_ "xy"); ("cmap", S_ "magma")].

Definition mapdl_exit : M unit := mapdl "exit" [] [].

Definition pipe_notebook : M unit :=
  pipe_launch ;;
  convergence_study ;;
  plot_convergence ;;
  plot_mesh ;;
  plot_displacement ;;
  plot_stress ;;
  mapdl_exit.

(** ** The plate with holes *)

Definition plate_parameters : M unit :=
  assign "LENGTH" (VInt 5) ;;
  assign "WIDTH" (VFloat 2.5) ;;
  assign "DEPTH" (VFloat 0.1) ;;
  assign "RADIUS" (VFloat 0.5) ;;
  assign "NUM" (VInt 3) ;;
  assign "E" (VFloat 2e11) ;;
  assign "NU" (VFloat 0.27) ;;
  assign "PRESSURE" (VInt 1000).

Definition cyl4_args : M (list pyval) :=
  i ← name "i"; LENGTH ← name "LENGTH"; iL ← py_mul i LENGTH;
  NUM ← name "NUM"; n1 ← py_add NUM (VInt 1); xc ← py_truediv iL n1;
  WIDTH ← name "WIDTH"; yc ← py_truediv WIDTH (VInt 2);
  RADIUS ← name "RADIUS";
  DEPTH ← name "DEPTH"; depth ← py_mul (VInt 2) DEPTH;
  mret [xc; yc; RADIUS; S_ EmptyString; S_ EmptyString; S_ EmptyString; depth].

Definition plate_geometry : M unit :=
  h ← launch_mapdl; assign "mapdl" h ;;
  mapdl "clear" [] [] ;;
  mapdl "prep7" [] [] ;;
  mapdl_with "block"
    (LENGTH ← name "LENGTH"; WIDTH ← name "WIDTH"; DEPTH ← name "DEPTH";
     mret [VInt 0; LENGTH; VInt 0; WIDTH; VInt 0; DEPTH]) (mret []) ;;
  (NUM ← name "NUM"; n1 ← py_add NUM (VInt 1); r ← py_range (VInt 1) n1;
   for_in "i" r (mapdl_with "cyl4" cyl4_args (mret []))) ;;
  mapdl "vsbv" [VInt 1; S_ "all"] [] ;;
  mapdl "vplot" [S_ "all"] [].

Definition plate_mesh : M unit :=
  mapdl "lesize" [S_ "ALL"; VFloat 0.15] [("layer1", VInt 1)] ;;
  mapdl_with "mp" (E ← name "E"; mret [S_ "ex"; VInt 1; E]) (mret []) ;;
  mapdl_with "mp" (NU ← name "NU"; mret [S_ "nuxy"; VInt 1; NU]) (mret []) ;;
  mapdl "et" [VInt 1; S_ "SOLID186"] [] ;;
  mapdl "mshape" [VInt 1; S_ "3D"] [] ;;
  mapdl "mshkey" [VInt 0] [] ;;
  mapdl "vmesh" [S_ "all"] [] ;;
  mapdl "eplot" [] [].

Definition plate_loads : M unit :=
  mapdl "nsel" [S_ "s"; S_ "loc"; S_ "x"; VInt 0] [] ;;
  mapdl "d" [S_ "all"; S_ "all"; VInt 0] [] ;;
  mapdl_with "nsel"
    (LENGTH ← name "LENGTH"; mret [S_ "s"; S_ "loc"; S_ "x"; LENGTH]) (mret []) ;;
  mapdl_with "sf"
    (PRESSURE ← name "PRESSURE"; mret [S_ "all"; S_ "pres"; PRESSURE]) (mret []) ;;
  mapdl "allsel" [] [] ;;
  mapdl "finish" [] [].

Definition plate_solve : M unit :=
  mapdl "slashsolu" [] [] ;;
  mapdl "solve" [] [] ;;
  mapdl "finish" [] [].

Definition plate_plot : M unit :=
  (mapdl "result" [] [] ;; assign "result" (VObj "Result")) ;;
  call_on "result" "Result" "result.plot_principal_nodal_stress"
    (mret [VInt 0; S_ "seqv"])
    (mret [("background", S_ "w"); ("show_edges", VBool true);
           ("text_color", S_ "k"); ("add_text", VBool true)]).

Definition plate_notebook : M unit :=
  plate_parameters ;;
  plate_geometry ;;
  plate_mesh ;;
  plate_loads ;;
  plate_solve ;;
  plate_plot ;;
  mapdl_exit.

End Notebooks.

Arguments Ok {L A} a w.
Arguments Raised {L A} e w.

(** ** What a run adds to the transcript *)

Definition done (c : call) : event := Cmd c Done.

Definition event_call (ev : event) : call :=
  match ev with Cmd c _ => c | Show c => c end.

(** The library calls of a transcript, without the display calls. *)
Fixpoint commands (t : list event) : list call :=
  match t with
  | [] => []
  | Cmd c _ :: rest => c :: commands rest
  | Show _ :: rest => commands rest
  end.

Definition raising (ev : event) : bool :=
  match ev with Cmd _ (Raises _) => true | _ => false end.

(** No call of the transcript raised. *)
Definition quiet (t : list event) : Prop := Forall (fun ev => raising ev = false) t.

(** ** The command sequence of [pipe_plane_strain], as the specification
       lists it *)

Definition pipe_sequence : list string :=
  ["clear"; "prep7"; "et"; "pcirc"; "cm"; "mp"; "mp"; "aesize"; "mshape";
   "mshkey"; "cmsel"; "amesh"; "nsel"; "cm"; "nsel"; "cm"; "allsel"; "lsel";
   "cm"; "allsel"; "slashsolu"; "antype"; "d"; "d"; "csys"; "sfl"; "allsel";
   "solve"; "finish"; "post1"; "set"].

Definition result_queries : list string :=
  ["post_processing.nodal_eqv_stress"; "mesh.nnum_all"].

(** The commands with their arguments: those before the line selection,
    the line selection, and those after it. *)
Definition pipe_head (e nu inn_radius out_radius AESIZE : pyval) : list call :=
  [Call "clear" [] [];
   Call "prep7" [] [];
   Call "et" [VInt 1; S_ "PLANE182"] [("kop3", VInt 2)];
   Call "pcirc" [inn_radius; out_radius] [("theta1", VInt 0); ("theta2", VInt 90)];
   Call "cm" [S_ "PIPE_PROFILE"; S_ "AREA"] [];
   Call "mp" [S_ "EX"; VInt 1; e] [];
   Call "mp" [S_ "PRXY"; VInt 1; nu] [];
   Call "aesize" [S_ "ALL"; AESIZE] [];
   Call "mshape" [VInt 0; S_ "2D"] [];
   Call "mshkey" [VInt 1] [];
   Call "cmsel" [S_ "S"; S_ "PIPE_PROFILE"] [];
   Call "amesh" [S_ "ALL"] [];
   Call "nsel" [S_ "S"; S_ "LOC"; S_ "X"; VInt 0] [];
   Call "cm" [S_ "X_FIXED"; S_ "NODES"] [];
   Call "nsel" [S_ "S"; S_ "LOC"; S_ "Y"; VInt 0] [];
   Call "cm" [S_ "Y_FIXED"; S_ "NODES"] [];
   Call "allsel" [] []].

Definition pipe_lsel (rad1 : pyval) : call :=
  Call "lsel" [S_ "S"; S_ "RADIUS"] [("vmin", rad1)].

Definition pipe_tail (press : pyval) : list call :=
  [Call "cm" [S_ "PRESSURE_EDGE"; S_ "LINE"] [];
   Call "allsel" [] [];
   Call "slashsolu" [] [];
   Call "antype" [S_ "STATIC"; S_ "NEW"] [];
   Call "d" [S_ "X_FIXED"; S_ "UX"; VInt 0] [];
   Call "d" [S_ "Y_FIXED"; S_ "UY"; VInt 0] [];
   Call "csys" [VInt 1] [];
   Call "sfl" [S_ "PRESSURE_EDGE"; S_ "PRES"; press] [];
   Call "allsel" [] [];
   Call "solve" [] [];
   Call "finish" [] [];
   Call "post1" [] [];
   Call "set" [VInt 1; VInt 1] []].

Definition pipe_commands (e nu inn_radius out_radius press AESIZE rad1 : pyval)
  : list call :=
  pipe_head e nu inn_radius out_radius AESIZE ++ pipe_lsel rad1 :: pipe_tail press.

(** Every call of a complete invocation: the commands, then the two result
    queries. *)
Definition pipe_calls (e nu inn_radius out_radius press AESIZE rad1 : pyval)
  : list call :=
  pipe_commands e nu inn_radius out_radius press AESIZE rad1 ++
  [nodal_eqv_stress_call; nnum_all_call].

Arguments pipe_head : simpl never.
Arguments pipe_tail : simpl never.
Arguments pipe_lsel : simpl never.

(** What the study loop relies on in the namespace. *)
Definition sweep_names (ds ss : list pyval) (g : gmap string pyval) : Prop :=
  g !! "e" = Some (VFloat 2e5) /\
  g !! "nu" = Some (VFloat 0.3) /\
  g !! "rad1" = Some (VInt 175) /\
  g !! "rad2" = Some (VInt 200) /\
  g !! "pressure" = Some (VInt 100) /\
  g !! "num_dof" = Some (VList ds) /\
  g !! "max_stress" = Some (VList ss).

Section Driving.

Context {L : Library}.

(** A list of [mapdl] commands, one after the other, before [k]. *)
Definition chain {A} (cs : list call) (k : M A) : M A :=
  foldr (fun c k => mapdl (meth c) (args c) (kwargs c) ;; k) k cs.

(** The solver's side of such a list: what the transcript gains, the state
    the solver is left in, and the exception of the command that raised. *)
Fixpoint drive (cs : list call) (s : Remote) : list event * Remote * option exn :=
  match cs with
  | [] => ([], s, None)
  | c :: rest =>
      match command c s with
      | (None, s1) =>
          let '(t, s2, r) := drive rest s1 in (done c :: t, s2, r)
      | (Some e, s1) => ([Cmd c (Raises e)], s1, Some e)
      end
  end.

Definition has_mapdl (w : world) : Prop := globals w !! "mapdl" = Some Mapdl.

(** How a run that raised left the transcript: either nothing in it raised
    (the exception is Python's own: an unbound name, an empty array), or
    its last entry is the library call that raised [e]. *)
Definition halted (t : list event) (e : exn) : Prop :=
  quiet t \/ exists pre c, t = pre ++ [Cmd c (Raises e)] /\ quiet pre.

(** The global [rad1] as the line selection would read it. *)
Definition rad1_of (w : world) : pyval := default VNone (globals w !! "rad1").

(** What one invocation of [pipe_plane_strain] from [w] can end in.  It
    leaves the namespace alone and only adds to the transcript.  If it
    returns, it has issued every command and both queries, and its results
    are computed from the two arrays that came back.  If it raises, it has
    issued an initial part of the same calls. *)
Definition pipe_outcome (e nu inn_radius out_radius press AESIZE : pyval)
    (w : world) (o : outcome (Z * Q)) : Prop :=
  globals (final o) = globals w /\
  exists t, trace (final o) = trace w ++ t /\
    match o with
    | Ok (d, s) _ =>
        has_mapdl w /\
        exists r x xs ids,
          globals w !! "rad1" = Some r /\
          t = map done (pipe_commands e nu inn_radius out_radius press AESIZE r) ++
              [Cmd nodal_eqv_stress_call (Floats (x :: xs));
               Cmd nnum_all_call (Ints ids)] /\
          s = fold_left Qmaxb xs x /\
          d = (2 * Z.of_nat (length ids))%Z
    | Raised ex _ =>
        commands t `prefix_of`
          pipe_calls e nu inn_radius out_radius press AESIZE (rad1_of w) /\
        halted t ex
    end.

(** A library that never raises and always has stresses to report. *)
Definition Reliable : Prop :=
  (forall c s, (command c s).1 = None) /\
  (forall s, exists x xs, (nodal_eqv_stress_query s).1 = inl (x :: xs)) /\
  (forall s, exists ids, (nnum_all_query s).1 = inl ids).

(** A program that follows a script.  From a world whose namespace
    satisfies [P], the library calls [m] makes are the calls [cs] in order
    if it returns, and then the namespace satisfies [Q]; if it raises, it
    has made an initial part of [cs], nothing before the last call made
    has raised, and the library is not a reliable one. *)
Definition scripted {A} (P : gmap string pyval -> Prop) (m : M A)
    (cs : list call) (Q : A -> gmap string pyval -> Prop) : Prop :=
  forall w, P (globals w) ->
    exists t, trace (final (m w)) = trace w ++ t /\
      match m w with
      | Ok a w' => commands t = cs /\ quiet t /\ Q a (globals w')
      | Raised ex _ => commands t `prefix_of` cs /\ halted t ex /\ ~ Reliable
      end.

(** A computation that only reads the namespace and gives [a]. *)
Definition reads {A} (P : gmap string pyval -> Prop) (m : M A) (a : A) : Prop :=
  forall w, P (globals w) -> m w = Ok a w.

(** The world after [x = v]. *)
Definition bound (x : string) (v : pyval) (w : world) : world :=
  World (<[x := v]> (globals w)) (remote w) (trace w).

(** The run of the study loop over the element sizes [xs], every invocation
    returning: the outputs of the invocations in order, and the world the
    loop ends in. *)
Inductive invocations : world -> list pyval -> list (Z * Q) -> world -> Prop :=
| invocations_nil w : invocations w [] [] w
| invocations_cons w esize xs d s w1 w2 outs w' :
    pipe_plane_strain (VFloat 2e5) (VFloat 0.3) (VInt 175) (VInt 200)
      (VInt 100) esize (bound "esize" esize w) = Ok (d, s) w1 ->
    sweep_record (d, s) w1 = Ok tt w2 ->
    invocations w2 xs outs w' ->
    invocations w (esize :: xs) ((d, s) :: outs) w'.

Definition print_call (d : Z) (s : Q) : call :=
  Call "print" [S_ print_format; VInt d; VFloat s] [].

(** The calls of one invocation of the study. *)
Definition study_calls (esize : pyval) : list call :=
  pipe_calls (VFloat 2e5) (VFloat 0.3) (VInt 175) (VInt 200) (VInt 100)
    esize (VInt 175).

Definition sweep_env (ds ss : list pyval) (w : world) : Prop :=
  sweep_names ds ss (globals w).

End Driving.

(** ** The geometry of the plate, as the specification describes it *)

(** The hole numbers [1 .. NUM], the centre of hole [i] along the length,
    and the [cyl4] command that cuts it. *)
Definition holes (NUM : Z) : list Z :=
  map (fun k => (1 + Z.of_nat k)%Z) (seq 0 (Z.to_nat NUM)).

Definition hole_center (LENGTH NUM i : Z) : Q :=
  (inject_Z (i * LENGTH) / inject_Z (NUM + 1))%Q.

(** The centres of all the holes are in the range of the floats. *)
Definition holes_fit (LENGTH NUM : Z) : Prop :=
  forall i, (1 <= i <= NUM)%Z ->
    in_float_range (hole_center LENGTH NUM i) = true.

Definition cyl4_call (LENGTH : Z) (WIDTH DEPTH : Q) (RADIUS : pyval) (NUM i : Z)
  : call :=
  Call "cyl4"
    [VFloat (Qred (hole_center LENGTH NUM i)); VFloat (Qred (WIDTH / inject_Z 2));
     RADIUS; S_ EmptyString; S_ EmptyString; S_ EmptyString;
     VFloat (Qred (inject_Z 2 * DEPTH))] [].

Definition plate_geometry_calls (LENGTH : Z) (WIDTH DEPTH : Q) (RADIUS : pyval)
    (NUM : Z) : list call :=
  [Call "launch_mapdl" [] []; Call "clear" [] []; Call "prep7" [] [];
   Call "block" [VInt 0; VInt LENGTH; VInt 0; VFloat WIDTH; VInt 0; VFloat DEPTH] []]
  ++ map (cyl4_call LENGTH WIDTH DEPTH RADIUS NUM) (holes NUM)
  ++ [Call "vsbv" [VInt 1; S_ "all"] []; Call "vplot" [S_ "all"] []].

(** The parameters of the plate in the namespace. *)
Definition plate_env (LENGTH : Z) (WIDTH DEPTH : Q) (RADIUS : pyval) (NUM : Z)
    (E NU PRESSURE : pyval) (g : gmap string pyval) : Prop :=
  g !! "LENGTH" = Some (VInt LENGTH) /\
  g !! "WIDTH" = Some (VFloat WIDTH) /\
  g !! "DEPTH" = Some (VFloat DEPTH) /\
  g !! "RADIUS" = Some RADIUS /\
  g !! "NUM" = Some (VInt NUM) /\
  g !! "E" = Some E /\
  g !! "NU" = Some NU /\
  g !! "PRESSURE" = Some PRESSURE.

Definition mapdl_bound (g : gmap string pyval) : Prop :=
  g !! "mapdl" = Some Mapdl.

(** The namespace before iteration [i] of the study loop: [mapdl] and the
    parameters are bound, and the two lists have [i] entries. *)
Definition study_names (i : nat) (g : gmap string pyval) : Prop :=
  mapdl_bound g /\
  exists ds ss, sweep_names ds ss g /\ length ds = i /\ length ss = i.

Definition plate_ready (LENGTH : Z) (WIDTH DEPTH : Q) (RADIUS : pyval) (NUM : Z)
    (E NU PRESSURE : pyval) (g : gmap string pyval) : Prop :=
  plate_env LENGTH WIDTH DEPTH RADIUS NUM E NU PRESSURE g /\ mapdl_bound g.

(** The calls of the other cells of the plate notebook. *)
Definition plate_mesh_calls (E NU : pyval) : list call :=
  [Call "lesize" [S_ "ALL"; VFloat 0.15] [("layer1", VInt 1)];
   Call "mp" [S_ "ex"; VInt 1; E] [];
   Call "mp" [S_ "nuxy"; VInt 1; NU] [];
   Call "et" [VInt 1; S_ "SOLID186"] [];
   Call "mshape" [VInt 1; S_ "3D"] [];
   Call "mshkey" [VInt 0] [];
   Call "vmesh" [S_ "all"] [];
   Call "eplot" [] []].

Definition plate_loads_calls (LENGTH : Z) (PRESSURE : pyval) : list call :=
  [Call "nsel" [S_ "s"; S_ "loc"; S_ "x"; VInt 0] [];
   Call "d" [S_ "all"; S_ "all"; VInt 0] [];
   Call "nsel" [S_ "s"; S_ "loc"; S_ "x"; VInt LENGTH] [];
   Call "sf" [S_ "all"; S_ "pres"; PRESSURE] [];
   Call "allsel" [] [];
   Call "finish" [] []].

Definition plate_solve_calls : list call :=
  [Call "slashsolu" [] []; Call "solve" [] []; Call "finish" [] []].

Definition plate_plot_calls : list call :=
  [Call "result" [] [];
   Call "result.plot_principal_nodal_stress" [VInt 0; S_ "seqv"]
     [("background", S_ "w"); ("show_edges", VBool true);
      ("text_color", S_ "k"); ("add_text", VBool true)]].

Definition exit_call : call := Call "exit" [] [].
Definition launch_call : call := Call "launch_mapdl" [] [].

(** Every library call of a complete run of the pipe notebook. *)
Definition pipe_plot_calls : list call :=
  [Call "allsel" [S_ "ALL"] [];
   Call "eplot" []
     [("title", S_ "Element Plot"); ("line_width", VInt 1);
      ("show_bounds", VBool true); ("cpos", S_ "xy")];
   Call "post1" [] [];
   Call "set" [VInt 1; VInt 1] [];
   Call "post_processing.plot_nodal_displacement" [S_ "NORM"]
     [("cpos", S_ "xy"); ("cmap", S_ "magma")];
   Call "post_processing.plot_nodal_eqv_stress" []
     [("cpos", S_ "xy"); ("cmap", S_ "magma")]].

Definition pipe_notebook_calls : list call :=
  [launch_call] ++ flat_map study_calls esizes ++ pipe_plot_calls ++ [exit_call].

(** Every library call of a complete run of the plate notebook. *)
Definition plate_notebook_calls : list call :=
  plate_geometry_calls 5 2.5 0.1 (VFloat 0.5) 3
  ++ plate_mesh_calls (VFloat 2e11) (VFloat 0.27)
  ++ plate_loads_calls 5 (VInt 1000)
  ++ plate_solve_calls ++ plate_plot_calls ++ [exit_call].


(** A call other than the launch and the exit of the solver. *)
Definition inner (c : call) : bool :=
  negb (String.eqb (meth c) "launch_mapdl") && negb (String.eqb (meth c) "exit").

(** The library calls made between two worlds of one run. *)
Definition issued {L : Library} (w w' : world) : list call :=
  commands (drop (length (trace w)) (trace w')).

Definition is_lsel (c : call) : bool := String.eqb (meth c) "lsel".

(** The calls between launch and exit in the two notebooks. *)
Definition pipe_session_inner : list call :=
  flat_map study_calls esizes ++ pipe_plot_calls.

Definition plate_session_inner : list call :=
  tail (plate_geometry_calls 5 2.5 0.1 (VFloat 0.5) 3)
  ++ plate_mesh_calls (VFloat 2e11) (VFloat 0.27)
  ++ plate_loads_calls 5 (VInt 1000)
  ++ plate_solve_calls ++ plate_plot_calls.

Section Shapes.

Context {L : Library}.

(** A notebook whose session is bracketed: whatever it issues is an initial
    part of [launch_mapdl()], then calls that neither launch nor exit, then
    [mapdl.exit()]; a run that returns has issued all of it, and a run
    against a reliable library returns. *)
Definition bracketed (m : M unit) (mid : list call) : Prop :=
  forallb inner mid = true /\
  forall w,
    issued w (final (m w)) `prefix_of` launch_call :: mid ++ [exit_call] /\
    (forall w', m w = Ok tt w' -> issued w w' = launch_call :: mid ++ [exit_call]) /\
    (Reliable -> exists w', m w = Ok tt w').

(** No handler: a library call that raised is the last entry the run added
    to the transcript, and the run ended in that exception. *)
Definition uncaught {A} (m : M A) : Prop :=
  forall w pre c ex post,
    trace (final (m w)) = trace w ++ pre ++ Cmd c (Raises ex) :: post ->
    post = [] /\ quiet pre /\ exists w', m w = Raised ex w'.

(** A computation that does not look at the world. *)
Definition pure {A} (m : M A) : Prop :=
  exists r : A + exn,
    forall w, m w = match r with inl a => Ok a w | inr ex => Raised ex w end.

(** Two worlds with the same solver state and transcript whose namespaces
    agree on the names [X]. *)
Definition alike (X : list string) (w1 w2 : world) : Prop :=
  remote w1 = remote w2 /\ trace w1 = trace w2 /\
  forall x, In x X -> globals w1 !! x = globals w2 !! x.

(** Two outcomes that differ at most in names outside [X]. *)
Definition same_outcome {A} (X : list string) (o1 o2 : outcome A) : Prop :=
  match o1, o2 with
  | Ok a1 u1, Ok a2 u2 => a1 = a2 /\ alike X u1 u2
  | Raised e1 u1, Raised e2 u2 => e1 = e2 /\ alike [] u1 u2
  | _, _ => False
  end.

(** A program that reads no name outside [X] before binding it, and after
    which the names [Y] are determined. *)
Definition reads_only {A} (X : list string) (m : M A) (Y : list string) : Prop :=
  forall w1 w2, alike X w1 w2 -> same_outcome Y (m w1) (m w2).

End Shapes.

(** ** Two libraries to run the notebooks against

    [counting] never raises: its state counts the commands it has received,
    and the arrays it reports depend on that count.  [flaky] counts the
    meshes it has built and refuses to solve from the third on. *)

Definition counting : Library := {|
  Remote := nat;
  command := fun _ n => (None, S n);
  nodal_eqv_stress_query := fun n => (inl [inject_Z (Z.of_nat n); 1%Q], n);
  nnum_all_query := fun n => (inl (map Z.of_nat (seq 1 (3 + n mod 5))), n)
|}.

Definition flaky : Library := {|
  Remote := nat;
  command := fun c n =>
    if String.eqb (meth c) "amesh" then (None, S n)
    else if String.eqb (meth c) "solve" && (3 <=? n)%nat
         then (Some (MapdlError "solution not converged"), n)
         else (None, n);
  nodal_eqv_stress_query := fun n => (inl [inject_Z (Z.of_nat n)], n);
  nnum_all_query := fun n => (inl (map Z.of_nat (seq 1 n)), n)
|}.

(** A fresh kernel, and one in which [mapdl] and [rad1] are bound. *)
Definition fresh {L : Library} (s : Remote) : world := World ∅ s [].

Definition launched {L : Library} (s : Remote) (rad1 : pyval) : world :=
  World (<["rad1" := rad1]> {["mapdl" := Mapdl]}) s [].

(** Worlds to try the study in: [mapdl] launched on the counting library,
    with [rad1] as the study sets it and with another value, and on the
    flaky one. *)
Definition counting_start : @world counting := launched (L:=counting) 0%nat (VInt 175).
Definition counting_other : @world counting := launched (L:=counting) 7%nat (VInt 150).
Definition flaky_start : @world flaky := launched (L:=flaky) 0%nat (VInt 175).

Definition study_run {L : Library} (esize : pyval) : M (Z * Q) :=
  pipe_plane_strain (VFloat 2e5) (VFloat 0.3) (VInt 175) (VInt 200) (VInt 100) esize.

(** A fresh kernel on the counting library, and one with the plate's
    parameters bound. *)
Definition counting_fresh : @world counting := fresh (L:=counting) 0%nat.

Definition plate_start : @world counting :=
  final (plate_parameters counting_fresh).

(** ** The output recorded in the notebook for the convergence study *)

Definition recorded_dof : list Z :=
  [56; 96; 114; 132; 156; 248; 288; 430; 500; 708; 980; 1312; 1746; 2530;
   3264; 4508; 6460; 8550; 12282; 16432]%Z.

Definition recorded_stress : list Q :=
  [702.42; 725.72; 725.63; 725.57; 725.52; 733.64; 733.62; 737.75; 737.74;
   740.25; 741.93; 743.13; 744.04; 745.32; 745.78; 746.50; 747.24; 747.60;
   748.12; 748.40]%Q.

(** Each value is at least the one before it, up to [tol]. *)
Fixpoint rising (tol : Q) (l : list Q) : bool :=
  match l with
  | a :: (b :: _) as rest => Qle_bool (a - tol) b && rising tol rest
  | _ => true
  end.

Definition nondecreasing (l : list Q) : bool := rising 0 l.

Fixpoint increasing (l : list Q) : bool :=
  match l with
  | a :: (b :: _) as rest =>
      Qle_bool a b && negb (Qeq_bool a b) && increasing rest
  | _ => true
  end.

Definition within (lo hi : Q) (l : list Q) : bool :=
  forallb (fun x => Qle_bool lo x && Qle_bool x hi) l.

(** The number of steps at which the value falls. *)
Fixpoint descents (l : list Q) : nat :=
  match l with
  | a :: (b :: _) as rest =>
      (if Qle_bool a b then 0 else 1) + descents rest
  | _ => 0
  end.

(** A library that replays the recorded run: its state counts the solves,
    and after the [n]-th solve it reports a mesh with half the [n]-th
    recorded DOF count as nodes and the [n]-th recorded peak stress. *)
Definition replaying : Library := {|
  Remote := nat;
  command := fun c n =>
    if String.eqb (meth c) "solve" then (None, S n) else (None, n);
  nodal_eqv_stress_query := fun n => (inl [nth (n - 1) recorded_stress 0%Q], n);
  nnum_all_query := fun n =>
    (inl (map Z.of_nat (seq 1 (Z.to_nat (nth (n - 1) recorded_dof 0%Z / 2)))), n)
|}.

Definition replaying_start : @world replaying :=
  launched (L:=replaying) 0%nat (VInt 175).

(** ** What a run displays *)

(** The display calls of a transcript, without the library calls. *)
Fixpoint displayed (t : list event) : list call :=
  match t with
  | [] => []
  | Show c :: rest => c :: displayed rest
  | Cmd _ _ :: rest => displayed rest
  end.

(** What was displayed between two worlds of one run. *)
Definition shown {L : Library} (w w' : world) : list call :=
  displayed (drop (length (trace w)) (trace w')).

(** The two result lists of the study after the invocations [outs]. *)
Definition dof_list (outs : list (Z * Q)) : pyval :=
  VList (map (fun o => VInt o.1) outs).

Definition stress_list (outs : list (Z * Q)) : pyval :=
  VList (map (fun o => VFloat o.2) outs).

(** What the convergence plot displays for the lists [ds] and [ss]: the
    curve, then the dotted line from the first to the last DOF count at the
    height of the last stress. *)
Definition plot_convergence_shows (ds ss : list pyval) : list call :=
  [Call "plt.figure" [] [("figsize", VTuple [VInt 8; VInt 6]); ("dpi", VInt 80)];
   Call "plt.plot" [VList ds; VList ss; S_ "b-o"] [];
   Call "plt.plot"
     [VList [hd VNone ds; List.last ds VNone];
      VList [List.last ss VNone; List.last ss VNone]; S_ "r:"] [];
   Call "plt.title" [S_ "Mesh Convergence Study"] [];
   Call "plt.xlabel" [S_ "Number of DOF"] [];
   Call "plt.ylabel" [S_ "Maximum eqv. Stress (MPa)"] [];
   Call "plt.show" [] []].

(** The element sizes passed to [aesize], in the order of the calls. *)
Definition aesize_sizes (cs : list call) : list pyval :=
  flat_map (fun c =>
    if String.eqb (meth c) "aesize"
    then match args c with [_; size] => [size] | _ => [] end
    else []) cs.

(** Each value is smaller than the one before it. *)
Definition decreasing (l : list Q) : Prop :=
  forall i a b, l !! i = Some a -> l !! S i = Some b -> (b < a)%Q.

(** The pair of radii an invocation works with: the inner radius of the
    [pcirc] commands and the radius of the [lsel] commands. *)
Definition pcirc_radii (cs : list call) : list pyval :=
  flat_map (fun c =>
    if String.eqb (meth c) "pcirc"
    then match args c with r :: _ => [r] | _ => [] end
    else []) cs.

Definition lsel_radii (cs : list call) : list pyval :=
  flat_map (fun c =>
    if String.eqb (meth c) "lsel" then map snd (kwargs c) else []) cs.

Section Endings.

Context {L : Library}.

(** A program that exits the solver at its very end only: a run that
    raised has either issued no [exit] at all, or the [exit] is the call
    that raised and the last entry of the transcript. *)
Definition exit_only_last (m : M unit) : Prop :=
  forall w ex w', m w = Raised ex w' ->
    exists t, trace w' = trace w ++ t /\
      (Forall (fun c => meth c <> "exit") (commands t) \/
       exists pre, t = pre ++ [Cmd exit_call (Raises ex)]).

(** The same from the namespaces that satisfy [P]. *)
Definition exit_guarded (P : gmap string pyval -> Prop) (m : M unit) : Prop :=
  forall w ex w', P (globals w) -> m w = Raised ex w' ->
    exists t, trace w' = trace w ++ t /\
      (Forall (fun c => meth c <> "exit") (commands t) \/
       exists pre, t = pre ++ [Cmd exit_call (Raises ex)]).

(** No command of the list [cs] raises, in whatever state the solver is. *)
Definition accepts (cs : list call) : Prop :=
  forall c s, In c cs -> (command c s).1 = None.

End Endings.

(** A library that accepts every command and has nothing to report: its
    stress array and its node numbers are empty. *)
Definition hollow : Library := {|
  Remote := unit;
  command := fun _ s => (None, s);
  nodal_eqv_stress_query := fun s => (inl [], s);
  nnum_all_query := fun s => (inl [], s)
|}.

(** Worlds to try the edge cases in: [mapdl] launched with [rad1] unbound,
    on the counting library; [mapdl] and [rad1] bound on the hollow one;
    the two result lists empty; the plate's parameters with no hole, and
    with a float for the number of holes. *)
Definition counting_no_rad1 : @world counting :=
  @World counting {["mapdl" := Mapdl]} 0%nat [].

Definition hollow_start : @world hollow := launched (L:=hollow) tt (VInt 175).

Definition counting_two_results : @world counting :=
  @World counting (<["max_stress" := VList [VFloat 702.42; VFloat 725.72]]>
           {["num_dof" := VList [VInt 56; VInt 96]]}) 0%nat [].

Definition counting_no_results : @world counting :=
  @World counting (<["max_stress" := VList []]> {["num_dof" := VList []]}) 0%nat [].

Definition plate_no_holes : @world counting :=
  @World counting (<["NUM" := VInt (-1)]> (globals plate_start)) 0%nat [].

Definition plate_float_NUM : @world counting :=
  @World counting (<["NUM" := VFloat 3]> (globals plate_start)) 0%nat [].

(** The plate's namespace with a length beyond the range of the floats, as
    after [LENGTH = 10**400]. *)
Definition plate_too_long : @world counting :=
  @World counting (<["LENGTH" := VInt (10 ^ 400)]> (globals plate_start)) 0%nat [].

(** An event of the solver's client library, as opposed to a display. *)
Definition is_cmd (ev : event) : Prop :=
  match ev with Cmd _ _ => True | Show _ => False end.

Definition is_show (ev : event) : Prop :=
  match ev with Cmd _ _ => False | Show _ => True end.

Section Emitting.

Context {L : Library}.

(** A program all of whose entries in the transcript satisfy [P], however
    it ends. *)
Definition emits (P : event -> Prop) {A} (m : M A) : Prop :=
  forall w, exists t, trace (final (m w)) = trace w ++ t /\ Forall P t.

End Emitting.

(** A fresh kernel on the flaky library. *)
Definition flaky_fresh : @world flaky := fresh (L:=flaky) 0%nat.

(** No call of the list is [mapdl.exit()]. *)
Definition no_exit (cs : list call) : bool :=
  forallb (fun c => negb (String.eqb (meth c) "exit")) cs.



(** A command that resets, meshes or solves the model. *)
Definition rebuilds (c : call) : bool :=
  existsb (String.eqb (meth c)) ["clear"; "prep7"; "amesh"; "solve"].

(** The namespace of the study inside its loop, at the last element
    size. *)
Definition counting_swept : @world counting :=
  final ((study_parameters ;; assign "esize" (VPow10 0)) counting_start).

(** * Proofs *)

Ltac unmonad :=
  unfold mbind, M_bind, bind, mret, M_ret, ret, raise in *; cbn beta in *.

Section Runs.

Context {L : Library}.
Implicit Types (w : world) (t : list event) (c : call).

Lemma bind_run {A B} (m : M A) (k : A -> M B) w :
  (m ≫= k) w = match m w with Ok a w1 => k a w1 | Raised e w1 => Raised e w1 end.
Proof. reflexivity. Qed.

Lemma world_eta w : World (globals w) (remote w) (trace w) = w.
Proof. by destruct w. Qed.

Lemma is_obj_spec cls v : is_obj cls v = true <-> v = VObj cls.
Proof.
  destruct v; simpl; try (split; [discriminate | congruence]).
  rewrite String.eqb_eq. split; congruence.
Qed.

(** ** A single [mapdl] call *)

Lemma mapdl_run m a kw w :
  has_mapdl w ->
  mapdl m a kw w =
    match command (Call m a kw) (remote w) with
    | (None, s) => Ok tt (World (globals w) s (trace w ++ [done (Call m a kw)]))
    | (Some e, s) =>
        Raised e (World (globals w) s (trace w ++ [Cmd (Call m a kw) (Raises e)]))
    end.
Proof.
  intros Hm. unfold mapdl, mapdl_with, call_on, name. unmonad.
  rewrite Hm. simpl. unfold issue.
  by destruct (command _ _) as [[e|] s].
Qed.

Lemma mapdl_with_unbound {m a kw} w :
  ~ has_mapdl w ->
  exists e, mapdl_with m a kw w = Raised e w /\
            (e = NameError "mapdl" \/ e = AttributeError m).
Proof.
  intros Hm. unfold mapdl_with, call_on. rewrite bind_run. unfold name.
  destruct (globals w !! "mapdl") as [h|] eqn:Hh; [|eauto].
  destruct (is_obj "Mapdl" h) eqn:Ho; [|eauto].
  apply is_obj_spec in Ho. subst h. by destruct Hm.
Qed.

(** ** Lists of commands *)

Lemma chain_run {A} (cs : list call) (k : M A) w :
  has_mapdl w ->
  chain cs k w =
    match drive cs (remote w) with
    | (t, s, None) => k (World (globals w) s (trace w ++ t))
    | (t, s, Some e) => Raised e (World (globals w) s (trace w ++ t))
    end.
Proof.
  revert w. induction cs as [|c cs IH]; intros w Hm; simpl.
  - by rewrite app_nil_r, world_eta.
  - rewrite bind_run. destruct c as [m a kw]. simpl.
    rewrite mapdl_run by done.
    destruct (command _ _) as [[e|] s1]; [done|].
    rewrite IH by done. simpl.
    destruct (drive cs s1) as [[t s2] [e|]]; simpl; by rewrite <- app_assoc.
Qed.

Lemma drive_done cs s t s' :
  drive cs s = (t, s', None) -> t = map done cs.
Proof.
  revert s t. induction cs as [|c cs IH]; intros s t; simpl.
  - congruence.
  - destruct (command c s) as [[e|] s1]; [congruence|].
    destruct (drive cs s1) as [[t1 s2] r] eqn:Hd. intros [= <- <- ->].
    f_equal. eauto.
Qed.

Lemma drive_raised cs s t s' e :
  drive cs s = (t, s', Some e) ->
  exists pre c post, cs = pre ++ c :: post /\ t = map done pre ++ [Cmd c (Raises e)].
Proof.
  revert s t. induction cs as [|c cs IH]; intros s t; simpl.
  - congruence.
  - destruct (command c s) as [[e1|] s1].
    + intros [= <- <- ->]. by exists [], c, cs.
    + destruct (drive cs s1) as [[t1 s2] r] eqn:Hd. intros [= <- <- ->].
      destruct (IH _ _ Hd) as (pre & c' & post & -> & ->).
      by exists (c :: pre), c', post.
Qed.

Lemma has_mapdl_dec w : has_mapdl w \/ ~ has_mapdl w.
Proof.
  unfold has_mapdl. destruct (globals w !! "mapdl") as [h|]; [|by right].
  destruct (is_obj "Mapdl" h) eqn:Ho.
  - apply is_obj_spec in Ho. subst. by left.
  - right. intros [= ->]. by rewrite (proj2 (is_obj_spec _ _)) in Ho.
Qed.

Lemma commands_app t1 t2 : commands (t1 ++ t2) = commands t1 ++ commands t2.
Proof.
  induction t1 as [|[c r|c] t1 IH]; simpl; [done| |done]. by f_equal.
Qed.

Lemma commands_done cs : commands (map done cs) = cs.
Proof. induction cs; simpl; by f_equal. Qed.

Lemma quiet_done cs : quiet (map done cs).
Proof. apply Forall_forall. intros ev [c [-> _]]%list_elem_of_fmap. done. Qed.

Lemma quiet_app t1 t2 : quiet t1 -> quiet t2 -> quiet (t1 ++ t2).
Proof. apply Forall_app_2. Qed.

Lemma halted_raise pre c ex : quiet pre -> halted (pre ++ [Cmd c (Raises ex)]) ex.
Proof. intros Hq. right. by exists pre, c. Qed.

Lemma name_run x v w : globals w !! x = Some v -> name x w = Ok v w.
Proof. intros H. unfold name. by rewrite H. Qed.

Lemma lookup_bound_ne x y v w :
  x <> y -> globals (bound x v w) !! y = globals w !! y.
Proof. intros. by apply lookup_insert_ne. Qed.

Lemma lookup_bound_eq x v w : globals (bound x v w) !! x = Some v.
Proof. apply lookup_insert_eq. Qed.

Lemma assign_run x v w : assign x v w = Ok tt (bound x v w).
Proof. reflexivity. Qed.

Lemma append_run x (v : M pyval) old a w :
  globals w !! x = Some (VList old) ->
  v w = Ok a w ->
  append x v w = Ok tt (bound x (VList (old ++ [a])) w).
Proof.
  intros Hx Hv. unfold append. rewrite bind_run, (name_run _ _ _ Hx).
  cbn beta iota. by rewrite bind_run, Hv.
Qed.

Lemma issue_run c w :
  issue c w =
    match command c (remote w) with
    | (None, s) => Ok tt (World (globals w) s (trace w ++ [done c]))
    | (Some ex, s) => Raised ex (World (globals w) s (trace w ++ [Cmd c (Raises ex)]))
    end.
Proof. unfold issue. by destruct (command _ _) as [[ex|] s]. Qed.

End Runs.

Ltac trace_tail :=
  eexists; split;
  [unfold log, moved; cbn [final trace globals remote];
   rewrite <- ?app_assoc; reflexivity|].

Ltac list_norm := repeat first [rewrite <- app_assoc | progress simpl].

Ltac solve_prefix :=
  rewrite ?commands_app, ?commands_done; cbn [commands];
  unfold pipe_calls, pipe_commands, pipe_lsel;
  eexists; list_norm; reflexivity.

Ltac step_name :=
  rewrite bind_run;
  erewrite name_run by
    (first [apply lookup_bound_eq | rewrite lookup_bound_ne by done; eassumption
           | eassumption]);
  cbn beta iota.

Ltac step_assign := rewrite bind_run, assign_run; cbn beta iota.

Section Study.

Context {L : Library}.
Implicit Types (w : world) (t : list event) (c : call).

(** ** [pipe_plane_strain] *)

Lemma pipe_plane_strain_chain e nu inn_radius out_radius press AESIZE :
  pipe_plane_strain e nu inn_radius out_radius press AESIZE =
  chain (pipe_head e nu inn_radius out_radius AESIZE)
    (mapdl_with "lsel" (mret [S_ "S"; S_ "RADIUS"])
       (rad1 ← name "rad1"; mret [("vmin", rad1)]) ;;
     chain (pipe_tail press)
       (stress ← mapdl_nodal_eqv_stress;
        max_eqv_stress ← np_max stress;
        all_dof ← mapdl_nnum_all;
        mret ((2 * Z.of_nat (length all_dof))%Z, max_eqv_stress))).
Proof. reflexivity. Qed.

Lemma lsel_run w :
  has_mapdl w ->
  mapdl_with "lsel" (mret [S_ "S"; S_ "RADIUS"])
    (rad1 ← name "rad1"; mret [("vmin", rad1)]) w =
  match globals w !! "rad1" with
  | Some r => mapdl "lsel" [S_ "S"; S_ "RADIUS"] [("vmin", r)] w
  | None => Raised (NameError "rad1") w
  end.
Proof.
  intros Hm. unfold mapdl, mapdl_with, call_on, name. unmonad.
  rewrite Hm. simpl. destruct (globals w !! "rad1"); by rewrite ?Hm.
Qed.

Lemma mapdl_nodal_eqv_stress_run w :
  has_mapdl w -> mapdl_nodal_eqv_stress w = ask_nodal_eqv_stress w.
Proof. intros Hm. unfold mapdl_nodal_eqv_stress, name. unmonad. by rewrite Hm. Qed.

Lemma mapdl_nnum_all_run w :
  has_mapdl w -> mapdl_nnum_all w = ask_nnum_all w.
Proof. intros Hm. unfold mapdl_nnum_all, name. unmonad. by rewrite Hm. Qed.

Opaque pipe_head pipe_tail.

Lemma pipe_plane_strain_run e nu inn_radius out_radius press AESIZE w :
  pipe_outcome e nu inn_radius out_radius press AESIZE w
    (pipe_plane_strain e nu inn_radius out_radius press AESIZE w).
Proof.
  rewrite pipe_plane_strain_chain.
  destruct (has_mapdl_dec w) as [Hm|Hm].
  2: { Transparent pipe_head. simpl chain. Opaque pipe_head.
       rewrite bind_run. unfold mapdl.
       destruct (mapdl_with_unbound (m:="clear") (a:=mret []) (kw:=mret []) w Hm)
         as (ex & -> & _).
       split; [done|]. exists []. simpl. rewrite app_nil_r. split; [done|].
       split; [apply prefix_nil | left; constructor]. }
  rewrite chain_run by done.
  destruct (drive _ (remote w)) as [[t1 s1] [ex|]] eqn:Hd.
  { apply drive_raised in Hd as (pre & c & post & Hcs & ->).
    split; [done|]. trace_tail. split; [unfold pipe_calls, pipe_commands; rewrite Hcs; solve_prefix|].
    apply halted_raise, quiet_done. }
  apply drive_done in Hd as ->.
  rewrite bind_run, lsel_run by done. cbn [globals].
  destruct (globals w !! "rad1") as [r|] eqn:Hr.
  2: { split; [done|]. trace_tail. unfold rad1_of. rewrite Hr.
       split; [solve_prefix|]. left. apply quiet_done. }
  rewrite mapdl_run by done. cbn [remote globals trace].
  destruct (command _ s1) as [[ex|] s2].
  { split; [done|]. trace_tail. unfold rad1_of. rewrite Hr.
    split; [solve_prefix|]. apply halted_raise, quiet_done. }
  rewrite chain_run by done. cbn [remote globals trace].
  destruct (drive _ s2) as [[t3 s3] [ex|]] eqn:Hd.
  { apply drive_raised in Hd as (pre & c & post & Hcs & ->).
    split; [done|]. trace_tail. unfold rad1_of. rewrite Hr.
    split; [unfold pipe_calls, pipe_commands; rewrite Hcs; solve_prefix|].
    rewrite !app_assoc. apply halted_raise.
    repeat apply quiet_app; try apply quiet_done. by repeat constructor. }
  apply drive_done in Hd as ->.
  rewrite bind_run, mapdl_nodal_eqv_stress_run by done.
  unfold ask_nodal_eqv_stress. cbn [remote globals trace].
  destruct (nodal_eqv_stress_query s3) as [[arr|ex] s4].
  2: { split; [done|]. trace_tail. unfold rad1_of. rewrite Hr.
       split; [solve_prefix|]. rewrite !app_assoc. apply halted_raise.
       repeat apply quiet_app; try apply quiet_done. by repeat constructor. }
  rewrite bind_run. destruct arr as [|x xs]; unfold np_max; unmonad.
  { split; [done|]. trace_tail. unfold rad1_of. rewrite Hr.
    split; [solve_prefix|]. left.
    repeat apply quiet_app; try apply quiet_done; by repeat constructor. }
  rewrite mapdl_nnum_all_run by done.
  unfold ask_nnum_all, log, moved. cbn [remote globals trace].
  destruct (nnum_all_query s4) as [[ids|ex] s5].
  - split; [done|]. trace_tail. split; [done|].
    exists r, x, xs, ids. split; [done|]. split; [|done].
    unfold pipe_commands, pipe_lsel. rewrite !map_app. by list_norm.
  - split; [done|]. trace_tail. unfold rad1_of. rewrite Hr.
    split; [solve_prefix|]. rewrite !app_assoc. apply halted_raise.
    repeat apply quiet_app; try apply quiet_done; by repeat constructor.
Qed.

Transparent pipe_head pipe_tail.

(** ** The study loop *)

Lemma sweep_call_run ds ss x w :
  sweep_env ds ss w ->
  sweep_call (bound "esize" x w) =
  pipe_plane_strain (VFloat 2e5) (VFloat 0.3) (VInt 175) (VInt 200)
    (VInt 100) x (bound "esize" x w).
Proof.
  intros (He & Hnu & H1 & H2 & Hp & _).
  unfold sweep_call. by do 6 step_name.
Qed.

Lemma sweep_record_run d s ds ss w :
  globals w !! "num_dof" = Some (VList ds) ->
  globals w !! "max_stress" = Some (VList ss) ->
  sweep_record (d, s) w =
  Ok tt (World
           (<["max_stress" := VList (ss ++ [VFloat s])]>
              (<["num_dof" := VList (ds ++ [VInt d])]>
                 (<["eqv_stress" := VFloat s]>
                    (<["dof" := VInt d]> (globals w)))))
           (remote w) (trace w ++ [Show (print_call d s)])).
Proof.
  intros Hd Hs. unfold sweep_record. cbn [fst snd].
  do 2 step_assign.
  rewrite bind_run.
  erewrite (append_run "num_dof" _ ds (VInt d)); cycle 1.
  { by rewrite !lookup_bound_ne. }
  { apply name_run. rewrite lookup_bound_ne by done. apply lookup_bound_eq. }
  cbn beta iota. rewrite bind_run.
  erewrite (append_run "max_stress" _ ss (VFloat s)); cycle 1.
  { by rewrite !lookup_bound_ne. }
  { apply name_run. rewrite lookup_bound_ne by done. apply lookup_bound_eq. }
  cbn beta iota.
  rewrite bind_run. erewrite (name_run "dof" (VInt d)); cycle 1.
  { rewrite !lookup_bound_ne by done. apply lookup_bound_eq. }
  cbn beta iota.
  rewrite bind_run. erewrite (name_run "eqv_stress" (VFloat s)); cycle 1.
  { rewrite !lookup_bound_ne by done. apply lookup_bound_eq. }
  reflexivity.
Qed.

Lemma sweep_env_next ds ss d s x g w r t :
  sweep_env ds ss w ->
  g = <["esize" := x]> (globals w) ->
  sweep_env (ds ++ [VInt d]) (ss ++ [VFloat s])
    (World (<["max_stress" := VList (ss ++ [VFloat s])]>
              (<["num_dof" := VList (ds ++ [VInt d])]>
                 (<["eqv_stress" := VFloat s]> (<["dof" := VInt d]> g)))) r t).
Proof.
  intros (He & Hnu & H1 & H2 & Hp & _) ->.
  unfold sweep_env, sweep_names in *. cbn [globals].
  repeat split; by simplify_map_eq.
Qed.

Lemma study_loop_run xs : forall ds ss w w',
  sweep_env ds ss w ->
  for_in "esize" xs sweep_body w = Ok tt w' ->
  exists outs,
    invocations w xs outs w' /\
    sweep_env (ds ++ map (fun o => VInt o.1) outs)
              (ss ++ map (fun o => VFloat o.2) outs) w' /\
    exists t, trace w' = trace w ++ t /\
              commands t = flat_map study_calls xs /\ quiet t.
Proof.
  induction xs as [|x xs IH]; intros ds ss w w' Henv Hrun.
  - cbn [for_in] in Hrun. unmonad. injection Hrun as <-.
    exists []. split; [constructor|].
    simpl. rewrite !app_nil_r. split; [done|]. exists [].
    rewrite app_nil_r. repeat split. constructor.
  - cbn [for_in] in Hrun. revert Hrun. step_assign.
    rewrite bind_run. unfold sweep_body at 1. rewrite bind_run.
    rewrite (sweep_call_run ds ss) by done.
    pose proof (pipe_plane_strain_run (VFloat 2e5) (VFloat 0.3) (VInt 175)
                  (VInt 200) (VInt 100) x (bound "esize" x w)) as Hp.
    destruct (pipe_plane_strain _ _ _ _ _ _ _) as [[d s] w1|ex w1] eqn:Hcall;
      [|discriminate].
    destruct Hp as (Hg & t1 & Ht1 & _ & r & y & ys & ids & Hr & -> & _ & _).
    cbn [final] in Hg, Ht1.
    assert (r = VInt 175) as ->.
    { destruct Henv as (_ & _ & H1 & _).
      rewrite lookup_bound_ne, H1 in Hr by done. congruence. }
    destruct Henv as (He & Hnu & H1 & H2 & Hpr & Hd & Hs).
    pose proof (sweep_record_run d s ds ss w1) as Hrec.
    rewrite Hg, !lookup_bound_ne in Hrec by done.
    specialize (Hrec Hd Hs). rewrite Hrec. intros Hrest.
    eapply IH in Hrest as (outs & Hinv & Henv' & t2 & Ht2 & Hc2 & Hq2);
      [|eapply sweep_env_next; [repeat split; eassumption | reflexivity]].
    exists ((d, s) :: outs). split; [by econstructor|].
    cbn [map fst snd]. rewrite <- !app_assoc in Henv'. split; [done|].
    eexists. split.
    { rewrite Ht2. cbn [trace]. rewrite Ht1. cbn [trace bound].
      rewrite <- !app_assoc. reflexivity. }
    split.
    + rewrite !commands_app, commands_done, Hc2. cbn [commands flat_map].
      unfold study_calls at 2, pipe_calls. by rewrite <- !app_assoc.
    + repeat apply quiet_app; try apply quiet_done; try done;
        by repeat constructor.
Qed.

Lemma invocations_length w xs outs w' :
  invocations w xs outs w' -> length outs = length xs.
Proof. induction 1; simpl; congruence. Qed.

Lemma study_parameters_run w :
  exists w0, study_parameters w = Ok tt w0 /\
             sweep_env [] [] w0 /\
             globals w0 !! "esizes" = Some (VArray esizes) /\
             globals w0 !! "mapdl" = globals w !! "mapdl" /\
             remote w0 = remote w /\ trace w0 = trace w.
Proof.
  eexists. split; [reflexivity|]. unfold sweep_env, sweep_names. cbn [globals remote trace].
  repeat split; by simplify_map_eq.
Qed.

Lemma study_loop_unfold w :
  globals w !! "esizes" = Some (VArray esizes) ->
  study_loop w = for_in "esize" esizes sweep_body w.
Proof. intros H. unfold study_loop. by step_name. Qed.

(** ** Runs against a reliable library *)

Lemma drive_reliable cs s :
  Reliable -> exists s', drive cs s = (map done cs, s', None).
Proof.
  intros (Hc & _). revert s. induction cs as [|c cs IH]; intros s; simpl.
  - by exists s.
  - specialize (Hc c s). destruct (command c s) as [r s1]. simpl in Hc. subst r.
    destruct (IH s1) as (s2 & ->). by exists s2.
Qed.

Lemma pipe_plane_strain_returns e nu inn_radius out_radius press AESIZE w :
  Reliable -> has_mapdl w -> is_Some (globals w !! "rad1") ->
  exists d s w', pipe_plane_strain e nu inn_radius out_radius press AESIZE w
                 = Ok (d, s) w'.
Proof.
  intros HR Hm [r Hr]. rewrite pipe_plane_strain_chain.
  rewrite chain_run by done.
  destruct (drive_reliable (pipe_head e nu inn_radius out_radius AESIZE)
              (remote w) HR) as (s1 & ->).
  rewrite bind_run, lsel_run by done. cbn [globals]. rewrite Hr.
  rewrite mapdl_run by done. cbn [remote globals trace].
  pose proof HR as (Hc & Hs & Hn).
  specialize (Hc (Call "lsel" [S_ "S"; S_ "RADIUS"] [("vmin", r)]) s1).
  destruct (command _ s1) as [o s2]. simpl in Hc. subst o.
  rewrite chain_run by done. cbn [remote globals trace].
  destruct (drive_reliable (pipe_tail press) s2 HR) as (s3 & ->).
  rewrite bind_run, mapdl_nodal_eqv_stress_run by done.
  unfold ask_nodal_eqv_stress. cbn [remote globals trace].
  destruct (Hs s3) as (x & xs & Hq).
  destruct (nodal_eqv_stress_query s3) as [o s4]. simpl in Hq. subst o.
  rewrite bind_run. unfold np_max. unmonad.
  rewrite mapdl_nnum_all_run by done.
  unfold ask_nnum_all, log, moved. cbn [remote globals trace].
  destruct (Hn s4) as (ids & Hq).
  destruct (nnum_all_query s4) as [o s5]. simpl in Hq. subst o.
  by eexists _, _, _.
Qed.

Lemma study_loop_returns xs : forall ds ss w,
  Reliable -> has_mapdl w -> sweep_env ds ss w ->
  exists w', for_in "esize" xs sweep_body w = Ok tt w'.
Proof.
  induction xs as [|x xs IH]; intros ds ss w HR Hm Henv.
  - by exists w.
  - cbn [for_in]. step_assign.
    rewrite bind_run. unfold sweep_body at 1. rewrite bind_run.
    rewrite (sweep_call_run ds ss) by done.
    destruct (pipe_plane_strain_returns (VFloat 2e5) (VFloat 0.3)
                (VInt 175) (VInt 200) (VInt 100) x (bound "esize" x w) HR)
      as (d & s & w1 & Hcall).
    { unfold has_mapdl. by rewrite lookup_bound_ne. }
    { destruct Henv as (_ & _ & H1 & _). rewrite lookup_bound_ne by done. eauto. }
    pose proof (pipe_plane_strain_run (VFloat 2e5) (VFloat 0.3) (VInt 175)
                  (VInt 200) (VInt 100) x (bound "esize" x w)) as (Hg & _).
    rewrite Hcall in Hg |- *. cbn [final] in Hg.
    pose proof (sweep_record_run d s ds ss w1) as Hrec.
    rewrite Hg, !lookup_bound_ne in Hrec by done.
    destruct Henv as (He & Hnu & H1 & H2 & Hpr & Hd & Hs).
    specialize (Hrec Hd Hs). rewrite Hrec.
    eapply IH; [done| |eapply sweep_env_next; [repeat split; eassumption|reflexivity]].
    unfold has_mapdl in *. cbn [globals bound]. by simplify_map_eq.
Qed.

(** ** The convergence study *)

Lemma convergence_study_run w w' :
  convergence_study w = Ok tt w' ->
  exists w0 outs t,
    study_parameters w = Ok tt w0 /\
    invocations w0 esizes outs w' /\
    globals w' !! "num_dof" = Some (VList (map (fun o => VInt o.1) outs)) /\
    globals w' !! "max_stress" = Some (VList (map (fun o => VFloat o.2) outs)) /\
    trace w' = trace w ++ t /\
    commands t = flat_map study_calls esizes /\ quiet t.
Proof.
  unfold convergence_study. rewrite bind_run.
  destruct (study_parameters_run w) as (w0 & -> & Henv & Hes & _ & _ & Ht).
  rewrite study_loop_unfold by done. intros Hrun.
  destruct (study_loop_run _ _ _ _ _ Henv Hrun)
    as (outs & Hinv & (_ & _ & _ & _ & _ & Hd & Hs) & t & Htr & Hc & Hq).
  exists w0, outs, t. rewrite <- Ht. by repeat split.
Qed.

Lemma convergence_study_returns w :
  Reliable -> has_mapdl w -> exists w', convergence_study w = Ok tt w'.
Proof.
  intros HR Hm. unfold convergence_study. rewrite bind_run.
  destruct (study_parameters_run w) as (w0 & -> & Henv & Hes & Hm0 & _).
  rewrite study_loop_unfold by done.
  eapply study_loop_returns; [done| |done]. unfold has_mapdl. by rewrite Hm0.
Qed.

End Study.

(** * Programs that follow a script *)

Section Scripts.

Context {L : Library}.
Implicit Types (w : world) (t : list event) (c : call)
  (P : gmap string pyval -> Prop).

Lemma halted_app t1 t2 ex : quiet t1 -> halted t2 ex -> halted (t1 ++ t2) ex.
Proof.
  intros H1 [H2|(pre & c & -> & H2)].
  - left. by apply quiet_app.
  - right. exists (t1 ++ pre), c. rewrite app_assoc. split; [done|].
    by apply quiet_app.
Qed.

Lemma scripted_bind {A B} P (m : M A) (k : A -> M B) cs1 cs2 Q R :
  scripted P m cs1 Q ->
  (forall a, scripted (Q a) (k a) cs2 R) ->
  scripted P (m ≫= k) (cs1 ++ cs2) R.
Proof.
  intros Hm Hk w HP. rewrite bind_run.
  destruct (Hm w HP) as (t1 & Ht1 & H1).
  destruct (m w) as [a w1|ex w1]; cbn [final] in *.
  - destruct H1 as (Hc1 & Hq1 & HQ).
    destruct (Hk a w1 HQ) as (t2 & Ht2 & H2).
    exists (t1 ++ t2). split; [by rewrite Ht2, Ht1, app_assoc|].
    rewrite commands_app, Hc1.
    destruct (k a w1) as [b w2|ex w2].
    + destruct H2 as (-> & Hq2 & HR). split; [done|]. split; [|done].
      by apply quiet_app.
    + destruct H2 as (Hp2 & Hh & Hn). split; [by apply prefix_app|].
      split; [by apply halted_app|done].
  - exists t1. split; [done|]. destruct H1 as (Hp & Hh). split; [|done].
    by apply prefix_app_r.
Qed.

Lemma scripted_conseq {A} P P' (m : M A) cs Q Q' :
  scripted P m cs Q ->
  (forall g, P' g -> P g) ->
  (forall a g, Q a g -> Q' a g) ->
  scripted P' m cs Q'.
Proof.
  intros Hm HP HQ w Hw. destruct (Hm w (HP _ Hw)) as (t & Ht & H).
  exists t. split; [done|]. destruct (m w); [|done].
  destruct H as (? & ? & ?). eauto.
Qed.

(** A fact that does not depend on the namespace can be taken out of the
    precondition. *)
Lemma scripted_given {A} (phi : Prop) P (m : M A) cs Q :
  (phi -> scripted P m cs Q) ->
  scripted (fun g => phi /\ P g) m cs Q.
Proof. intros H w [Hphi HP]. by apply H. Qed.

Lemma scripted_reads {A} P (m : M A) a :
  reads P m a -> scripted P m [] (fun b g => b = a /\ P g).
Proof.
  intros Hm w HP. rewrite (Hm w HP). exists []. cbn [final].
  rewrite app_nil_r. repeat split; try done. constructor.
Qed.

Lemma scripted_ret {A} P (a : A) : scripted P (mret a) [] (fun b g => b = a /\ P g).
Proof. by apply scripted_reads. Qed.

Lemma scripted_assign P x v :
  scripted P (assign x v) [] (fun _ g => exists g0, P g0 /\ g = <[x := v]> g0).
Proof.
  intros w HP. exists []. cbn [final assign trace].
  rewrite app_nil_r. repeat split; try done; [constructor|]. by exists (globals w).
Qed.

Lemma scripted_show P c : scripted P (show c) [] (fun _ g => P g).
Proof.
  intros w HP. exists [Show c]. repeat split; try done. by repeat constructor.
Qed.

Lemma scripted_issue P c : scripted P (issue c) [c] (fun _ g => P g).
Proof.
  intros w HP. rewrite issue_run.
  destruct (command c (remote w)) as [[ex|] s] eqn:Hc.
  - exists [Cmd c (Raises ex)]. split; [done|]. split; [done|]. split.
    + apply (halted_raise []). constructor.
    + intros (H & _). specialize (H c (remote w)). by rewrite Hc in H.
  - exists [done c]. repeat split; try done. by repeat constructor.
Qed.

Lemma reads_name P x v :
  (forall g, P g -> g !! x = Some v) -> reads P (name x) v.
Proof. intros H w HP. apply name_run. by apply H. Qed.

Lemma reads_ret {A} P (a : A) : reads P (mret a) a.
Proof. by intros w _. Qed.

Lemma reads_bind {A B} P (m : M A) (k : A -> M B) a b :
  reads P m a -> reads P (k a) b -> reads P (m ≫= k) b.
Proof. intros Hm Hk w HP. rewrite bind_run, (Hm w HP). by apply Hk. Qed.

(** A method call whose arguments are read from the namespace. *)
Lemma scripted_call_on P x cls m a kw av kv :
  (forall g, P g -> g !! x = Some (VObj cls)) ->
  reads P a av -> reads P kw kv ->
  scripted P (call_on x cls m a kw) [Call m av kv] (fun _ g => P g).
Proof.
  intros Hm Ha Hkw w HP. unfold call_on.
  rewrite bind_run, (name_run _ _ _ (Hm _ HP)). cbn beta iota.
  rewrite (proj2 (is_obj_spec cls (VObj cls)) eq_refl).
  rewrite bind_run, (Ha w HP). cbn beta iota.
  rewrite bind_run, (Hkw w HP). cbn beta iota.
  by apply scripted_issue.
Qed.

Lemma scripted_mapdl_with P m a kw av kv :
  (forall g, P g -> g !! "mapdl" = Some Mapdl) ->
  reads P a av -> reads P kw kv ->
  scripted P (mapdl_with m a kw) [Call m av kv] (fun _ g => P g).
Proof. apply scripted_call_on. Qed.

Lemma scripted_mapdl P m a kw :
  (forall g, P g -> g !! "mapdl" = Some Mapdl) ->
  scripted P (mapdl m a kw) [Call m a kw] (fun _ g => P g).
Proof. intros Hm. by apply scripted_mapdl_with. Qed.

(** A loop whose invariant [P i] holds before iteration [i]. *)
Lemma scripted_for_in (P : nat -> gmap string pyval -> Prop) x body
    (f : pyval -> list call) xs :
  (forall i v, xs !! i = Some v ->
     scripted (fun g => exists g0, P i g0 /\ g = <[x := v]> g0) body (f v)
       (fun _ g => P (S i) g)) ->
  scripted (P 0) (for_in x xs body) (flat_map f xs)
    (fun _ g => P (length xs) g).
Proof.
  revert P. induction xs as [|v xs IH]; intros P Hbody.
  - eapply scripted_conseq; [apply (scripted_ret (P 0) tt)|done|].
    by intros ? ? [_ ?].
  - cbn [for_in flat_map length].
    change (f v ++ flat_map f xs) with ([] ++ f v ++ flat_map f xs).
    eapply scripted_bind; [apply scripted_assign|]. intros [].
    eapply scripted_bind; [apply (Hbody 0 v eq_refl)|]. intros [].
    apply (IH (fun i => P (S i))). intros i u Hu. by apply (Hbody (S i)).
Qed.

Lemma scripted_exists {A X} (P : X -> gmap string pyval -> Prop) (m : M A) cs Q :
  (forall x, scripted (P x) m cs Q) ->
  scripted (fun g => exists x, P x g) m cs Q.
Proof. intros H w [x HP]. by apply (H x). Qed.

(** [pipe_plane_strain] follows its script wherever [mapdl] and [rad1] are
    bound. *)
Lemma pipe_plane_strain_scripted P e nu inn_radius out_radius press AESIZE r :
  (forall g, P g -> g !! "mapdl" = Some Mapdl /\ g !! "rad1" = Some r) ->
  scripted P (pipe_plane_strain e nu inn_radius out_radius press AESIZE)
    (pipe_calls e nu inn_radius out_radius press AESIZE r) (fun _ g => P g).
Proof.
  intros HP w Hw. destruct (HP _ Hw) as [Hm Hr].
  pose proof (pipe_plane_strain_run e nu inn_radius out_radius press AESIZE w) as Hp.
  pose proof (pipe_plane_strain_returns e nu inn_radius out_radius press AESIZE w)
    as Hret.
  destruct (pipe_plane_strain _ _ _ _ _ _ w) as [[d s] w1|ex w1].
  - destruct Hp as (Hg & t & Ht & _ & r' & x & xs & ids & Hr' & -> & _).
    cbn [final] in *. eexists. split; [exact Ht|].
    assert (r' = r) as -> by congruence. split.
    + by rewrite commands_app, commands_done.
    + split; [|by rewrite Hg].
      apply quiet_app; [apply quiet_done|by repeat constructor].
  - destruct Hp as (_ & t & Ht & Hpre & Hh). exists t. split; [done|].
    unfold rad1_of in Hpre. rewrite Hr in Hpre. repeat split; try done.
    intros HR. destruct (Hret HR Hm) as (? & ? & ? & [=]). by rewrite Hr.
Qed.

Lemma scripted_close {A} P (m : M A) cs cs' Q Q' :
  scripted P m cs Q ->
  cs = cs' ->
  (forall a g, Q a g -> Q' a g) ->
  scripted P m cs' Q'.
Proof. intros Hm <- HQ. by eapply scripted_conseq. Qed.

End Scripts.

(** Looking a name up in a namespace described by the assignments that
    led to it. *)
Ltac open_names H :=
  repeat match type of H with
         | _ /\ _ => let H1 := fresh in destruct H as [H1 H]; try open_names H1
         | exists _, _ => let g := fresh "g" in destruct H as [g H]
         | _ = <[_ := _]> _ => subst
         | ?a = _ => is_var a; subst a
         end.

Ltac names_side :=
  let g := fresh "g" in let H := fresh "H" in
  intros g H; unfold plate_ready, mapdl_bound, study_names in *; open_names H;
  repeat match goal with
         | H : plate_env _ _ _ _ _ _ _ _ _ |- _ =>
             destruct H as (? & ? & ? & ? & ? & ? & ? & ?)
         | H : sweep_names _ _ _ |- _ =>
             destruct H as (? & ? & ? & ? & ? & ? & ?)
         end;
  rewrite ?lookup_insert_ne by done;
  first [apply lookup_insert_eq | eassumption].

(** A description of the namespace after some more assignments. *)
Ltac names_solve H :=
  cbn beta in H;
  unfold plate_ready, plate_env, mapdl_bound, study_names, sweep_names in *;
  open_names H;
  repeat match goal with
         | H : _ /\ _ |- _ => destruct H
         end;
  repeat split; rewrite ?lookup_insert_ne by done;
  first [apply lookup_insert_eq | eassumption | done].

Ltac names_post :=
  let a := fresh "a" in let g := fresh "g" in let H := fresh "H" in
  intros a g H; names_solve H.

Ltac reads_go :=
  lazymatch goal with
  | |- reads _ (_ ≫= _) _ => eapply reads_bind; [reads_go | cbn beta; reads_go]
  | |- reads _ (name _) _ => eapply reads_name; names_side
  | |- reads _ (mret _) _ => eapply reads_ret
  end.

Ltac script_go :=
  lazymatch goal with
  | |- scripted _ (_ ≫= _) _ _ =>
      eapply scripted_bind;
      [script_go
      |intros ?; cbn beta; try (apply scripted_given; intros ->); script_go]
  | |- scripted _ (name _) _ _ =>
      eapply scripted_reads; eapply reads_name; names_side
  | |- scripted _ (mapdl _ _ _) _ _ => eapply scripted_mapdl; names_side
  | |- scripted _ (mapdl_with _ _ _) _ _ =>
      eapply scripted_mapdl_with; [names_side | reads_go | reads_go]
  | |- scripted _ (call_on _ _ _ _ _) _ _ =>
      eapply scripted_call_on; [names_side | reads_go | reads_go]
  | |- scripted _ (assign _ _) _ _ => eapply scripted_assign
  | |- scripted _ (show _) _ _ => eapply scripted_show
  | |- scripted _ (issue _) _ _ => eapply scripted_issue
  | |- scripted _ (mret _) _ _ => eapply scripted_ret
  end.

(** * The pipe notebook, cell by cell *)

Section Pipe.

Context {L : Library}.
Implicit Types (w : world) (t : list event) (c : call).

Lemma study_names_bound i x v g :
  x ∉ ["mapdl"; "e"; "nu"; "rad1"; "rad2"; "pressure"; "num_dof"; "max_stress"] ->
  study_names i g -> study_names i (<[x := v]> g).
Proof.
  intros Hx (Hm & ds & ss & (He & Hnu & H1 & H2 & Hp & Hd & Hs) & Hl).
  assert (forall y, y ∈ ["mapdl"; "e"; "nu"; "rad1"; "rad2"; "pressure";
                         "num_dof"; "max_stress"] ->
                    <[x := v]> g !! y = g !! y) as Hne.
  { intros y Hy. apply lookup_insert_ne. by intros ->. }
  split; [|exists ds, ss; split; [|done]; repeat split];
    unfold mapdl_bound; rewrite Hne; try done;
    apply list_elem_of_In; simpl; tauto.
Qed.

Lemma sweep_record_scripted d s i :
  scripted (study_names i) (sweep_record (d, s)) [] (fun _ => study_names (S i)).
Proof.
  intros w (Hm & ds & ss & Henv & Hl1 & Hl2).
  pose proof Henv as (He & Hnu & H1 & H2 & Hp & Hd & Hs).
  rewrite (sweep_record_run d s ds ss w Hd Hs).
  exists [Show (print_call d s)]. split; [done|]. split; [done|].
  split; [by repeat constructor|]. cbn [globals]. split.
  - unfold mapdl_bound in *. by rewrite !lookup_insert_ne.
  - exists (ds ++ [VInt d]), (ss ++ [VFloat s]).
    rewrite !length_app. cbn [length]. split; [|lia].
    unfold sweep_names. repeat split; by simplify_map_eq.
Qed.

Lemma sweep_body_scripted i v :
  scripted (fun g => exists g0, study_names i g0 /\ g = <["esize" := v]> g0)
    sweep_body (study_calls v) (fun _ => study_names (S i)).
Proof.
  eapply scripted_close; [unfold sweep_body, sweep_call|..].
  - eapply scripted_bind.
    + do 6 (eapply scripted_bind; [script_go|]; intros ?; cbn beta;
            apply scripted_given; intros ->).
      apply pipe_plane_strain_scripted.
      intros g H; split; revert g H; names_side.
    + intros [d s]. cbn beta.
      eapply scripted_conseq; [apply (sweep_record_scripted d s i)| |done].
      intros g (g0 & Hg0 & ->). apply study_names_bound; [|done].
      rewrite list_elem_of_In. simpl. intuition discriminate.
  - unfold study_calls. by rewrite app_nil_r.
  - done.
Qed.

Lemma study_loop_scripted xs :
  scripted (study_names 0) (for_in "esize" xs sweep_body)
    (flat_map study_calls xs) (fun _ => study_names (length xs)).
Proof. apply (scripted_for_in study_names). intros i v _. apply sweep_body_scripted. Qed.

Lemma study_parameters_scripted :
  scripted mapdl_bound study_parameters []
    (fun _ g => study_names 0 g /\ g !! "esizes" = Some (VArray esizes)).
Proof.
  eapply scripted_close; [unfold study_parameters; script_go|reflexivity|].
  intros a g H. cbn beta in H. open_names H. unfold study_names, sweep_names.
  split; [split; [|exists [], []]|]; repeat split;
    unfold mapdl_bound in *; by simplify_map_eq.
Qed.

Lemma convergence_study_scripted :
  scripted mapdl_bound convergence_study (flat_map study_calls esizes)
    (fun _ => study_names 20).
Proof.
  eapply scripted_close.
  - unfold convergence_study, study_loop.
    eapply scripted_bind; [apply study_parameters_scripted|]. intros [].
    eapply scripted_bind.
    { eapply scripted_reads, reads_name. by intros g [_ H]. }
    intros xs. cbn beta. apply scripted_given. intros ->. cbn [items].
    eapply scripted_bind; [apply scripted_ret|]. intros xs. cbn beta.
    apply scripted_given. intros ->.
    eapply scripted_conseq; [apply study_loop_scripted|by intros g [H _]|].
    intros a g H. exact H.
  - reflexivity.
  - done.
Qed.

Lemma subscript_reads P (l : list pyval) i :
  (0 <= (if i <? 0 then Z.of_nat (length l) + i else i) < Z.of_nat (length l))%Z ->
  exists a, reads P (subscript (VList l) i) a.
Proof.
  intros Hj. set (j := (if (i <? 0)%Z then _ else _)) in Hj.
  destruct (nth_error l (Z.to_nat j)) as [a|] eqn:Ha.
  2: { apply nth_error_None in Ha. lia. }
  exists a. intros w _. unfold subscript, items. unmonad. fold j.
  rewrite Ha.
  replace ((0 <=? j)%Z && (j <? Z.of_nat (length l))%Z) with true; [done|].
  symmetry. apply andb_true_iff. split; [apply Z.leb_le|apply Z.ltb_lt]; lia.
Qed.

Lemma plot_convergence_scripted :
  scripted (study_names 20) plot_convergence [] (fun _ => study_names 20).
Proof.
  set (P ds ss := fun g : gmap string pyval =>
         (length ds = 20 /\ length ss = 20) /\ mapdl_bound g /\ sweep_names ds ss g).
  eapply scripted_conseq with
    (P := fun g => exists ds ss, P ds ss g) (Q := fun _ => study_names 20).
  2: { intros g (Hm & ds & ss & Hn & Hd & Hs). by exists ds, ss. }
  2: done.
  apply scripted_exists. intros ds. apply scripted_exists. intros ss.
  apply scripted_given. intros [Hd Hs].
  destruct (subscript_reads (fun g => mapdl_bound g /\ sweep_names ds ss g) ds 0)
    as [d0 Hd0]; [simpl; lia|].
  destruct (subscript_reads (fun g => mapdl_bound g /\ sweep_names ds ss g) ds (-1))
    as [d1 Hd1]; [simpl; lia|].
  destruct (subscript_reads (fun g => mapdl_bound g /\ sweep_names ds ss g) ss (-1))
    as [s1 Hs1]; [simpl; lia|].
  eapply scripted_close.
  - unfold plot_convergence.
    eapply scripted_bind; [script_go|]. intros []. cbn beta.
    eapply scripted_bind; [script_go|]. intros []. cbn beta.
    eapply scripted_bind.
    + eapply scripted_bind; [script_go|]. intros ?. cbn beta.
      apply scripted_given. intros ->.
      eapply scripted_bind; [apply scripted_reads, Hd0|]. intros ?. cbn beta.
      apply scripted_given. intros ->.
      eapply scripted_bind; [script_go|]. intros ?. cbn beta.
      apply scripted_given. intros ->.
      eapply scripted_bind; [apply scripted_reads, Hd1|]. intros ?. cbn beta.
      apply scripted_given. intros ->.
      eapply scripted_bind; [script_go|]. intros ?. cbn beta.
      apply scripted_given. intros ->.
      eapply scripted_bind; [apply scripted_reads, Hs1|]. intros ?. cbn beta.
      apply scripted_given. intros ->.
      eapply scripted_bind; [script_go|]. intros ?. cbn beta.
      apply scripted_given. intros ->.
      eapply scripted_bind; [apply scripted_reads, Hs1|]. intros ?. cbn beta.
      apply scripted_given. intros ->.
      script_go.
    + intros []. cbn beta. script_go.
  - reflexivity.
  - intros _ g (Hm & Hn). split; [done|]. by exists ds, ss.
Qed.

Lemma pipe_launch_scripted :
  scripted (fun _ => True) pipe_launch [launch_call] (fun _ => mapdl_bound).
Proof.
  eapply scripted_close.
  - unfold pipe_launch, launch_mapdl.
    eapply scripted_bind; [script_go|]. intros h. cbn beta.
    apply scripted_given. intros ->. script_go.
  - reflexivity.
  - names_post.
Qed.

Lemma pipe_plots_scripted :
  scripted (study_names 20)
    (plot_mesh ;; plot_displacement ;; plot_stress ;; mapdl_exit)
    (pipe_plot_calls ++ [exit_call]) (fun _ => study_names 20).
Proof.
  eapply scripted_close;
    [unfold plot_mesh, plot_displacement, plot_stress, mapdl_exit; script_go
    |reflexivity|done].
Qed.

Lemma pipe_notebook_scripted :
  scripted (fun _ => True) pipe_notebook pipe_notebook_calls
    (fun _ => study_names 20).
Proof.
  unfold pipe_notebook, pipe_notebook_calls.
  eapply scripted_bind; [apply pipe_launch_scripted|]. intros [].
  eapply scripted_bind; [apply convergence_study_scripted|]. intros [].
  change (pipe_plot_calls ++ [exit_call]) with ([] ++ pipe_plot_calls ++ [exit_call]).
  eapply scripted_bind; [apply plot_convergence_scripted|]. intros [].
  apply pipe_plots_scripted.
Qed.

End Pipe.

(** * The plate geometry *)

Section Plate.

Context {L : Library}.
Implicit Types (w : world) (t : list event) (c : call).

Lemma float_of_int_2 w : float_of_int 2 w = Ok (inject_Z 2) w.
Proof. reflexivity. Qed.

Lemma cyl4_args_run LENGTH WIDTH DEPTH RADIUS NUM E NU PRESSURE i w :
  plate_env LENGTH WIDTH DEPTH RADIUS NUM E NU PRESSURE (globals w) ->
  (NUM + 1 <> 0)%Z ->
  in_float_range (hole_center LENGTH NUM i) = true ->
  globals w !! "i" = Some (VInt i) ->
  cyl4_args w = Ok (args (cyl4_call LENGTH WIDTH DEPTH RADIUS NUM i)) w.
Proof.
  intros (Hl & Hw & Hd & Hr & Hn & _) Hnz Hfit Hi. unfold cyl4_args.
  do 2 step_name. rewrite bind_run. cbn [py_mul as_int]. unmonad.
  rewrite (name_run _ _ _ Hn). cbn [py_add as_int]. unmonad. cbn beta iota.
  unfold py_truediv at 1. cbn [as_int].
  replace (NUM + 1 =? 0)%Z with false by (symmetry; by apply Z.eqb_neq).
  cbv zeta. unfold hole_center in Hfit. rewrite Hfit.
  unmonad. cbn beta iota.
  rewrite (name_run _ _ _ Hw). unfold py_truediv. cbn [as_int].
  unmonad. rewrite float_of_int_2. cbn beta iota. unfold float_div.
  change (Qeq_bool (inject_Z 2) 0) with false. unmonad. cbn beta iota.
  rewrite (name_run _ _ _ Hr), (name_run _ _ _ Hd).
  cbn [as_int]. by rewrite float_of_int_2.
Qed.

Lemma in_float_range_lt q :
  (Qabs q < inject_Z float_limit)%Q -> in_float_range q = true.
Proof.
  intros Hq. unfold in_float_range. apply negb_true_iff.
  destruct (Qle_bool _ _) eqn:Hle; [|done].
  apply Qle_bool_iff in Hle. by apply Qlt_not_le in Hq.
Qed.

(** A length within the range of the floats keeps every centre there. *)
Lemma holes_fit_bound LENGTH NUM :
  (Z.abs LENGTH < float_limit)%Z -> holes_fit LENGTH NUM.
Proof.
  intros Hb i Hi. apply in_float_range_lt.
  apply Qle_lt_trans with (inject_Z (Z.abs LENGTH)); [|by rewrite <- Zlt_Qlt].
  assert (0 < inject_Z (NUM + 1))%Q as Hpos.
  { change 0%Q with (inject_Z 0). rewrite <- Zlt_Qlt. lia. }
  unfold hole_center. apply Qabs_Qle_condition. split.
  - apply Qle_shift_div_l; [done|].
    rewrite <- inject_Z_opp, <- inject_Z_mult, <- Zle_Qle. nia.
  - apply Qle_shift_div_r; [done|].
    rewrite <- inject_Z_mult, <- Zle_Qle. nia.
Qed.

Lemma holes_fit_none LENGTH NUM : (NUM <= 0)%Z -> holes_fit LENGTH NUM.
Proof. intros HN i Hi. lia. Qed.

Section Cells.

Variables (LENGTH : Z) (WIDTH DEPTH : Q) (RADIUS : pyval) (NUM : Z)
  (E NU PRESSURE : pyval).

Abbreviation env := (plate_env LENGTH WIDTH DEPTH RADIUS NUM E NU PRESSURE).
Abbreviation ready := (plate_ready LENGTH WIDTH DEPTH RADIUS NUM E NU PRESSURE).

Lemma plate_mesh_scripted :
  scripted ready plate_mesh (plate_mesh_calls E NU) (fun _ => ready).
Proof.
  eapply scripted_close; [unfold plate_mesh; script_go|reflexivity|done].
Qed.

Lemma plate_loads_scripted :
  scripted ready plate_loads (plate_loads_calls LENGTH PRESSURE) (fun _ => ready).
Proof.
  eapply scripted_close; [unfold plate_loads; script_go|reflexivity|done].
Qed.

Lemma plate_solve_scripted :
  scripted ready plate_solve plate_solve_calls (fun _ => ready).
Proof.
  eapply scripted_close; [unfold plate_solve; script_go|reflexivity|done].
Qed.

Lemma plate_plot_scripted :
  scripted ready plate_plot plate_plot_calls (fun _ => ready).
Proof.
  eapply scripted_close; [unfold plate_plot; script_go|reflexivity|names_post].
Qed.

Lemma mapdl_exit_scripted :
  scripted ready mapdl_exit [exit_call] (fun _ => ready).
Proof.
  eapply scripted_close; [unfold mapdl_exit; script_go|reflexivity|done].
Qed.

Lemma flat_map_holes (f : Z -> call) ks :
  flat_map (fun v => match v with VInt k => [f k] | _ => [] end) (map VInt ks)
  = map f ks.
Proof. induction ks; simpl; by f_equal. Qed.

Lemma holes_range k : k ∈ holes NUM -> (1 <= k <= NUM)%Z.
Proof.
  unfold holes. intros (i & -> & Hi%elem_of_seq)%list_elem_of_fmap. lia.
Qed.

Lemma range_holes :
  map (fun k => VInt (1 + Z.of_nat k)) (seq 0 (Z.to_nat (NUM + 1 - 1)))
  = map VInt (holes NUM).
Proof. unfold holes. by rewrite map_map, Z.add_simpl_r. Qed.

Lemma ready_bound_i g v : ready g -> ready (<["i" := v]> g).
Proof.
  unfold plate_ready, plate_env, mapdl_bound. intros H.
  repeat split; rewrite lookup_insert_ne by done; tauto.
Qed.

Lemma plate_holes_scripted :
  holes_fit LENGTH NUM ->
  scripted ready
    (for_in "i" (map VInt (holes NUM)) (mapdl_with "cyl4" cyl4_args (mret [])))
    (map (cyl4_call LENGTH WIDTH DEPTH RADIUS NUM) (holes NUM))
    (fun _ => ready).
Proof.
  intros Hfit. rewrite <- flat_map_holes.
  apply (scripted_for_in (fun _ => ready)).
  intros i v Hv. apply list_lookup_fmap_Some in Hv as (k & -> & Hk).
  apply list_elem_of_lookup_2, holes_range in Hk.
  eapply scripted_close; [|reflexivity|].
  - eapply scripted_mapdl_with; [names_side| |apply reads_ret].
    intros w (g0 & Hg0 & Hg).
    eapply cyl4_args_run; [|lia|by apply Hfit|].
    + rewrite Hg. by apply ready_bound_i.
    + rewrite Hg. apply lookup_insert_eq.
  - intros _ g (g0 & Hg0 & ->). by apply ready_bound_i.
Qed.

Lemma plate_geometry_scripted :
  holes_fit LENGTH NUM ->
  scripted env plate_geometry
    (plate_geometry_calls LENGTH WIDTH DEPTH RADIUS NUM) (fun _ => ready).
Proof.
  intros Hfit.
  eapply scripted_close; [unfold plate_geometry, launch_mapdl|..].
  - eapply scripted_bind; [script_go|]. intros h. cbn beta.
    apply scripted_given. intros ->.
    do 4 (eapply scripted_bind; [script_go|]; intros []; cbn beta).
    eapply scripted_bind.
    + eapply scripted_bind; [script_go|]. intros n. cbn beta.
      apply scripted_given. intros ->. cbn [py_add as_int].
      eapply scripted_bind; [script_go|]. intros n1. cbn beta.
      apply scripted_given. intros ->. cbn [py_range as_int].
      eapply scripted_bind; [script_go|]. intros r. cbn beta.
      apply scripted_given. intros ->. rewrite range_holes.
      eapply scripted_conseq;
        [by apply plate_holes_scripted| |intros a g H; exact H].
      intros g H. names_solve H.
    + intros []. cbn beta. script_go.
  - reflexivity.
  - done.
Qed.

Lemma plate_parameters_scripted :
  scripted (fun _ => True) plate_parameters []
    (fun _ => plate_env 5 2.5 0.1 (VFloat 0.5) 3 (VFloat 2e11) (VFloat 0.27)
                (VInt 1000)).
Proof.
  eapply scripted_close; [unfold plate_parameters; script_go|reflexivity|].
  names_post.
Qed.
End Cells.

Lemma plate_notebook_scripted :
  scripted (fun _ => True) plate_notebook plate_notebook_calls
    (fun _ => plate_ready 5 2.5 0.1 (VFloat 0.5) 3 (VFloat 2e11) (VFloat 0.27)
                (VInt 1000)).
Proof.
  unfold plate_notebook, plate_notebook_calls.
  change (plate_geometry_calls 5 2.5 0.1 (VFloat 0.5) 3 ++ ?k)
    with ([] ++ plate_geometry_calls 5 2.5 0.1 (VFloat 0.5) 3 ++ k).
  eapply scripted_bind; [apply plate_parameters_scripted|]. intros [].
  eapply scripted_bind;
    [by apply plate_geometry_scripted, holes_fit_bound|]. intros [].
  eapply scripted_bind; [apply plate_mesh_scripted|]. intros [].
  eapply scripted_bind; [apply plate_loads_scripted|]. intros [].
  eapply scripted_bind; [apply plate_solve_scripted|]. intros [].
  eapply scripted_bind; [apply plate_plot_scripted|]. intros [].
  apply mapdl_exit_scripted.
Qed.

End Plate.

(** * What a run touches and what it depends on *)

Section Frames.

Context {L : Library}.
Implicit Types (w : world) (t : list event) (c : call) (X Y Z : list string).

(** ** Computations that do not look at the world *)

Lemma pure_ret {A} (a : A) : pure (mret a).
Proof. by exists (inl a). Qed.

Lemma pure_raise {A} ex : pure (raise (A:=A) ex).
Proof. by exists (inr ex). Qed.

Lemma pure_bind {A B} (m : M A) (k : A -> M B) :
  pure m -> (forall a, pure (k a)) -> pure (m ≫= k).
Proof.
  intros [[a|ex] Hm] Hk.
  - destruct (Hk a) as [r Hr]. exists r. intros w. by rewrite bind_run, Hm, Hr.
  - exists (inr ex). intros w. by rewrite bind_run, Hm.
Qed.

Lemma pure_float_of_int x : pure (float_of_int x).
Proof.
  unfold float_of_int. destruct (in_float_range _);
    [apply pure_ret | apply pure_raise].
Qed.

Lemma pure_float_div x y : pure (float_div x y).
Proof.
  unfold float_div. destruct (Qeq_bool _ _); [apply pure_raise | apply pure_ret].
Qed.

Lemma pure_py_mul a b : pure (py_mul a b).
Proof.
  unfold py_mul. destruct (as_int a), (as_int b);
    first [apply pure_ret | apply pure_raise
          | apply pure_bind; [apply pure_float_of_int | intros; apply pure_ret]].
Qed.

Lemma pure_py_add a b : pure (py_add a b).
Proof.
  unfold py_add. destruct (as_int a), (as_int b);
    first [apply pure_ret | apply pure_raise
          | apply pure_bind; [apply pure_float_of_int | intros; apply pure_ret]].
Qed.

Lemma pure_py_truediv a b : pure (py_truediv a b).
Proof.
  unfold py_truediv. destruct (as_int a), (as_int b);
    try apply pure_raise; try apply pure_float_div;
    try (apply pure_bind; [apply pure_float_of_int | intros; apply pure_float_div]).
  destruct (_ =? _)%Z; [apply pure_raise|]. cbv zeta.
  destruct (in_float_range _); [apply pure_ret | apply pure_raise].
Qed.

Lemma pure_py_range a b : pure (py_range a b).
Proof.
  unfold py_range. destruct (as_int a), (as_int b);
    first [apply pure_ret | apply pure_raise].
Qed.

Lemma pure_items v : pure (items v).
Proof. destruct v; first [apply pure_ret | apply pure_raise]. Qed.

Lemma pure_subscript v i : pure (subscript v i).
Proof.
  unfold subscript. apply pure_bind; [apply pure_items|]. intros l.
  destruct (_ && _); [|apply pure_raise].
  destruct (nth_error _ _); [apply pure_ret | apply pure_raise].
Qed.

Lemma pure_np_max a : pure (np_max a).
Proof. destruct a; [apply pure_raise | apply pure_ret]. Qed.

(** ** Programs that depend on a few names only *)

Lemma alike_weaken X Y w1 w2 : incl Y X -> alike X w1 w2 -> alike Y w1 w2.
Proof. intros Hi (Hr & Ht & Hg). repeat split; auto. Qed.

Lemma same_outcome_weaken {A} X Y (o1 o2 : outcome A) :
  incl Y X -> same_outcome X o1 o2 -> same_outcome Y o1 o2.
Proof.
  intros Hi. destruct o1, o2; simpl; try tauto.
  intros [-> H]. split; [done|]. by eapply alike_weaken.
Qed.

Lemma ro_pure {A} X (m : M A) : pure m -> reads_only X m X.
Proof.
  intros [r Hm] w1 w2 H. rewrite !Hm. destruct r; simpl; split; try done.
  eapply alike_weaken; [|done]. by intros x [].
Qed.

Lemma ro_raise {A} X Y ex : reads_only X (raise (A:=A) ex) Y.
Proof. intros w1 w2 H. simpl. split; [done|]. eapply alike_weaken; [|done]. by intros x []. Qed.

Lemma ro_name X x : In x X -> reads_only X (name x) X.
Proof.
  intros Hx w1 w2 H. unfold name. destruct H as (Hr & Ht & Hg).
  rewrite <- (Hg x Hx). destruct (globals w1 !! x); simpl; by repeat split.
Qed.

Lemma ro_assign X x v : reads_only X (assign x v) (x :: X).
Proof.
  intros w1 w2 (Hr & Ht & Hg). unfold assign, same_outcome, alike.
  cbn [remote trace globals]. repeat split; try done.
  intros y Hy. destruct (decide (x = y)) as [->|Hne].
  - by rewrite !lookup_insert_eq.
  - rewrite !lookup_insert_ne by done. destruct Hy; [done|auto].
Qed.

Lemma ro_issue X c : reads_only X (issue c) X.
Proof.
  intros w1 w2 (Hr & Ht & Hg). rewrite !issue_run, <- Hr, <- Ht.
  destruct (command c (remote w1)) as [[ex|] s];
    unfold same_outcome, alike; cbn [remote trace globals]; by repeat split.
Qed.

Lemma ro_show X c : reads_only X (show c) X.
Proof.
  intros w1 w2 (Hr & Ht & Hg). unfold show, log, same_outcome, alike.
  cbn [remote trace globals]. rewrite Ht. by repeat split.
Qed.

Lemma ro_ask_stress X : reads_only X ask_nodal_eqv_stress X.
Proof.
  intros w1 w2 (Hr & Ht & Hg). unfold ask_nodal_eqv_stress. rewrite <- Hr.
  destruct (nodal_eqv_stress_query (remote w1)) as [[a|ex] s];
    unfold same_outcome, alike, log, moved; cbn [remote trace globals];
    rewrite Ht; by repeat split.
Qed.

Lemma ro_ask_nnum X : reads_only X ask_nnum_all X.
Proof.
  intros w1 w2 (Hr & Ht & Hg). unfold ask_nnum_all. rewrite <- Hr.
  destruct (nnum_all_query (remote w1)) as [[a|ex] s];
    unfold same_outcome, alike, log, moved; cbn [remote trace globals];
    rewrite Ht; by repeat split.
Qed.

Lemma ro_bind {A B} X Y Z (m : M A) (k : A -> M B) :
  reads_only X m Y -> (forall a, reads_only Y (k a) Z) ->
  reads_only X (m ≫= k) Z.
Proof.
  intros Hm Hk w1 w2 H. rewrite !bind_run. specialize (Hm w1 w2 H).
  destruct (m w1) as [a1 u1|e1 u1], (m w2) as [a2 u2|e2 u2]; simpl in Hm;
    try done.
  destruct Hm as [<- Hu]. by apply Hk.
Qed.

Lemma ro_pre {A} X X' Y (m : M A) :
  reads_only X m Y -> incl X X' -> reads_only X' m Y.
Proof. intros Hm Hi w1 w2 H. apply Hm. by eapply alike_weaken. Qed.

Lemma ro_post {A} X Y Y' (m : M A) :
  reads_only X m Y -> incl Y' Y -> reads_only X m Y'.
Proof. intros Hm Hi w1 w2 H. eapply same_outcome_weaken; [done|]. by apply Hm. Qed.

Lemma ro_for_in X Y x xs body :
  reads_only (x :: X) body Y -> incl X Y -> reads_only X (for_in x xs body) X.
Proof.
  intros Hb Hi. induction xs as [|v xs IH]; cbn [for_in].
  - apply ro_pure, pure_ret.
  - eapply ro_bind; [apply ro_assign|]. intros _.
    eapply ro_bind; [exact Hb|]. intros _. by eapply ro_pre.
Qed.

Lemma ro_call_on X x cls m a kw :
  In x X -> reads_only X a X -> reads_only X kw X ->
  reads_only X (call_on x cls m a kw) X.
Proof.
  intros Hx Ha Hkw. unfold call_on.
  eapply ro_bind; [by apply ro_name|]. intros h.
  destruct (is_obj cls h); [|apply ro_raise].
  eapply ro_bind; [exact Ha|]. intros av.
  eapply ro_bind; [exact Hkw|]. intros kv. apply ro_issue.
Qed.

Lemma ro_append X x v :
  In x X -> reads_only X v X -> reads_only X (append x v) (x :: X).
Proof.
  intros Hx Hv. unfold append. eapply ro_bind; [by apply ro_name|]. intros l.
  destruct l; try apply ro_raise.
  eapply ro_bind; [exact Hv|]. intros a. apply ro_assign.
Qed.

End Frames.

Ltac pure_go :=
  lazymatch goal with
  | |- pure (_ ≫= _) => apply pure_bind; [pure_go | intros ?; pure_go]
  | |- pure (mret _) => apply pure_ret
  | |- pure (raise _) => apply pure_raise
  | |- pure (py_mul _ _) => apply pure_py_mul
  | |- pure (py_add _ _) => apply pure_py_add
  | |- pure (py_truediv _ _) => apply pure_py_truediv
  | |- pure (py_range _ _) => apply pure_py_range
  | |- pure (items _) => apply pure_items
  | |- pure (subscript _ _) => apply pure_subscript
  | |- pure (np_max _) => apply pure_np_max
  end.

Ltac head_of t :=
  lazymatch t with
  | ?f _ => head_of f
  | _ => t
  end.

Ltac solve_in := simpl; repeat first [left; reflexivity | right].

Ltac solve_incl :=
  let y := fresh "y" in let Hy := fresh "Hy" in
  intros y Hy; simpl in Hy;
  repeat (destruct Hy as [<-|Hy]; [solve_in|]); destruct Hy.

Ltac ro_go :=
  lazymatch goal with
  | |- reads_only _ (_ ≫= _) _ => eapply ro_bind; [ro_go | intros ?; ro_go]
  | |- reads_only _ (name _) _ => eapply ro_name; solve_in
  | |- reads_only _ (assign _ _) _ => eapply ro_assign
  | |- reads_only _ (issue _) _ => eapply ro_issue
  | |- reads_only _ (show _) _ => eapply ro_show
  | |- reads_only _ (raise _) _ => eapply ro_raise
  | |- reads_only _ (call_on _ _ _ _ _) _ =>
      eapply ro_call_on; [solve_in | ro_go | ro_go]
  | |- reads_only _ (mapdl_with _ _ _) _ => unfold mapdl_with; ro_go
  | |- reads_only _ (mapdl _ _ _) _ => unfold mapdl; ro_go
  | |- reads_only _ (append _ _) _ => eapply ro_append; [solve_in | ro_go]
  | |- reads_only _ (for_in _ _ _) _ => eapply ro_for_in; [ro_go | solve_incl]
  | |- reads_only _ (if ?b then _ else _) _ => destruct b; ro_go
  | |- reads_only _ ask_nodal_eqv_stress _ => eapply ro_ask_stress
  | |- reads_only _ ask_nnum_all _ => eapply ro_ask_nnum
  | |- reads_only _ ?m _ =>
      first [eapply ro_pure; pure_go
            | let h := head_of m in unfold h; ro_go]
  end.

(** * What a program adds to the transcript *)

Section Emits.

Context {L : Library}.
Implicit Types (w : world) (t : list event) (c : call) (P : event -> Prop).

Lemma emits_pure {A} P (m : M A) : pure m -> emits P m.
Proof.
  intros [r Hm] w. exists []. rewrite Hm, app_nil_r.
  split; [by destruct r|constructor].
Qed.

Lemma emits_name P x : emits P (name x).
Proof.
  intros w. exists []. rewrite app_nil_r. split; [|constructor].
  unfold name. by destruct (globals w !! x).
Qed.

Lemma emits_assign P x v : emits P (assign x v).
Proof. intros w. exists []. rewrite app_nil_r. split; [done|constructor]. Qed.

Lemma emits_issue P c : (forall r, P (Cmd c r)) -> emits P (issue c).
Proof.
  intros Hc w. rewrite issue_run. destruct (command c (remote w)) as [[ex|] s];
    eexists [_]; (split; [reflexivity|]); repeat constructor; apply Hc.
Qed.

Lemma emits_show P c : P (Show c) -> emits P (show c).
Proof. intros Hc w. exists [Show c]. split; [done|]. by repeat constructor. Qed.

Lemma emits_bind {A B} P (m : M A) (k : A -> M B) :
  emits P m -> (forall a, emits P (k a)) -> emits P (m ≫= k).
Proof.
  intros Hm Hk w. rewrite bind_run. destruct (Hm w) as (t1 & Ht1 & H1).
  destruct (m w) as [a w1|ex w1]; cbn [final] in *; [|by exists t1].
  destruct (Hk a w1) as (t2 & Ht2 & H2). exists (t1 ++ t2).
  split; [by rewrite Ht2, Ht1, app_assoc|]. by apply Forall_app.
Qed.

Lemma emits_for_in P x xs body : emits P body -> emits P (for_in x xs body).
Proof.
  intros Hb. induction xs as [|v xs IH]; cbn [for_in].
  - apply emits_pure, pure_ret.
  - apply emits_bind; [apply emits_assign|]. intros _.
    apply emits_bind; [done|]. by intros _.
Qed.

Lemma emits_call_on P x cls m a kw :
  (forall av kv r, P (Cmd (Call m av kv) r)) -> emits P a -> emits P kw ->
  emits P (call_on x cls m a kw).
Proof.
  intros Hm Ha Hkw. unfold call_on.
  apply emits_bind; [apply emits_name|]. intros h.
  destruct (is_obj cls h); [|apply emits_pure, pure_raise].
  apply emits_bind; [done|]. intros av.
  apply emits_bind; [done|]. intros kv. by apply emits_issue.
Qed.

Lemma emits_append P x v : emits P v -> emits P (append x v).
Proof.
  intros Hv. unfold append. apply emits_bind; [apply emits_name|]. intros l.
  destruct l; try apply emits_pure, pure_raise.
  apply emits_bind; [done|]. intros a. apply emits_assign.
Qed.

Lemma emits_ask_stress P :
  (forall r, P (Cmd nodal_eqv_stress_call r)) -> emits P ask_nodal_eqv_stress.
Proof.
  intros HP w. unfold ask_nodal_eqv_stress.
  destruct (nodal_eqv_stress_query (remote w)) as [[a|ex] s];
    eexists [_]; (split; [reflexivity|]); repeat constructor; apply HP.
Qed.

Lemma emits_ask_nnum P :
  (forall r, P (Cmd nnum_all_call r)) -> emits P ask_nnum_all.
Proof.
  intros HP w. unfold ask_nnum_all.
  destruct (nnum_all_query (remote w)) as [[a|ex] s];
    eexists [_]; (split; [reflexivity|]); repeat constructor; apply HP.
Qed.

Lemma displayed_app t1 t2 : displayed (t1 ++ t2) = displayed t1 ++ displayed t2.
Proof.
  induction t1 as [|[c r|c] t1 IH]; simpl; [done|done|]. by f_equal.
Qed.

Lemma displayed_done cs : displayed (map done cs) = [].
Proof. by induction cs. Qed.

Lemma displayed_cmds t : Forall is_cmd t -> displayed t = [].
Proof. induction 1 as [|[c r|c] t H _ IH]; simpl; [done|done|destruct H]. Qed.

Lemma commands_shows t : Forall is_show t -> commands t = [].
Proof. induction 1 as [|[c r|c] t H _ IH]; simpl; [done|destruct H|done]. Qed.

Lemma shown_app w w' t : trace w' = trace w ++ t -> shown w w' = displayed t.
Proof. unfold shown. intros ->. by rewrite drop_app_length. Qed.

End Emits.

Ltac emits_go :=
  lazymatch goal with
  | |- emits _ (_ ≫= _) => apply emits_bind; [emits_go | intros ?; emits_go]
  | |- emits _ (name _) => apply emits_name
  | |- emits _ (assign _ _) => apply emits_assign
  | |- emits _ (issue _) => apply emits_issue; intros; exact I
  | |- emits _ (show _) => apply emits_show; exact I
  | |- emits _ (call_on _ _ _ _ _) =>
      apply emits_call_on; [intros; exact I | emits_go | emits_go]
  | |- emits _ (mapdl_with _ _ _) => unfold mapdl_with; emits_go
  | |- emits _ (mapdl _ _ _) => unfold mapdl; emits_go
  | |- emits _ (append _ _) => apply emits_append; emits_go
  | |- emits _ (for_in _ _ _) => apply emits_for_in; emits_go
  | |- emits _ (if ?b then _ else _) => destruct b; emits_go
  | |- emits _ ask_nodal_eqv_stress => apply emits_ask_stress; intros; exact I
  | |- emits _ ask_nnum_all => apply emits_ask_nnum; intros; exact I
  | |- emits _ ?m =>
      first [apply emits_pure; pure_go
            | let h := head_of m in unfold h; emits_go]
  end.

(** * The properties of the specification *)

Section Claims.

Context {L : Library}.
Implicit Types (w : world) (t : list event) (c : call).

Lemma issued_app w w' t : trace w' = trace w ++ t -> issued w w' = commands t.
Proof. unfold issued. intros ->. by rewrite drop_app_length. Qed.

Lemma Qmaxb_cases a b :
  (Qmaxb a b = a \/ Qmaxb a b = b) /\ (a <= Qmaxb a b)%Q /\ (b <= Qmaxb a b)%Q.
Proof.
  unfold Qmaxb. destruct (Qle_bool a b) eqn:E.
  - apply Qle_bool_iff in E. repeat split; [by right|done|apply Qle_refl].
  - repeat split; [by left|apply Qle_refl|].
    apply Qlt_le_weak, Qnot_le_lt. intros H%Qle_bool_iff. congruence.
Qed.

Lemma fold_Qmaxb_max xs : forall x,
  In (fold_left Qmaxb xs x) (x :: xs) /\
  Forall (fun y => (y <= fold_left Qmaxb xs x)%Q) (x :: xs).
Proof.
  induction xs as [|a xs IH]; intros x; simpl.
  - split; [by left|]. repeat constructor. apply Qle_refl.
  - destruct (IH (Qmaxb x a)) as [Hin Hall].
    destruct (Qmaxb_cases x a) as (Hc & Hx & Ha).
    apply Forall_cons in Hall as [Hm Hall]. split.
    + destruct Hin as [Hin|Hin]; [|by right; right].
      rewrite <- Hin. destruct Hc as [->| ->]; [by left|by right; left].
    + repeat constructor; [by eapply Qle_trans|by eapply Qle_trans|done].
Qed.

(** C2: a call of [pipe_plane_strain] that returns gives back the pair
    [(num_dof, max_eqv_stress)].  Its last four library calls are [post1],
    [set(1, 1)], the query of the nodal equivalent stresses and the query of
    the node numbers; [num_dof] is exactly twice the number of node numbers
    that came back, and [max_eqv_stress] is the largest entry of the stress
    array that came back.  Against a library that does not raise, with
    [mapdl] and [rad1] bound, the call does return. *)
Theorem pipe_plane_strain_results e nu inn_radius out_radius press AESIZE w :
  (Reliable -> has_mapdl w -> is_Some (globals w !! "rad1") ->
   exists d s w',
     pipe_plane_strain e nu inn_radius out_radius press AESIZE w = Ok (d, s) w') /\
  forall d s w',
    pipe_plane_strain e nu inn_radius out_radius press AESIZE w = Ok (d, s) w' ->
    exists t0 arr ids,
      trace w' = trace w ++ t0 ++
        [done (Call "post1" [] []); done (Call "set" [VInt 1; VInt 1] []);
         Cmd nodal_eqv_stress_call (Floats arr); Cmd nnum_all_call (Ints ids)] /\
      d = (2 * Z.of_nat (length ids))%Z /\
      In s arr /\ Forall (fun y => (y <= s)%Q) arr.
Proof.
  split; [apply pipe_plane_strain_returns|].
  intros d s w' Hrun.
  pose proof (pipe_plane_strain_run e nu inn_radius out_radius press AESIZE w) as Hp.
  rewrite Hrun in Hp.
  destruct Hp as (_ & t & Ht & _ & r & x & xs & ids & _ & -> & -> & ->).
  cbn [final] in Ht.
  exists (map done (pipe_head e nu inn_radius out_radius AESIZE ++
                    pipe_lsel r :: firstn 11 (pipe_tail press))),
         (x :: xs), ids.
  split.
  - rewrite Ht. reflexivity.
  - split; [done|]. apply fold_Qmaxb_max.
Qed.

Lemma pipe_calls_meth e nu inn_radius out_radius press AESIZE r :
  map meth (pipe_calls e nu inn_radius out_radius press AESIZE r)
  = pipe_sequence ++ result_queries.
Proof. reflexivity. Qed.

Lemma prefix_map {A B} (f : A -> B) (l1 l2 : list A) :
  l1 `prefix_of` l2 -> map f l1 `prefix_of` map f l2.
Proof. intros [k ->]. exists (map f k). apply map_app. Qed.

(** What an invocation issued, whichever way it ended. *)
Lemma pipe_plane_strain_issued e nu inn_radius out_radius press AESIZE w :
  let o := pipe_plane_strain e nu inn_radius out_radius press AESIZE w in
  issued w (final o) `prefix_of`
    pipe_calls e nu inn_radius out_radius press AESIZE (rad1_of w) /\
  forall r w', o = Ok r w' ->
    issued w w' = pipe_calls e nu inn_radius out_radius press AESIZE (rad1_of w).
Proof.
  intros o. subst o.
  pose proof (pipe_plane_strain_run e nu inn_radius out_radius press AESIZE w) as Hp.
  destruct (pipe_plane_strain _ _ _ _ _ _ w) as [[d s] w1|ex w1].
  - destruct Hp as (_ & t & Ht & _ & r & x & xs & ids & Hr & -> & _).
    cbn [final] in *. rewrite (issued_app _ _ _ Ht).
    rewrite commands_app, commands_done. unfold rad1_of. rewrite Hr.
    split; [done|]. intros ? ? [= <- <-].
    rewrite (issued_app _ _ _ Ht). by rewrite commands_app, commands_done.
  - destruct Hp as (_ & t & Ht & Hpre & _).
    cbn [final] in *. rewrite (issued_app _ _ _ Ht). split; [done|].
    intros ? ? [=].
Qed.

(** C3: whatever the six arguments are, the library calls that one
    invocation of [pipe_plane_strain] makes are, by method name and in
    order, an initial part of the fixed sequence [clear, prep7, ..., post1,
    set] followed by the two result queries; an invocation that returns has
    made all of them, each once.  The inputs (and the global [rad1]) enter
    only as arguments of these calls.  Against a library that does not
    raise, with [mapdl] and [rad1] bound, the invocation returns. *)
Theorem pipe_plane_strain_sequence e nu inn_radius out_radius press AESIZE w :
  let o := pipe_plane_strain e nu inn_radius out_radius press AESIZE w in
  map meth (issued w (final o)) `prefix_of` pipe_sequence ++ result_queries /\
  (forall r w', o = Ok r w' ->
     map meth (issued w w') = pipe_sequence ++ result_queries /\
     issued w w' =
       pipe_calls e nu inn_radius out_radius press AESIZE (rad1_of w)) /\
  (Reliable -> has_mapdl w -> is_Some (globals w !! "rad1") ->
   exists r w', o = Ok r w').
Proof.
  intros o.
  destruct (pipe_plane_strain_issued e nu inn_radius out_radius press AESIZE w)
    as [Hpre Hok].
  split; [|split].
  - rewrite <- (pipe_calls_meth e nu inn_radius out_radius press AESIZE (rad1_of w)).
    by apply prefix_map.
  - intros r w' Ho. rewrite (Hok r w' Ho). by rewrite pipe_calls_meth.
  - intros HR Hm Hr.
    destruct (pipe_plane_strain_returns e nu inn_radius out_radius press AESIZE
                w HR Hm Hr) as (d & s & w' & Hrun).
    by exists (d, s), w'.
Qed.

(** C4: the line selection of [pipe_plane_strain] takes its radius from
    the global [rad1], not from the parameter [inn_radius].  Of two
    invocations that return, each has issued exactly one [lsel], with
    [vmin] the value of the global [rad1] it ran under; if the arguments
    are the same and the two values of [rad1] differ, the issued command
    sequences differ; if only [inn_radius] differs, the [lsel] commands are
    the same. *)
Theorem pipe_plane_strain_reads_global_rad1
    e nu inn_radius inn_radius' out_radius press AESIZE w1 w2 r1 r2 o1 o2 u1 u2 :
  globals w1 !! "rad1" = Some r1 ->
  globals w2 !! "rad1" = Some r2 ->
  pipe_plane_strain e nu inn_radius out_radius press AESIZE w1 = Ok o1 u1 ->
  pipe_plane_strain e nu inn_radius' out_radius press AESIZE w2 = Ok o2 u2 ->
  List.filter is_lsel (issued w1 u1)
    = [Call "lsel" [S_ "S"; S_ "RADIUS"] [("vmin", r1)]] /\
  List.filter is_lsel (issued w2 u2)
    = [Call "lsel" [S_ "S"; S_ "RADIUS"] [("vmin", r2)]] /\
  (inn_radius = inn_radius' -> r1 <> r2 -> issued w1 u1 <> issued w2 u2) /\
  (r1 = r2 ->
   List.filter is_lsel (issued w1 u1) = List.filter is_lsel (issued w2 u2)).
Proof.
  intros Hr1 Hr2 Hrun1 Hrun2.
  destruct (pipe_plane_strain_issued e nu inn_radius out_radius press AESIZE w1)
    as [_ H1].
  destruct (pipe_plane_strain_issued e nu inn_radius' out_radius press AESIZE w2)
    as [_ H2].
  rewrite (H1 _ _ Hrun1), (H2 _ _ Hrun2). unfold rad1_of. rewrite Hr1, Hr2.
  cbn [default]. repeat split.
  - intros -> Hne Heq. apply Hne.
    apply (f_equal (List.filter is_lsel)) in Heq. by injection Heq.
  - by intros ->.
Qed.

(** The first two calls of an invocation that has a session to talk to. *)
Lemma pipe_plane_strain_opens e nu inn_radius out_radius press AESIZE w :
  has_mapdl w ->
  exists rest,
    issued w (final (pipe_plane_strain e nu inn_radius out_radius press AESIZE w))
      = Call "clear" [] [] :: rest /\
    ((command (Call "clear" [] []) (remote w)).1 = None ->
     exists rest', rest = Call "prep7" [] [] :: rest').
Proof.
  intros Hm. unfold pipe_plane_strain. rewrite bind_run, mapdl_run by done.
  destruct (command (Call "clear" [] []) (remote w)) as [[ex|] s1].
  { exists []. split; [by erewrite issued_app by reflexivity|]. by intros [=]. }
  cbn beta iota. rewrite bind_run, mapdl_run by done. cbn [remote globals trace].
  destruct (command (Call "prep7" [] []) s1) as [[ex|] s2].
  { eexists. split.
    - erewrite issued_app by (cbn [final trace]; rewrite <- app_assoc; reflexivity).
      reflexivity.
    - intros _. by eexists. }
  cbn beta iota. cbv zeta.
  match goal with
  | |- context [final (?K ?w0)] =>
      assert (emits (fun _ => True) K) as HK by emits_go;
      destruct (HK w0) as (t & Ht & _)
  end.
  exists (Call "prep7" [] [] :: commands t). split; [|intros _; by eexists].
  erewrite issued_app by (rewrite Ht; cbn [trace]; rewrite <- !app_assoc; reflexivity).
  reflexivity.
Qed.

(** C8: every invocation of [pipe_plane_strain] starts with [clear()] and
    then [prep7()].  With [mapdl] bound, [clear] is the first call issued,
    and [prep7] the second if the solver accepts the [clear]; whatever is
    issued is an initial part of a sequence that begins with these two and
    has no other [clear] or [prep7], and an invocation that returns has
    issued the whole sequence.  The sequence depends on the arguments and
    on the global [rad1] only, not on the solver state, the transcript or
    the rest of the namespace the invocation starts from: two invocations
    with equal arguments and equal [rad1] that return have issued the same
    commands.  Against a library that does not raise, with [mapdl] and
    [rad1] bound, the invocation returns. *)
Theorem pipe_plane_strain_resets_first
    e nu inn_radius out_radius press AESIZE w1 w2 :
  let run := pipe_plane_strain e nu inn_radius out_radius press AESIZE in
  let calls := pipe_calls e nu inn_radius out_radius press AESIZE in
  globals w1 !! "rad1" = globals w2 !! "rad1" ->
  (exists rest,
     calls (rad1_of w1) = Call "clear" [] [] :: Call "prep7" [] [] :: rest /\
     Forall (fun c => meth c <> "clear" /\ meth c <> "prep7") rest) /\
  issued w1 (final (run w1)) `prefix_of` calls (rad1_of w1) /\
  issued w2 (final (run w2)) `prefix_of` calls (rad1_of w1) /\
  (has_mapdl w1 ->
   exists rest,
     issued w1 (final (run w1)) = Call "clear" [] [] :: rest /\
     ((command (Call "clear" [] []) (remote w1)).1 = None ->
      exists rest', rest = Call "prep7" [] [] :: rest')) /\
  (forall o1 u1, run w1 = Ok o1 u1 -> issued w1 u1 = calls (rad1_of w1)) /\
  (forall o2 u2, run w2 = Ok o2 u2 -> issued w2 u2 = calls (rad1_of w1)) /\
  (forall o1 u1 o2 u2,
     run w1 = Ok o1 u1 -> run w2 = Ok o2 u2 -> issued w1 u1 = issued w2 u2) /\
  (Reliable -> has_mapdl w1 -> is_Some (globals w1 !! "rad1") ->
   exists o1 u1, run w1 = Ok o1 u1).
Proof.
  intros run calls Hr.
  destruct (pipe_plane_strain_issued e nu inn_radius out_radius press AESIZE w1)
    as [Hp1 H1].
  destruct (pipe_plane_strain_issued e nu inn_radius out_radius press AESIZE w2)
    as [Hp2 H2].
  assert (rad1_of w2 = rad1_of w1) as Heq by (unfold rad1_of; by rewrite Hr).
  rewrite Heq in Hp2, H2.
  split; [|split; [done|split; [done|split; [|split; [|split; [|split]]]]]].
  - eexists. split; [reflexivity|]. repeat constructor; done.
  - apply pipe_plane_strain_opens.
  - exact H1.
  - exact H2.
  - intros o1 u1 o2 u2 Ho1 Ho2. by rewrite (H1 _ _ Ho1), (H2 _ _ Ho2).
  - intros HR Hm Hs.
    destruct (pipe_plane_strain_returns e nu inn_radius out_radius press AESIZE
                w1 HR Hm Hs) as (d & s & u & Hrun).
    by exists (d, s), u.
Qed.

(** C1: the convergence study invokes [pipe_plane_strain] once for each of
    the 20 element sizes of [np.logspace(1.4, 0, 20)], in their order, with
    the study's parameters.  When the study returns, the library calls it
    made are those of the 20 invocations one after the other, and the lists
    [num_dof] and [max_stress] hold, entry by entry, the two outputs of the
    invocations; both have length 20.  Against a library that does not
    raise, with [mapdl] bound, the study returns. *)
Theorem convergence_study_collects w :
  length esizes = 20 /\
  (Reliable -> has_mapdl w -> exists w', convergence_study w = Ok tt w') /\
  forall w', convergence_study w = Ok tt w' ->
    exists w0 outs,
      study_parameters w = Ok tt w0 /\
      invocations w0 esizes outs w' /\
      length outs = 20 /\
      globals w' !! "num_dof" = Some (VList (map (fun o => VInt o.1) outs)) /\
      globals w' !! "max_stress" = Some (VList (map (fun o => VFloat o.2) outs)) /\
      issued w w' = flat_map study_calls esizes.
Proof.
  split; [reflexivity|]. split; [apply convergence_study_returns|].
  intros w' Hrun.
  destruct (convergence_study_run w w' Hrun)
    as (w0 & outs & t & Hp & Hinv & Hd & Hs & Ht & Hc & _).
  exists w0, outs. repeat split; try done.
  - by rewrite (invocations_length _ _ _ _ Hinv).
  - by rewrite (issued_app _ _ _ Ht).
Qed.

(** ** The plate geometry *)

Lemma scripted_issued {A} P (m : M A) cs Q w :
  scripted P m cs Q -> P (globals w) ->
  issued w (final (m w)) `prefix_of` cs /\
  (forall a w', m w = Ok a w' -> issued w w' = cs /\ Q a (globals w')) /\
  (Reliable -> exists a w', m w = Ok a w').
Proof.
  intros Hm HP. destruct (Hm w HP) as (t & Ht & H).
  rewrite (issued_app _ _ _ Ht).
  destruct (m w) as [a w1|ex w1]; cbn [final] in *.
  - destruct H as (<- & _ & HQ). split; [done|]. split; [|by eauto].
    intros ? ? [= <- <-]. by rewrite (issued_app _ _ _ Ht).
  - destruct H as (Hp & _ & Hn). split; [done|]. split; [intros ? ? [=]|].
    intros HR. by destruct Hn.
Qed.






(** ** Sessions *)

Lemma scripted_bracketed (m : M unit) mid :
  forallb inner mid = true ->
  scripted (fun _ => True) m (launch_call :: mid ++ [exit_call]) (fun _ _ => True) ->
  bracketed m mid.
Proof.
  intros Hin Hm. split; [done|]. intros w.
  destruct (scripted_issued _ _ _ _ w Hm I) as (Hpre & Hok & Hret).
  split; [done|]. split.
  - intros w' Hrun. by destruct (Hok tt w' Hrun).
  - intros HR. destruct (Hret HR) as ([] & w' & Hrun). by exists w'.
Qed.

(** C7: in each of the two notebooks the library calls of a run are an
    initial part of: [launch_mapdl()] first, then calls that are neither a
    launch nor an exit, then [mapdl.exit()] last.  So nothing is issued
    before the launch or after the exit, and neither occurs twice.  A run
    that returns has issued all of it: one launch, first, and one exit,
    last; against a reliable library the run returns. *)
Theorem sessions_bracketed :
  bracketed pipe_notebook pipe_session_inner /\
  bracketed plate_notebook plate_session_inner.
Proof.
  split; (apply scripted_bracketed; [vm_compute; reflexivity|]).
  - eapply scripted_close; [apply pipe_notebook_scripted| |done].
    vm_compute. reflexivity.
  - eapply scripted_close; [apply plate_notebook_scripted| |done].
    vm_compute. reflexivity.
Qed.

(** ** Exceptions *)

Lemma raising_not_quiet pre c ex post : ~ quiet (pre ++ Cmd c (Raises ex) :: post).
Proof.
  intros H. apply Forall_app in H as [_ H]. apply Forall_cons in H as [H _].
  discriminate.
Qed.

Lemma halted_uncaught {A} w (o : outcome A) t :
  trace (final o) = trace w ++ t ->
  match o with Ok _ _ => quiet t | Raised ex _ => halted t ex end ->
  forall pre c ex post,
    trace (final o) = trace w ++ pre ++ Cmd c (Raises ex) :: post ->
    post = [] /\ quiet pre /\ exists w', o = Raised ex w'.
Proof.
  intros Ht Ho pre c ex post Heq. rewrite Ht in Heq.
  apply app_inv_head in Heq. subst t.
  destruct o as [a w1|ex1 w1].
  { by apply raising_not_quiet in Ho. }
  destruct Ho as [Ho|(pre1 & c1 & Heq & Hq)].
  { by apply raising_not_quiet in Ho. }
  destruct post as [|ev post _] using rev_ind.
  - change (pre ++ [Cmd c (Raises ex)] = pre1 ++ [Cmd c1 (Raises ex1)]) in Heq.
    apply app_inj_tail in Heq as [-> [= -> ->]]. eauto.
  - change (pre ++ Cmd c (Raises ex) :: post ++ [ev])
      with (pre ++ (Cmd c (Raises ex) :: post) ++ [ev]) in Heq.
    rewrite app_assoc in Heq. apply app_inj_tail in Heq as [<- _].
    by apply raising_not_quiet in Hq.
Qed.

Lemma scripted_uncaught {A} (m : M A) cs Q :
  scripted (fun _ => True) m cs Q -> uncaught m.
Proof.
  intros Hm w. destruct (Hm w I) as (t & Ht & H).
  apply (halted_uncaught w (m w) t Ht).
  destruct (m w); [tauto|]. tauto.
Qed.

Lemma convergence_study_halts w :
  exists t, trace (final (convergence_study w)) = trace w ++ t /\
    match convergence_study w with
    | Ok _ _ => quiet t
    | Raised ex _ => halted t ex
    end.
Proof.
  destruct (has_mapdl_dec w) as [Hm|Hm].
  { destruct (convergence_study_scripted w Hm) as (t & Ht & H).
    exists t. split; [done|]. destruct (convergence_study w); tauto. }
  destruct (study_parameters_run w) as (w0 & Hpar & Henv & Hes & Hm0 & _ & Ht0).
  pose proof (pipe_plane_strain_run (VFloat 2e5) (VFloat 0.3) (VInt 175)
                (VInt 200) (VInt 100) (VPow10 (Qred 1.4))
                (bound "esize" (VPow10 (Qred 1.4)) w0)) as Hp.
  destruct (pipe_plane_strain _ _ _ _ _ _ _) as [[d s] w1|ex w1] eqn:Hcall.
  { destruct Hp as (_ & _ & _ & Hm1 & _). destruct Hm.
    unfold has_mapdl in *. by rewrite lookup_bound_ne, Hm0 in Hm1. }
  destruct Hp as (_ & t & Ht & _ & Hh).
  assert (convergence_study w = Raised ex w1) as ->.
  { unfold convergence_study. rewrite bind_run, Hpar.
    rewrite study_loop_unfold by done.
    change esizes with (VPow10 (Qred 1.4) :: tail esizes).
    cbn [for_in]. step_assign. rewrite bind_run. unfold sweep_body at 1.
    by rewrite bind_run, (sweep_call_run [] []), Hcall. }
  exists t. split; [|done]. cbn [final trace bound] in *. by rewrite <- Ht0.
Qed.

(** C6: neither [pipe_plane_strain] nor the convergence study loop nor the
    notebook around them handles an exception.  In every run of each, a
    library call that raised is the last entry added to the transcript,
    every call before it returned, and the run itself ended in that same
    exception: no further call is made. *)
Theorem exceptions_propagate :
  (forall e nu inn_radius out_radius press AESIZE,
     uncaught (pipe_plane_strain e nu inn_radius out_radius press AESIZE)) /\
  uncaught convergence_study /\
  uncaught pipe_notebook.
Proof.
  split; [|split].
  - intros e nu inn_radius out_radius press AESIZE w.
    pose proof (pipe_plane_strain_run e nu inn_radius out_radius press AESIZE w)
      as (_ & t & Ht & H).
    apply (halted_uncaught w _ t Ht).
    destruct (pipe_plane_strain _ _ _ _ _ _ w) as [[d s] w1|ex w1]; [|tauto].
    destruct H as (_ & r & x & xs & ids & _ & -> & _).
    apply quiet_app; [apply quiet_done|by repeat constructor].
  - intros w. destruct (convergence_study_halts w) as (t & Ht & H).
    by apply (halted_uncaught w _ t Ht).
  - apply (scripted_uncaught _ _ _ pipe_notebook_scripted).
Qed.

End Claims.

(** ** The recorded convergence output *)

(** C5 as stated fails.  Run against a solver that reports the recorded
    values, the study collects exactly the recorded peak stresses, and these
    are not monotone: the second value, 725.72 MPa, is followed by
    725.63 MPa. *)
Lemma recorded_stress_not_monotone :
  globals (final (convergence_study replaying_start)) !! "max_stress"
    = Some (VList (map VFloat recorded_stress)) /\
  nondecreasing recorded_stress = false /\
  exists a b, recorded_stress !! 1 = Some a /\ recorded_stress !! 2 = Some b /\
              (b < a)%Q.
Proof.
  split; [vm_compute; reflexivity|].
  split; [reflexivity|]. exists 725.72%Q, 725.63%Q. by repeat split.
Qed.

(** C5, amended: the 20 recorded peak stresses go with 20 strictly
    increasing DOF counts; they are what the study collects from a solver
    that reports the recorded values.  They rise from 702.42 MPa to
    748.40 MPa with every value between these two; they fall at five steps,
    never by more than 0.09 MPa, and from the ninth value on they are
    strictly increasing. *)
Theorem recorded_stress_rises_overall :
  let w' := final (convergence_study replaying_start) in
  globals w' !! "num_dof" = Some (VList (map VInt recorded_dof)) /\
  globals w' !! "max_stress" = Some (VList (map VFloat recorded_stress)) /\
  length recorded_stress = 20 /\ length recorded_dof = 20 /\
  increasing (map inject_Z recorded_dof) = true /\
  head recorded_stress = Some 702.42%Q /\
  last recorded_stress = Some 748.40%Q /\
  within 702.42 748.40 recorded_stress = true /\
  descents recorded_stress = 5 /\
  rising 0.09 recorded_stress = true /\
  increasing (drop 8 recorded_stress) = true.
Proof.
  intros w'. split; [vm_compute; reflexivity|].
  split; [vm_compute; reflexivity|]. by repeat split.
Qed.

(** * Further properties of the pipe cross section *)

Section Invocation.

Context {L : Library}.
Implicit Types (w : world) (t : list event) (c : call).

Lemma drive_accepts cs s :
  accepts cs -> exists s', drive cs s = (map done cs, s', None).
Proof.
  revert s. induction cs as [|c cs IH]; intros s Hc; simpl.
  - by exists s.
  - pose proof (Hc c s (or_introl eq_refl)) as H.
    destruct (command c s) as [r s1]. simpl in H. subst r.
    destruct (IH s1) as (s2 & ->); [|by exists s2].
    intros c' s' Hin. apply Hc. by right.
Qed.

Lemma accepts_all cs : (forall c s, (command c s).1 = None) -> accepts cs.
Proof. intros H c s _. apply H. Qed.

(** X2: called in a kernel where [mapdl] is not bound, [pipe_plane_strain]
    raises [NameError] at its first statement; where [mapdl] is [None], it
    raises [AttributeError] there.  Either way nothing has been sent to the
    solver: the world is the one the call started from. *)
Theorem pipe_plane_strain_needs_session
    e nu inn_radius out_radius press AESIZE w :
  let run := pipe_plane_strain e nu inn_radius out_radius press AESIZE in
  (globals w !! "mapdl" = None -> run w = Raised (NameError "mapdl") w) /\
  (globals w !! "mapdl" = Some VNone ->
   run w = Raised (AttributeError "clear") w).
Proof.
  intros run. unfold run, pipe_plane_strain.
  split; intros Hm; rewrite bind_run;
    unfold mapdl at 1, mapdl_with, call_on; rewrite bind_run;
    unfold name; by rewrite Hm.
Qed.

(** X3: called with [mapdl] bound and the global [rad1] unbound,
    [pipe_plane_strain] never returns, and it issues nothing beyond the 17
    commands that come before the line selection.  If the solver accepts
    these, the call has built and meshed the cross section and then raises
    [NameError] for [rad1]: no line is selected and nothing is solved. *)
Theorem pipe_plane_strain_unbound_rad1
    e nu inn_radius out_radius press AESIZE w :
  has_mapdl w -> globals w !! "rad1" = None ->
  let o := pipe_plane_strain e nu inn_radius out_radius press AESIZE w in
  let head := pipe_head e nu inn_radius out_radius AESIZE in
  (forall r w', o <> Ok r w') /\
  issued w (final o) `prefix_of` head /\
  (accepts head ->
   exists w', o = Raised (NameError "rad1") w' /\
              issued w w' = head /\ globals w' = globals w).
Proof.
  intros Hm Hr o head. subst o.
  rewrite pipe_plane_strain_chain, chain_run by done. fold head.
  destruct (drive head (remote w)) as [[t1 s1] [ex|]] eqn:Hd.
  - pose proof Hd as (pre & c & post & Hcs & ->)%drive_raised.
    split; [done|]. split.
    + cbn [final]. erewrite issued_app by reflexivity.
      rewrite commands_app, commands_done, Hcs. cbn [commands].
      exists post. by rewrite <- app_assoc.
    + intros Hacc. destruct (drive_accepts head (remote w) Hacc) as (s' & Hd').
      congruence.
  - apply drive_done in Hd as ->.
    rewrite bind_run, lsel_run by done. cbn [globals]. rewrite Hr.
    split; [done|]. cbn [final].
    erewrite issued_app by reflexivity. rewrite commands_done.
    split; [done|]. intros _. eexists. split; [reflexivity|].
    erewrite issued_app by reflexivity. by rewrite commands_done.
Qed.

(** X4: if the solver accepts every command and reports an empty array of
    nodal stresses, [pipe_plane_strain] raises the [ValueError] of
    [np.max] on an empty array.  It has then issued all 31 commands and the
    stress query, and it does not go on to ask for the node numbers. *)
Theorem pipe_plane_strain_empty_stress
    e nu inn_radius out_radius press AESIZE w r :
  has_mapdl w -> globals w !! "rad1" = Some r ->
  (forall c s, (command c s).1 = None) ->
  (forall s, (nodal_eqv_stress_query s).1 = inl []) ->
  exists w',
    pipe_plane_strain e nu inn_radius out_radius press AESIZE w =
      Raised (ValueError "zero-size array to reduction operation maximum") w' /\
    issued w w' =
      pipe_commands e nu inn_radius out_radius press AESIZE r ++
      [nodal_eqv_stress_call] /\
    globals w' = globals w.
Proof.
  intros Hm Hr Hc Hs. rewrite pipe_plane_strain_chain, chain_run by done.
  destruct (drive_accepts (pipe_head e nu inn_radius out_radius AESIZE)
              (remote w) (accepts_all _ Hc)) as (s1 & ->).
  rewrite bind_run, lsel_run by done. cbn [globals]. rewrite Hr.
  rewrite mapdl_run by done. cbn [remote globals trace].
  pose proof (Hc (Call "lsel" [S_ "S"; S_ "RADIUS"] [("vmin", r)]) s1) as Hl.
  destruct (command _ s1) as [o s2]. simpl in Hl. subst o.
  rewrite chain_run by done. cbn [remote globals trace].
  destruct (drive_accepts (pipe_tail press) s2 (accepts_all _ Hc)) as (s3 & ->).
  rewrite bind_run, mapdl_nodal_eqv_stress_run by done.
  unfold ask_nodal_eqv_stress. cbn [remote globals trace].
  specialize (Hs s3). destruct (nodal_eqv_stress_query s3) as [o s4].
  simpl in Hs. subst o. rewrite bind_run. cbn [np_max].
  eexists. split; [reflexivity|]. split; [|reflexivity].
  erewrite issued_app.
  2: { unfold log, moved. cbn [trace]. rewrite <- !app_assoc. reflexivity. }
  rewrite !commands_app, !commands_done. cbn [commands].
  unfold pipe_commands, pipe_lsel. by rewrite <- !app_assoc.
Qed.

End Invocation.

Section Footprint.

Context {L : Library}.
Implicit Types (w : world) (t : list event) (c : call).

Lemma pipe_plane_strain_silent e nu inn_radius out_radius press AESIZE :
  emits is_cmd (pipe_plane_strain e nu inn_radius out_radius press AESIZE).
Proof. unfold pipe_plane_strain. cbv zeta. emits_go. Qed.

Lemma plot_convergence_displays : emits is_show plot_convergence.
Proof. emits_go. Qed.


End Footprint.

(** * Further properties of the convergence study *)

Section Progress.

Context {L : Library}.
Implicit Types (w : world) (t : list event) (c : call).

Lemma sweep_env_esize ds ss x w :
  sweep_env ds ss w -> sweep_env ds ss (bound "esize" x w).
Proof.
  unfold sweep_env, sweep_names. cbn [globals bound]. intros H.
  repeat split; rewrite lookup_insert_ne by done; tauto.
Qed.

(** The loop keeps the two lists in step, whether it runs to its end or
    is cut short: they hold what the completed invocations returned. *)
Lemma study_loop_progress xs : forall outs0 w,
  sweep_env (map (fun o => VInt o.1) outs0) (map (fun o => VFloat o.2) outs0) w ->
  let o := for_in "esize" xs sweep_body w in
  exists outs t w1,
    invocations w (take (length outs) xs) outs w1 /\
    match o with
    | Ok _ w' => w' = w1
    | Raised ex w' =>
        exists x, xs !! length outs = Some x /\
          pipe_plane_strain (VFloat 2e5) (VFloat 0.3) (VInt 175) (VInt 200)
            (VInt 100) x (bound "esize" x w1) = Raised ex w'
    end /\
    sweep_env (map (fun o => VInt o.1) (outs0 ++ outs))
              (map (fun o => VFloat o.2) (outs0 ++ outs)) (final o) /\
    trace (final o) = trace w ++ t /\
    displayed t = map (fun o => print_call o.1 o.2) outs /\
    flat_map study_calls (take (length outs) xs) `prefix_of` commands t /\
    (length outs <= length xs)%nat /\
    (length outs = length xs <-> exists w', o = Ok tt w').
Proof.
  induction xs as [|x xs IH]; intros outs0 w Henv.
  - exists [], [], w. cbn [for_in]. unmonad. cbn [final]. rewrite !app_nil_r.
    split; [constructor|]. split; [done|].
    split; [exact Henv|]. repeat split; try done. intros _. by exists w.
  - cbn [for_in].
    assert (
      (assign "esize" x ;; sweep_body ;; for_in "esize" xs sweep_body) w =
      match pipe_plane_strain (VFloat 2e5) (VFloat 0.3) (VInt 175) (VInt 200)
              (VInt 100) x (bound "esize" x w) with
      | Ok r w1 =>
          match sweep_record r w1 with
          | Ok _ w2 => for_in "esize" xs sweep_body w2
          | Raised ex w2 => Raised ex w2
          end
      | Raised ex w1 => Raised ex w1
      end) as Hstep.
    { step_assign. rewrite bind_run. unfold sweep_body at 1.
      rewrite bind_run, (sweep_call_run _ _ x w Henv).
      by destruct (pipe_plane_strain _ _ _ _ _ _ _). }
    rewrite Hstep. clear Hstep.
    pose proof (pipe_plane_strain_run (VFloat 2e5) (VFloat 0.3) (VInt 175)
                  (VInt 200) (VInt 100) x (bound "esize" x w)) as Hp.
    destruct (pipe_plane_strain_silent (VFloat 2e5) (VFloat 0.3) (VInt 175)
                (VInt 200) (VInt 100) x (bound "esize" x w)) as (t0 & Ht0 & Hs0).
    destruct (pipe_plane_strain _ _ _ _ _ _ _) as [[d s] w1|ex w1] eqn:Hcall.
    + destruct Hp as (Hg & t1 & Ht1 & _ & r & y & ys & ids & Hr & -> & _ & _).
      cbn [final] in Hg, Ht1.
      assert (r = VInt 175) as ->.
      { destruct Henv as (_ & _ & H1 & _).
        rewrite lookup_bound_ne, H1 in Hr by done. congruence. }
      pose proof (sweep_env_esize _ _ x w Henv) as Henv1.
      destruct Henv1 as (He & Hnu & H1 & H2 & Hpr & Hd & Hs).
      rewrite <- Hg in Hd, Hs.
      pose proof (sweep_record_run d s _ _ w1 Hd Hs) as Hrec. rewrite Hrec.
      edestruct (IH (outs0 ++ [(d, s)]))
        as (outs & t2 & w3 & Hinv & Hend & Henv2 & Ht2 & Hsh & Hpre & Hle & Hiff).
      { rewrite !map_app. cbn [map fst snd].
        eapply sweep_env_next; [exact Henv|exact Hg]. }
      cbv zeta in *.
      exists ((d, s) :: outs). eexists. exists w3.
      split; [|split; [|split; [|split; [|split; [|split; [|split]]]]]].
      * cbn [length take]. econstructor; [exact Hcall|exact Hrec|exact Hinv].
      * exact Hend.
      * rewrite <- !app_assoc in Henv2. exact Henv2.
      * rewrite Ht2. cbn [trace]. rewrite Ht1. cbn [trace bound].
        rewrite <- !app_assoc. reflexivity.
      * rewrite !displayed_app, displayed_done, Hsh. reflexivity.
      * rewrite !commands_app, commands_done. cbn [commands length take flat_map].
        unfold study_calls at 1, pipe_calls. rewrite <- !app_assoc.
        apply prefix_app, prefix_cons, prefix_cons. exact Hpre.
      * cbn [length]. lia.
      * cbn [length]. rewrite <- Hiff. lia.
    + destruct Hp as (Hg & _). cbn [final] in *.
      exists [], t0, w. rewrite app_nil_r.
      split; [|split; [|split; [|split; [|split; [|split; [|split]]]]]].
      * constructor.
      * exists x. by split.
      * unfold sweep_env. rewrite Hg. by apply sweep_env_esize.
      * exact Ht0.
      * by rewrite (displayed_cmds _ Hs0).
      * apply prefix_nil.
      * cbn [length]. lia.
      * cbn [length]. split; [lia|]. by intros [? [=]].
Qed.

(** X5: however the convergence study ends, the lists [num_dof] and
    [max_stress] are in step, and they hold what the calls returned: there
    are [outs], the pairs returned by the invocations of
    [pipe_plane_strain] that were completed, one for each of the first
    element sizes in order, at most 20, each stored by the two [append]s
    before the next invocation started.  The study ends either in the
    world these invocations lead to, or in the exception that the
    invocation for the next element size raised from there.  At the end
    [num_dof] holds the first components of [outs] and [max_stress] the
    second ones, one line was printed for each pair, showing its two
    values, and the library calls of these invocations were all made.  The
    lists have 20 entries exactly when the study returned. *)
Theorem study_results_stay_in_step w :
  let o := convergence_study w in
  exists (outs : list (Z * Q)) w0 w1,
    study_parameters w = Ok tt w0 /\
    invocations w0 (take (length outs) esizes) outs w1 /\
    match o with
    | Ok _ w' => w' = w1
    | Raised ex w' =>
        exists x, esizes !! length outs = Some x /\
          pipe_plane_strain (VFloat 2e5) (VFloat 0.3) (VInt 175) (VInt 200)
            (VInt 100) x (bound "esize" x w1) = Raised ex w'
    end /\
    globals (final o) !! "num_dof" = Some (dof_list outs) /\
    globals (final o) !! "max_stress" = Some (stress_list outs) /\
    shown w (final o) = map (fun r => print_call r.1 r.2) outs /\
    flat_map study_calls (take (length outs) esizes)
      `prefix_of` issued w (final o) /\
    (length outs <= 20)%nat /\
    (length outs = 20%nat <-> exists w', o = Ok tt w').
Proof.
  intros o. subst o. unfold convergence_study. rewrite bind_run.
  destruct (study_parameters_run w) as (w0 & Hpar & Henv & Hes & _ & _ & Ht).
  rewrite Hpar. rewrite study_loop_unfold by done.
  destruct (study_loop_progress esizes [] w0 Henv)
    as (outs & t & w1 & Hinv & Hend & Henv' & Ht' & Hsh & Hpre & Hle & Hiff).
  cbv zeta in *. rewrite Ht in Ht'. exists outs, w0, w1.
  destruct Henv' as (_ & _ & _ & _ & _ & Hd & Hs).
  split; [done|]. split; [done|]. split; [exact Hend|].
  repeat split; try done.
  - by rewrite (shown_app _ _ _ Ht').
  - by rewrite (issued_app _ _ _ Ht').
  - apply Hiff.
  - apply Hiff.
Qed.

End Progress.

Section Sizes.

Context {L : Library}.
Implicit Types (w : world) (t : list event) (c : call).

Lemma np_linspace_lookup start stop num i a :
  np_linspace start stop num !! i = Some a ->
  (i < num)%nat /\
  (a == start + inject_Z (Z.of_nat i) *
               ((stop - start) / inject_Z (Z.of_nat num - 1)))%Q.
Proof.
  unfold np_linspace. rewrite list_lookup_fmap.
  destruct (seq 0 num !! i) as [k|] eqn:Hk; [|done].
  apply lookup_seq in Hk as [-> Hi]. intros [= <-].
  split; [done|]. by rewrite Qred_correct.
Qed.

(** Samples from a larger to a smaller end point decrease. *)
Lemma np_linspace_decreasing start stop num :
  (stop < start)%Q -> decreasing (np_linspace start stop num).
Proof.
  intros Hlt i a b Ha Hb.
  apply np_linspace_lookup in Ha as [Hi Ha].
  apply np_linspace_lookup in Hb as [Hi' Hb].
  set (step := ((stop - start) / inject_Z (Z.of_nat num - 1))%Q) in *.
  assert (step < 0)%Q as Hstep.
  { unfold step. apply Qlt_shift_div_r.
    - change 0%Q with (inject_Z 0). rewrite <- Zlt_Qlt. lia.
    - lra. }
  rewrite Ha, Hb. rewrite Nat2Z.inj_succ, <- Z.add_1_r, inject_Z_plus.
  change (inject_Z 1) with 1%Q. lra.
Qed.
Lemma aesize_sizes_app cs1 cs2 :
  aesize_sizes (cs1 ++ cs2) = aesize_sizes cs1 ++ aesize_sizes cs2.
Proof. apply flat_map_app. Qed.

Lemma aesize_sizes_study xs : aesize_sizes (flat_map study_calls xs) = xs.
Proof.
  induction xs as [|x xs IH]; [done|]. cbn [flat_map].
  rewrite aesize_sizes_app, IH. reflexivity.
Qed.

(** X8: the study refines the mesh from one invocation to the next.  The
    element sizes passed to [aesize] by a study that returns are, in the
    order of the invocations, [10 ** y] for 20 exponents [y] that decrease
    strictly from 1.4 to 0. *)
Theorem study_refines_the_mesh w w' :
  convergence_study w = Ok tt w' ->
  exists ys,
    aesize_sizes (issued w w') = map VPow10 ys /\
    length ys = 20%nat /\
    ys !! 0%nat = Some (Qred 1.4) /\ ys !! 19%nat = Some 0%Q /\
    decreasing ys.
Proof.
  intros Hrun.
  destruct (convergence_study_run w w' Hrun)
    as (w0 & outs & t & _ & _ & _ & _ & Ht & Hc & _).
  exists (np_linspace 1.4 0 20).
  rewrite (issued_app _ _ _ Ht), Hc, aesize_sizes_study.
  repeat split; try reflexivity. by apply np_linspace_decreasing.
Qed.

(** X15: in the study the line selection does select the inner radius.
    Whatever values the parameters are bound to, a call of
    [pipe_plane_strain] as the loop makes it, if it returns, has created
    the cross section with the value of the global [rad1] as inner radius
    and has selected the lines of that same radius. *)
Theorem sweep_call_radii_agree w r o w' :
  globals w !! "rad1" = Some r ->
  sweep_call w = Ok o w' ->
  pcirc_radii (issued w w') = [r] /\ lsel_radii (issued w w') = [r].
Proof.
  intros Hr Hrun. unfold sweep_call in Hrun.
  rewrite bind_run in Hrun. unfold name at 1 in Hrun.
  destruct (globals w !! "e") as [e|]; [|discriminate]. cbn beta iota in Hrun.
  rewrite bind_run in Hrun. unfold name at 1 in Hrun.
  destruct (globals w !! "nu") as [nu|]; [|discriminate]. cbn beta iota in Hrun.
  rewrite bind_run in Hrun. unfold name at 1 in Hrun.
  rewrite Hr in Hrun. cbn beta iota in Hrun.
  rewrite bind_run in Hrun. unfold name at 1 in Hrun.
  destruct (globals w !! "rad2") as [rad2|]; [|discriminate].
  cbn beta iota in Hrun.
  rewrite bind_run in Hrun. unfold name at 1 in Hrun.
  destruct (globals w !! "pressure") as [pressure|]; [|discriminate].
  cbn beta iota in Hrun.
  rewrite bind_run in Hrun. unfold name at 1 in Hrun.
  destruct (globals w !! "esize") as [esize|]; [|discriminate].
  cbn beta iota in Hrun.
  destruct (pipe_plane_strain_issued e nu r rad2 pressure esize w) as [_ Hok].
  rewrite (Hok _ _ Hrun). unfold rad1_of. rewrite Hr. by split.
Qed.

End Sizes.

(** * The convergence plot *)

Section Plot.

Context {L : Library}.
Implicit Types (w : world) (t : list event) (c : call).

Lemma nth_error_at_last {A} (l : list A) d :
  l <> [] -> nth_error l (length l - 1) = Some (List.last l d).
Proof.
  intros Hl. destruct (exists_last Hl) as (l' & a & ->).
  rewrite last_last, length_app, nth_error_app2 by (simpl; lia).
  simpl. by replace (_ - _)%nat with 0%nat by lia.
Qed.

Lemma subscript_first l w :
  l <> [] -> subscript (VList l) 0 w = Ok (hd VNone l) w.
Proof. destruct l as [|a l]; [done|]. intros _. reflexivity. Qed.

Lemma subscript_last l w :
  l <> [] -> subscript (VList l) (-1) w = Ok (List.last l VNone) w.
Proof.
  intros Hl. unfold subscript, items. unmonad.
  change (-1 <? 0)%Z with true. cbn iota.
  assert (0 < length l)%nat by (destruct l; [done|simpl; lia]).
  replace ((0 <=? Z.of_nat (length l) + -1)%Z &&
           (Z.of_nat (length l) + -1 <? Z.of_nat (length l))%Z) with true.
  2: { symmetry. apply andb_true_iff.
       split; [apply Z.leb_le|apply Z.ltb_lt]; lia. }
  replace (Z.to_nat (Z.of_nat (length l) + -1)) with (length l - 1)%nat by lia.
  by rewrite (nth_error_at_last l VNone Hl).
Qed.

Lemma plot_convergence_run ds ss w :
  globals w !! "num_dof" = Some (VList ds) ->
  globals w !! "max_stress" = Some (VList ss) ->
  ds <> [] -> ss <> [] ->
  plot_convergence w =
    Ok tt (World (globals w) (remote w)
             (trace w ++ map Show (plot_convergence_shows ds ss))).
Proof.
  intros Hd Hs Hds Hss.
  unfold plot_convergence. rewrite bind_run. unfold show at 1. cbn beta iota.
  rewrite bind_run. do 2 step_name. unfold show at 1. cbn beta iota.
  rewrite bind_run. step_name. rewrite bind_run, subscript_first by done.
  cbn beta iota. step_name. rewrite bind_run, subscript_last by done.
  cbn beta iota. step_name. rewrite bind_run, subscript_last by done.
  cbn beta iota. step_name. rewrite bind_run, subscript_last by done.
  cbn beta iota. unfold show, log. unmonad. cbn [globals remote trace].
  by rewrite <- !app_assoc.
Qed.

(** X6: with results to plot, the convergence plot displays the curve of
    [max_stress] over [num_dof] and then a dotted line that is horizontal
    at the last stress value, from the first DOF count to the last.  It
    returns, and it leaves the namespace and the solver as they were. *)
Theorem plot_convergence_reference_line ds ss w :
  globals w !! "num_dof" = Some (VList ds) ->
  globals w !! "max_stress" = Some (VList ss) ->
  ds <> [] -> length ds = length ss ->
  plot_convergence w =
    Ok tt (World (globals w) (remote w)
             (trace w ++ map Show (plot_convergence_shows ds ss))).
Proof.
  intros Hd Hs Hds Hlen. apply plot_convergence_run; try done.
  destruct ss, ds; done.
Qed.

(** X19: the study hands the plot what it needs.  After a convergence
    study that returned, the two lists hold what the 20 invocations of
    [pipe_plane_strain] returned, one for each element size in order:
    [num_dof] their DOF counts and [max_stress] their peak stresses.  The
    plot cell then returns as well: the curve shows the two lists, and the
    dotted line runs from the DOF count returned by the first invocation to
    that returned by the last, at the height of the peak stress returned by
    the last invocation, the one with the finest mesh. *)
Theorem study_then_plot w w1 :
  convergence_study w = Ok tt w1 ->
  exists w0 outs first_out last_out,
    study_parameters w = Ok tt w0 /\
    invocations w0 esizes outs w1 /\
    length outs = 20%nat /\
    head outs = Some first_out /\ last outs = Some last_out /\
    globals w1 !! "num_dof" = Some (dof_list outs) /\
    globals w1 !! "max_stress" = Some (stress_list outs) /\
    exists w2,
      plot_convergence w1 = Ok tt w2 /\
      globals w2 = globals w1 /\ remote w2 = remote w1 /\
      shown w1 w2 =
        [Call "plt.figure" [] [("figsize", VTuple [VInt 8; VInt 6]); ("dpi", VInt 80)];
         Call "plt.plot" [dof_list outs; stress_list outs; S_ "b-o"] [];
         Call "plt.plot"
           [VList [VInt first_out.1; VInt last_out.1];
            VList [VFloat last_out.2; VFloat last_out.2]; S_ "r:"] [];
         Call "plt.title" [S_ "Mesh Convergence Study"] [];
         Call "plt.xlabel" [S_ "Number of DOF"] [];
         Call "plt.ylabel" [S_ "Maximum eqv. Stress (MPa)"] [];
         Call "plt.show" [] []].
Proof.
  intros Hrun.
  destruct (convergence_study_run w w1 Hrun)
    as (w0 & outs & t & Hpar & Hinv & Hd & Hs & _).
  pose proof (invocations_length _ _ _ _ Hinv) as Hlen.
  change (length esizes) with 20%nat in Hlen.
  destruct outs as [|o0 outs]; [done|].
  destruct (exists_last (l:=o0 :: outs)) as (init & o1 & Hlast); [done|].
  assert (forall (f : Z * Q -> pyval),
            List.last (map f (o0 :: outs)) VNone = f o1) as Hl.
  { intros f. rewrite Hlast, map_app. cbn [map]. apply last_last. }
  exists w0, (o0 :: outs), o0, o1.
  split; [done|]. split; [done|]. split; [done|]. split; [done|].
  split; [by rewrite Hlast, last_snoc|].
  split; [done|]. split; [done|].
  eexists. split; [by apply (plot_convergence_run _ _ w1 Hd Hs)|].
  cbn [globals remote]. split; [done|]. split; [done|].
  erewrite shown_app by reflexivity.
  assert (forall cs, displayed (map Show cs) = cs) as ->.
  { induction cs; simpl; by f_equal. }
  unfold plot_convergence_shows, dof_list, stress_list.
  by rewrite !Hl.
Qed.

(** X7: the convergence plot never calls the solver, in whatever namespace
    it runs and however it ends.  With the two result lists still empty, as
    they are when the study has failed in its first invocation, it raises
    [IndexError] at [num_dof[0]], after it has displayed the figure and the
    empty curve. *)
Theorem plot_convergence_without_results w :
  issued w (final (plot_convergence w)) = [] /\
  (globals w !! "num_dof" = Some (VList []) ->
   globals w !! "max_stress" = Some (VList []) ->
   plot_convergence w =
     Raised (IndexError "index out of range")
       (World (globals w) (remote w)
          (trace w ++
           [Show (Call "plt.figure" []
                    [("figsize", VTuple [VInt 8; VInt 6]); ("dpi", VInt 80)]);
            Show (Call "plt.plot" [VList []; VList []; S_ "b-o"] [])]))).
Proof.
  split.
  - destruct (plot_convergence_displays w) as (t & Ht & Hsh).
    by rewrite (issued_app _ _ _ Ht), (commands_shows _ Hsh).
  - intros Hd Hs.
    unfold plot_convergence. rewrite bind_run. unfold show at 1. cbn beta iota.
    rewrite bind_run. do 2 step_name. unfold show at 1. cbn beta iota.
    rewrite bind_run. step_name. unfold log. cbn. by rewrite <- !app_assoc.
Qed.

End Plot.

(** * Runs that fail before the exit *)

Section Exits.

Context {L : Library}.
Implicit Types (w : world) (t : list event) (c : call)
  (P : gmap string pyval -> Prop).

Lemma no_exit_Forall cs :
  no_exit cs = true -> Forall (fun c => meth c <> "exit") cs.
Proof.
  unfold no_exit. rewrite forallb_forall, Forall_forall.
  intros H c Hc%list_elem_of_In Heq. specialize (H c Hc).
  apply negb_true_iff, String.eqb_neq in H. done.
Qed.

Lemma Forall_of_prefix {A} (Q : A -> Prop) (l1 l2 : list A) :
  l1 `prefix_of` l2 -> Forall Q l2 -> Forall Q l1.
Proof. intros [k ->] H. by apply Forall_app in H as [? _]. Qed.

Lemma guarded_scripted P (m : M unit) cs Q :
  scripted P m cs Q -> no_exit cs = true -> exit_guarded P m.
Proof.
  intros Hm Hcs%no_exit_Forall w ex w' HP Hrun.
  destruct (Hm w HP) as (t & Ht & H). rewrite Hrun in Ht, H. cbn [final] in Ht.
  exists t. split; [done|]. left. destruct H as (Hpre & _).
  by eapply Forall_of_prefix.
Qed.

Lemma guarded_bind {A} P (m : M A) (k : A -> M unit) cs Q :
  scripted P m cs Q -> no_exit cs = true ->
  (forall a, exit_guarded (Q a) (k a)) ->
  exit_guarded P (m ≫= k).
Proof.
  intros Hm Hcs%no_exit_Forall Hk w ex w' HP Hrun. rewrite bind_run in Hrun.
  destruct (Hm w HP) as (t1 & Ht1 & H1).
  destruct (m w) as [a w1|ex1 w1]; cbn [final] in Ht1.
  - destruct H1 as (Hc1 & _ & HQ).
    destruct (Hk a w1 ex w' HQ Hrun) as (t2 & Ht2 & H2).
    exists (t1 ++ t2). split; [by rewrite Ht2, Ht1, app_assoc|].
    destruct H2 as [H2|(pre & ->)].
    + left. rewrite commands_app, Hc1. by apply Forall_app.
    + right. exists (t1 ++ pre). by rewrite app_assoc.
  - injection Hrun as -> ->. exists t1. split; [done|]. left.
    destruct H1 as (Hpre & _). by eapply Forall_of_prefix.
Qed.

Lemma guarded_exit P :
  (forall g, P g -> g !! "mapdl" = Some Mapdl) -> exit_guarded P mapdl_exit.
Proof.
  intros Hm w ex w' HP Hrun. unfold mapdl_exit in Hrun.
  rewrite mapdl_run in Hrun by (by apply Hm).
  destruct (command _ _) as [[e|] s]; [|discriminate].
  injection Hrun as -> <-. exists [Cmd exit_call (Raises ex)].
  split; [done|]. right. by exists [].
Qed.

Lemma pipe_notebook_guarded : exit_guarded (fun _ => True) pipe_notebook.
Proof.
  unfold pipe_notebook.
  eapply guarded_bind; [apply pipe_launch_scripted|reflexivity|]. intros [].
  eapply guarded_bind; [apply convergence_study_scripted|by vm_compute|].
  intros [].
  eapply guarded_bind; [apply plot_convergence_scripted|reflexivity|].
  intros [].
  eapply (guarded_bind _ _ _ _ (fun _ => study_names 20));
    [eapply scripted_close; [unfold plot_mesh; script_go|reflexivity|done]
    |reflexivity|]. intros [].
  eapply (guarded_bind _ _ _ _ (fun _ => study_names 20));
    [eapply scripted_close; [unfold plot_displacement; script_go|reflexivity|done]
    |reflexivity|]. intros [].
  eapply (guarded_bind _ _ _ _ (fun _ => study_names 20));
    [eapply scripted_close; [unfold plot_stress; script_go|reflexivity|done]
    |reflexivity|]. intros [].
  apply guarded_exit. by intros g [H _].
Qed.

Lemma plate_notebook_guarded : exit_guarded (fun _ => True) plate_notebook.
Proof.
  unfold plate_notebook.
  eapply guarded_bind; [apply plate_parameters_scripted|reflexivity|].
  intros [].
  eapply guarded_bind;
    [by apply plate_geometry_scripted, holes_fit_bound|by vm_compute|].
  intros [].
  eapply guarded_bind; [apply plate_mesh_scripted|reflexivity|]. intros [].
  eapply guarded_bind; [apply plate_loads_scripted|reflexivity|]. intros [].
  eapply guarded_bind; [apply plate_solve_scripted|reflexivity|]. intros [].
  eapply guarded_bind; [apply plate_plot_scripted|reflexivity|]. intros [].
  apply guarded_exit. by intros g [_ H].
Qed.

(** X9: neither notebook exits the solver when it fails.  In a run that
    raised, [mapdl.exit()] has not been issued at all, unless it is the
    [exit] itself that raised, as the last call of the run.  So an
    exception anywhere before the last cell leaves the launched solver
    session open. *)
Theorem failed_runs_do_not_exit :
  exit_only_last pipe_notebook /\ exit_only_last plate_notebook.
Proof.
  split; intros w ex w' Hrun.
  - by apply (pipe_notebook_guarded w ex w' I).
  - by apply (plate_notebook_guarded w ex w' I).
Qed.

End Exits.

(** * Further properties of the plate geometry *)

Section Opening.

Context {L : Library}.
Implicit Types (w : world) (t : list event) (c : call).

Lemma launch_then {A} (k : M A) w :
  (h ← launch_mapdl; assign "mapdl" h ;; k) w =
  match command launch_call (remote w) with
  | (Some ex, s) =>
      Raised ex (World (globals w) s (trace w ++ [Cmd launch_call (Raises ex)]))
  | (None, s) =>
      k (World (<["mapdl" := Mapdl]> (globals w)) s (trace w ++ [done launch_call]))
  end.
Proof.
  unfold launch_mapdl. rewrite !bind_run, issue_run.
  fold launch_call. by destruct (command launch_call (remote w)) as [[ex|] s].
Qed.

Lemma mapdl_with_args_raise m (a : M (list pyval)) kw ex w :
  has_mapdl w -> a w = Raised ex w -> mapdl_with m a kw w = Raised ex w.
Proof.
  intros Hm Ha. unfold mapdl_with, call_on.
  rewrite bind_run, (name_run _ _ _ Hm). cbn beta iota.
  change (is_obj "Mapdl" Mapdl) with true. cbn iota. by rewrite bind_run, Ha.
Qed.

Lemma mapdl_with_run m (a : M (list pyval)) kw av kv w :
  has_mapdl w -> a w = Ok av w -> kw w = Ok kv w ->
  mapdl_with m a kw w = mapdl m av kv w.
Proof.
  intros Hm Ha Hkw. unfold mapdl, mapdl_with, call_on.
  rewrite !bind_run, (name_run _ _ _ Hm). cbn beta iota.
  change (is_obj "Mapdl" Mapdl) with true. cbn iota.
  rewrite !bind_run, Ha. cbn beta iota. rewrite !bind_run, Hkw. by unmonad.
Qed.

(** The run of the geometry cell up to the point where it stops for a
    parameter that is not bound. *)
Lemma plate_geometry_unbound_run w :
  globals w !! "LENGTH" = None ->
  plate_geometry w =
  match command launch_call (remote w) with
  | (Some ex, s) =>
      Raised ex (World (globals w) s (trace w ++ [Cmd launch_call (Raises ex)]))
  | (None, s) =>
      let g := <["mapdl" := Mapdl]> (globals w) in
      match drive [Call "clear" [] []; Call "prep7" [] []] s with
      | (t, s', Some ex) => Raised ex (World g s' (trace w ++ done launch_call :: t))
      | (t, s', None) =>
          Raised (NameError "LENGTH") (World g s' (trace w ++ done launch_call :: t))
      end
  end.
Proof.
  intros Hl. unfold plate_geometry. rewrite launch_then.
  destruct (command launch_call (remote w)) as [[ex|] s0]; [done|].
  match goal with
  | |- context [(mapdl "clear" [] [] ;; mapdl "prep7" [] [] ;; ?k) ?w1] =>
      change ((mapdl "clear" [] [] ;; mapdl "prep7" [] [] ;; k) w1)
        with (chain [Call "clear" [] []; Call "prep7" [] []] k w1)
  end.
  rewrite chain_run by apply lookup_insert_eq. cbn [remote globals trace].
  cbv zeta.
  destruct (drive _ s0) as [[t1 s1] [ex|]]; rewrite <- app_assoc; [done|].
  rewrite bind_run.
  erewrite mapdl_with_args_raise; [reflexivity|apply lookup_insert_eq|].
  rewrite bind_run. unfold name. cbn [globals].
  by rewrite lookup_insert_ne, Hl.
Qed.

(** X10: run in a kernel where the parameters are not bound, the geometry
    cell never returns, and it issues nothing beyond the launch, [clear]
    and [prep7].  If the solver accepts these three, the cell raises
    [NameError] for [LENGTH] with [mapdl] bound to the launched session,
    which it does not exit. *)
Theorem plate_geometry_needs_parameters w :
  globals w !! "LENGTH" = None ->
  let o := plate_geometry w in
  let calls := [launch_call; Call "clear" [] []; Call "prep7" [] []] in
  (forall w', o <> Ok tt w') /\
  issued w (final o) `prefix_of` calls /\
  (accepts calls ->
   exists w', o = Raised (NameError "LENGTH") w' /\
              issued w w' = calls /\
              globals w' = <["mapdl" := Mapdl]> (globals w)).
Proof.
  intros Hl o calls. subst o. rewrite (plate_geometry_unbound_run w Hl).
  destruct (command launch_call (remote w)) as [[ex|] s0] eqn:Hc0.
  { split; [done|]. cbn [final]. split.
    - erewrite issued_app by reflexivity.
      by exists [Call "clear" [] []; Call "prep7" [] []].
    - intros Hacc. specialize (Hacc launch_call (remote w) (or_introl eq_refl)).
      by rewrite Hc0 in Hacc. }
  cbv zeta.
  destruct (drive _ s0) as [[t1 s1] [ex|]] eqn:Hd.
  - pose proof Hd as (pre & c & post & Hcs & ->)%drive_raised.
    split; [done|]. cbn [final]. split.
    + erewrite issued_app by reflexivity.
      cbn [commands]. rewrite commands_app, commands_done. cbn [commands].
      unfold calls. rewrite Hcs. apply prefix_cons. exists post.
      by rewrite <- app_assoc.
    + intros Hacc.
      destruct (drive_accepts [Call "clear" [] []; Call "prep7" [] []] s0)
        as (s' & Hd'); [|congruence].
      intros c' s' Hin. apply Hacc. by right.
  - apply drive_done in Hd as ->.
    split; [done|]. cbn [final]. erewrite issued_app by reflexivity.
    split; [done|]. intros _. eexists. split; [reflexivity|].
    by erewrite issued_app by reflexivity.
Qed.

(** The run of the geometry cell when [NUM] is bound to a float. *)
Lemma plate_geometry_float_run LENGTH WIDTH DEPTH q w :
  globals w !! "LENGTH" = Some LENGTH ->
  globals w !! "WIDTH" = Some WIDTH ->
  globals w !! "DEPTH" = Some DEPTH ->
  globals w !! "NUM" = Some (VFloat q) ->
  plate_geometry w =
  match command launch_call (remote w) with
  | (Some ex, s) =>
      Raised ex (World (globals w) s (trace w ++ [Cmd launch_call (Raises ex)]))
  | (None, s) =>
      let g := <["mapdl" := Mapdl]> (globals w) in
      match drive [Call "clear" [] []; Call "prep7" [] [];
                   Call "block" [VInt 0; LENGTH; VInt 0; WIDTH; VInt 0; DEPTH] []] s
      with
      | (t, s', Some ex) => Raised ex (World g s' (trace w ++ done launch_call :: t))
      | (t, s', None) =>
          Raised (TypeError "range") (World g s' (trace w ++ done launch_call :: t))
      end
  end.
Proof.
  intros Hl Hw Hd Hn. unfold plate_geometry. rewrite launch_then.
  destruct (command launch_call (remote w)) as [[ex|] s0]; [done|].
  cbv zeta. set (w1 := World _ s0 _).
  assert (has_mapdl w1) as Hm by apply lookup_insert_eq.
  assert (forall x v, x <> "mapdl" -> globals w !! x = Some v ->
                      globals w1 !! x = Some v) as Hw1.
  { intros x v Hx Hv. unfold w1. cbn [globals]. by rewrite lookup_insert_ne. }
  match goal with
  | |- (mapdl "clear" [] [] ;; mapdl "prep7" [] [] ;; ?b ;; ?k) w1 = _ =>
      transitivity
        (chain [Call "clear" [] []; Call "prep7" [] []] (b ;; k) w1);
      [reflexivity|]
  end.
  rewrite chain_run by done. simpl drive.
  destruct (command (Call "clear" [] []) s0) as [[ex|] s1];
    [unfold w1; cbn [globals trace]; by rewrite <- app_assoc|].
  destruct (command (Call "prep7" [] []) s1) as [[ex|] s2];
    [unfold w1; cbn [globals trace]; by rewrite <- app_assoc|].
  rewrite bind_run.
  erewrite mapdl_with_run; [|done| |reflexivity].
  2: { cbn [globals]. rewrite bind_run, (name_run "LENGTH" LENGTH) by (by apply Hw1).
       cbn beta iota. rewrite bind_run, (name_run "WIDTH" WIDTH) by (by apply Hw1).
       cbn beta iota. rewrite bind_run, (name_run "DEPTH" DEPTH) by (by apply Hw1).
       reflexivity. }
  rewrite mapdl_run by done. cbn [remote globals trace].
  destruct (command (Call "block" _ _) s2) as [[ex|] s3];
    [unfold w1; cbn [globals trace]; by rewrite <- !app_assoc|].
  cbn beta iota. rewrite !bind_run.
  rewrite (name_run "NUM" (VFloat q)) by (by apply Hw1).
  unfold w1. cbn [globals trace py_add py_range as_int].
  rewrite bind_run, bind_run.
  assert (float_of_int 1 = mret (inject_Z 1)) as -> by reflexivity.
  unmonad. cbn [as_int]. by rewrite <- !app_assoc.
Qed.

(** X13: with a float bound to [NUM], the geometry cell never returns, and
    it issues nothing beyond the launch, [clear], [prep7] and the block.
    If the solver accepts these four, the cell raises the [TypeError] of
    [range] on a float: the block exists and no hole has been cut. *)
Theorem plate_geometry_float_NUM LENGTH WIDTH DEPTH q w :
  globals w !! "LENGTH" = Some LENGTH ->
  globals w !! "WIDTH" = Some WIDTH ->
  globals w !! "DEPTH" = Some DEPTH ->
  globals w !! "NUM" = Some (VFloat q) ->
  let o := plate_geometry w in
  let calls :=
    [launch_call; Call "clear" [] []; Call "prep7" [] [];
     Call "block" [VInt 0; LENGTH; VInt 0; WIDTH; VInt 0; DEPTH] []] in
  (forall w', o <> Ok tt w') /\
  issued w (final o) `prefix_of` calls /\
  (accepts calls ->
   exists w', o = Raised (TypeError "range") w' /\ issued w w' = calls).
Proof.
  intros Hl Hw Hd Hn o calls. subst o.
  rewrite (plate_geometry_float_run LENGTH WIDTH DEPTH q w Hl Hw Hd Hn).
  destruct (command launch_call (remote w)) as [[ex|] s0] eqn:Hc0.
  { split; [done|]. cbn [final]. split.
    - erewrite issued_app by reflexivity. eexists. reflexivity.
    - intros Hacc. specialize (Hacc launch_call (remote w) (or_introl eq_refl)).
      by rewrite Hc0 in Hacc. }
  cbv zeta.
  destruct (drive _ s0) as [[t1 s1] [ex|]] eqn:Hdr.
  - pose proof Hdr as (pre & c & post & Hcs & ->)%drive_raised.
    split; [done|]. cbn [final]. split.
    + erewrite issued_app by reflexivity.
      cbn [commands]. rewrite commands_app, commands_done. cbn [commands].
      unfold calls. rewrite Hcs. apply prefix_cons. exists post.
      by rewrite <- app_assoc.
    + intros Hacc.
      edestruct (drive_accepts) as (s' & Hd'); [|rewrite Hd' in Hdr; discriminate].
      intros c' s' Hin. apply Hacc. by right.
  - apply drive_done in Hdr as ->.
    split; [done|]. cbn [final]. erewrite issued_app by reflexivity.
    split; [done|]. intros _. eexists. split; [reflexivity|].
    by erewrite issued_app by reflexivity.
Qed.

Lemma in_float_range_ge q :
  (inject_Z float_limit <= Qabs q)%Q -> in_float_range q = false.
Proof.
  intros Hq. unfold in_float_range. apply negb_false_iff.
  by apply Qle_bool_iff.
Qed.

(** The first centre of a plate too long for the floats. *)
Lemma first_hole_overflows LENGTH NUM :
  (1 <= NUM)%Z -> (float_limit * (NUM + 1) <= Z.abs LENGTH)%Z ->
  in_float_range (hole_center LENGTH NUM 1) = false.
Proof.
  intros HN Hb. apply in_float_range_ge. unfold hole_center.
  assert (0 < inject_Z (NUM + 1))%Q as Hpos.
  { change 0%Q with (inject_Z 0). rewrite <- Zlt_Qlt. lia. }
  destruct (Z.le_ge_cases 0 LENGTH) as [Hs|Hs].
  - eapply Qle_trans; [|apply Qle_Qabs].
    apply Qle_shift_div_l; [done|].
    rewrite <- inject_Z_mult, <- Zle_Qle. lia.
  - apply Qle_trans with (inject_Z (- LENGTH) / inject_Z (NUM + 1))%Q.
    + apply Qle_shift_div_l; [done|].
      rewrite <- inject_Z_mult, <- Zle_Qle. lia.
    + apply Qle_trans with (- (inject_Z (1 * LENGTH) / inject_Z (NUM + 1)))%Q.
      * apply Qle_lteq. right. rewrite Z.mul_1_l, inject_Z_opp. field.
        intros H. rewrite H in Hpos. by apply Qlt_irrefl in Hpos.
      * assert (forall q : Q, (- q <= Qabs q)%Q) as Hq.
        { intros q. apply Qabs_case; intros; lra. }
        apply Hq.
Qed.

(** The run of the geometry cell when the first centre is out of the range
    of the floats. *)
Lemma plate_geometry_overflow_run LENGTH WIDTH DEPTH RADIUS NUM E NU PRESSURE w :
  plate_env LENGTH WIDTH DEPTH RADIUS NUM E NU PRESSURE (globals w) ->
  (1 <= NUM)%Z ->
  in_float_range (hole_center LENGTH NUM 1) = false ->
  plate_geometry w =
  match command launch_call (remote w) with
  | (Some ex, s) =>
      Raised ex (World (globals w) s (trace w ++ [Cmd launch_call (Raises ex)]))
  | (None, s) =>
      match drive [Call "clear" [] []; Call "prep7" [] [];
                   Call "block" [VInt 0; VInt LENGTH; VInt 0; VFloat WIDTH;
                                 VInt 0; VFloat DEPTH] []] s
      with
      | (t, s', Some ex) =>
          Raised ex (World (<["mapdl" := Mapdl]> (globals w)) s'
                       (trace w ++ done launch_call :: t))
      | (t, s', None) =>
          Raised (OverflowError "integer division result too large for a float")
            (World (<["i" := VInt 1]> (<["mapdl" := Mapdl]> (globals w))) s'
               (trace w ++ done launch_call :: t))
      end
  end.
Proof.
  intros (Hl & Hw & Hd & Hr & Hn & _) HN Hover.
  unfold plate_geometry. rewrite launch_then.
  destruct (command launch_call (remote w)) as [[ex|] s0]; [done|].
  set (w1 := World _ s0 _).
  assert (has_mapdl w1) as Hm by apply lookup_insert_eq.
  assert (forall x v, x <> "mapdl" -> globals w !! x = Some v ->
                      globals w1 !! x = Some v) as Hw1.
  { intros x v Hx Hv. unfold w1. cbn [globals]. by rewrite lookup_insert_ne. }
  match goal with
  | |- (mapdl "clear" [] [] ;; mapdl "prep7" [] [] ;; ?b ;; ?k) w1 = _ =>
      transitivity
        (chain [Call "clear" [] []; Call "prep7" [] []] (b ;; k) w1);
      [reflexivity|]
  end.
  rewrite chain_run by done. simpl drive.
  destruct (command (Call "clear" [] []) s0) as [[ex|] s1];
    [unfold w1; cbn [globals trace]; by rewrite <- app_assoc|].
  destruct (command (Call "prep7" [] []) s1) as [[ex|] s2];
    [unfold w1; cbn [globals trace]; by rewrite <- app_assoc|].
  rewrite bind_run.
  erewrite mapdl_with_run; [|done| |reflexivity].
  2: { cbn [globals].
       rewrite bind_run, (name_run "LENGTH" (VInt LENGTH)) by (by apply Hw1).
       cbn beta iota.
       rewrite bind_run, (name_run "WIDTH" (VFloat WIDTH)) by (by apply Hw1).
       cbn beta iota.
       rewrite bind_run, (name_run "DEPTH" (VFloat DEPTH)) by (by apply Hw1).
       reflexivity. }
  rewrite mapdl_run by done. cbn [remote globals trace].
  destruct (command (Call "block" _ _) s2) as [[ex|] s3];
    [unfold w1; cbn [globals trace]; by rewrite <- !app_assoc|].
  cbn beta iota. rewrite !bind_run.
  rewrite (name_run "NUM" (VInt NUM)) by (by apply Hw1).
  cbn [py_add py_range as_int]. unmonad. cbn [as_int]. cbn beta iota.
  replace (Z.to_nat (NUM + 1 - 1)) with (S (Z.to_nat (NUM - 1))) by lia.
  cbn [seq map for_in]. unmonad. unfold assign at 1. cbn beta iota.
  cbn [globals remote trace].
  match goal with
  | |- context [mapdl_with "cyl4" cyl4_args ?k (World ?g ?s ?t)] =>
      set (w2 := World g s t);
      assert (mapdl_with "cyl4" cyl4_args k w2
              = Raised (OverflowError "integer division result too large for a float") w2)
        as ->
  end.
  { apply mapdl_with_args_raise.
    - unfold has_mapdl, w2, w1. cbn [globals]. by rewrite lookup_insert_ne.
    - unfold cyl4_args.
      rewrite bind_run, (name_run "i" (VInt (1 + Z.of_nat 0))) by apply lookup_insert_eq.
      cbn beta iota.
      rewrite bind_run, (name_run "LENGTH" (VInt LENGTH)).
      2: { unfold w2. cbn [globals]. rewrite lookup_insert_ne by done. by apply Hw1. }
      cbn beta iota. rewrite bind_run. cbn [py_mul as_int]. unmonad.
      rewrite (name_run "NUM" (VInt NUM)).
      2: { unfold w2. cbn [globals]. rewrite lookup_insert_ne by done. by apply Hw1. }
      cbn [py_add as_int]. unmonad. unfold py_truediv at 1. cbn [as_int].
      replace (NUM + 1 =? 0)%Z with false by (symmetry; apply Z.eqb_neq; lia).
      cbv zeta. unfold hole_center in Hover.
      change (1 + Z.of_nat 0)%Z with 1%Z. by rewrite Hover. }
  unfold w2, w1. cbn [globals trace]. by rewrite <- !app_assoc.
Qed.

(** X20: a plate too long for the floats.  With at least one hole and
    [LENGTH] so large that [LENGTH/(NUM+1)] is beyond the largest float,
    the geometry cell never returns, and it issues nothing beyond the
    launch, [clear], [prep7] and the block.  If the solver accepts these
    four, the cell raises the [OverflowError] of the division in the first
    centre [1*LENGTH/(NUM+1)]: the block exists and no hole has been cut. *)
Theorem plate_geometry_overflow
    LENGTH WIDTH DEPTH RADIUS NUM E NU PRESSURE w :
  plate_env LENGTH WIDTH DEPTH RADIUS NUM E NU PRESSURE (globals w) ->
  (1 <= NUM)%Z ->
  (float_limit * (NUM + 1) <= Z.abs LENGTH)%Z ->
  let o := plate_geometry w in
  let calls :=
    [launch_call; Call "clear" [] []; Call "prep7" [] [];
     Call "block" [VInt 0; VInt LENGTH; VInt 0; VFloat WIDTH; VInt 0; VFloat DEPTH] []] in
  (forall w', o <> Ok tt w') /\
  issued w (final o) `prefix_of` calls /\
  (accepts calls ->
   exists w',
     o = Raised (OverflowError "integer division result too large for a float") w' /\
     issued w w' = calls).
Proof.
  intros Henv HN Hb o calls. subst o.
  rewrite (plate_geometry_overflow_run _ _ _ _ _ _ _ _ w Henv HN
             (first_hole_overflows _ _ HN Hb)).
  destruct (command launch_call (remote w)) as [[ex|] s0] eqn:Hc0.
  { split; [done|]. cbn [final]. split.
    - erewrite issued_app by reflexivity. eexists. reflexivity.
    - intros Hacc. specialize (Hacc launch_call (remote w) (or_introl eq_refl)).
      by rewrite Hc0 in Hacc. }
  destruct (drive _ s0) as [[t1 s1] [ex|]] eqn:Hdr.
  - pose proof Hdr as (pre & c & post & Hcs & ->)%drive_raised.
    split; [done|]. cbn [final]. split.
    + erewrite issued_app by reflexivity.
      cbn [commands]. rewrite commands_app, commands_done. cbn [commands].
      unfold calls. rewrite Hcs. apply prefix_cons. exists post.
      by rewrite <- app_assoc.
    + intros Hacc.
      edestruct (drive_accepts) as (s' & Hd'); [|rewrite Hd' in Hdr; discriminate].
      intros c' s' Hin. apply Hacc. by right.
  - apply drive_done in Hdr as ->.
    split; [done|]. cbn [final]. erewrite issued_app by reflexivity.
    split; [done|]. intros _. eexists. split; [reflexivity|].
    by erewrite issued_app by reflexivity.
Qed.

End Opening.

Section Holes.

Context {L : Library}.
Implicit Types (w : world) (t : list event) (c : call).

(** X11: with [NUM] zero or negative the loop of the geometry cell does
    not run: no [cyl4] is issued, and the cell goes on to [vsbv] and
    [vplot] with the bare block.  No Python error is raised on the way, not
    even for [NUM = -1], where the divisor [NUM+1] is zero: against a
    reliable library the cell returns. *)
Theorem plate_geometry_without_holes
    LENGTH WIDTH DEPTH RADIUS NUM E NU PRESSURE w :
  plate_env LENGTH WIDTH DEPTH RADIUS NUM E NU PRESSURE (globals w) ->
  (NUM <= 0)%Z ->
  let calls :=
    [launch_call; Call "clear" [] []; Call "prep7" [] [];
     Call "block" [VInt 0; VInt LENGTH; VInt 0; VFloat WIDTH; VInt 0; VFloat DEPTH] [];
     Call "vsbv" [VInt 1; S_ "all"] []; Call "vplot" [S_ "all"] []] in
  issued w (final (plate_geometry w)) `prefix_of` calls /\
  (forall w', plate_geometry w = Ok tt w' -> issued w w' = calls) /\
  (Reliable -> exists w', plate_geometry w = Ok tt w').
Proof.
  intros Henv HN calls.
  destruct (scripted_issued _ _ _ _ w
              (plate_geometry_scripted LENGTH WIDTH DEPTH RADIUS NUM E NU PRESSURE
                 (holes_fit_none _ _ HN))
              Henv) as (Hpre & Hok & Hret).
  assert (plate_geometry_calls LENGTH WIDTH DEPTH RADIUS NUM = calls) as Hcalls.
  { unfold plate_geometry_calls, holes.
    by replace (Z.to_nat NUM) with 0%nat by lia. }
  rewrite Hcalls in Hpre, Hok. split; [done|]. split.
  - intros w' Hrun. by destruct (Hok tt w' Hrun).
  - intros HR. destruct (Hret HR) as ([] & w' & Hrun). by exists w'.
Qed.

End Holes.

(** * The plate model as a function of its parameters *)

Section Model.

Context {L : Library}.
Implicit Types (w : world) (t : list event) (c : call).



(** X14: each cell of the plate notebook depends on the namespace through
    the names it mentions only.  From the same solver state and transcript,
    two runs of a cell end in the same way whenever their namespaces agree
    on these names: the five geometry parameters for the geometry cell;
    [mapdl], [E] and [NU] for the mesh cell; [mapdl], [LENGTH] and
    [PRESSURE] for the loads; [mapdl] alone for the solve and the plot. *)
Theorem plate_cells_dependencies :
  reads_only ["LENGTH"; "WIDTH"; "DEPTH"; "RADIUS"; "NUM"] plate_geometry
    ["LENGTH"; "WIDTH"; "DEPTH"; "RADIUS"; "NUM"] /\
  reads_only ["mapdl"; "E"; "NU"] plate_mesh ["mapdl"; "E"; "NU"] /\
  reads_only ["mapdl"; "LENGTH"; "PRESSURE"] plate_loads
    ["mapdl"; "LENGTH"; "PRESSURE"] /\
  reads_only ["mapdl"] plate_solve ["mapdl"] /\
  reads_only ["mapdl"] plate_plot ["mapdl"].
Proof.
  split; [|split; [|split; [|split]]].
  - eapply ro_post; [ro_go|]. solve_incl.
  - eapply ro_post; [ro_go|]. solve_incl.
  - eapply ro_post; [ro_go|]. solve_incl.
  - eapply ro_post; [ro_go|]. solve_incl.
  - eapply ro_post; [ro_go|]. solve_incl.
Qed.


(** X17: the plots of the pipe notebook show the model of the finest mesh.
    In a run of the notebook that returns, the calls of the three plot
    cells come directly after those of the last invocation of the study,
    the one with element size [10 ** 0], and only the exit follows them;
    none of the plot calls resets, meshes or solves the model. *)
Theorem plots_follow_the_last_invocation w w' :
  pipe_notebook w = Ok tt w' ->
  exists before,
    issued w w' =
      before ++ study_calls (VPow10 0) ++ pipe_plot_calls ++ [exit_call] /\
    forallb (fun c => negb (rebuilds c)) pipe_plot_calls = true.
Proof.
  intros Hrun.
  destruct (scripted_issued _ _ _ _ w pipe_notebook_scripted I) as (_ & Hok & _).
  destruct (Hok tt w' Hrun) as [-> _].
  exists ([launch_call] ++ flat_map study_calls (removelast esizes)).
  split; [|reflexivity]. unfold pipe_notebook_calls.
  change esizes with (removelast esizes ++ [VPow10 0]) at 1.
  rewrite flat_map_app. cbn [flat_map]. by rewrite app_nil_r, <- !app_assoc.
Qed.

End Model.

(** ** The properties at work on the counting and flaky libraries *)

Lemma counting_reliable : @Reliable counting.
Proof. repeat split; intros; simpl; eauto. Qed.

Lemma convergence_study_collects_witness :
  let w' := final (convergence_study counting_start) in
  exists w0 outs,
    study_parameters counting_start = Ok tt w0 /\
    invocations w0 esizes outs w' /\
    length outs = 20 /\
    globals w' !! "num_dof" = Some (VList (map (fun o => VInt o.1) outs)) /\
    globals w' !! "max_stress" = Some (VList (map (fun o => VFloat o.2) outs)) /\
    issued counting_start w' = flat_map study_calls esizes.
Proof.
  intros w'.
  apply (proj2 (proj2 (convergence_study_collects counting_start))).
  vm_compute. reflexivity.
Defined.

Lemma pipe_plane_strain_results_witness :
  let w' := final (study_run (VPow10 1.4) counting_start) in
  exists t0 arr ids,
    trace w' = trace counting_start ++ t0 ++
      [done (Call "post1" [] []); done (Call "set" [VInt 1; VInt 1] []);
       Cmd nodal_eqv_stress_call (Floats arr); Cmd nnum_all_call (Ints ids)] /\
    8%Z = (2 * Z.of_nat (length ids))%Z /\
    In 31%Q arr /\ Forall (fun y => (y <= 31)%Q) arr.
Proof.
  intros w'.
  apply (proj2 (pipe_plane_strain_results (VFloat 2e5) (VFloat 0.3) (VInt 175)
                  (VInt 200) (VInt 100) (VPow10 1.4) counting_start)).
  vm_compute. reflexivity.
Defined.

Lemma pipe_plane_strain_sequence_witness :
  let w' := final (study_run (VPow10 1.4) counting_start) in
  map meth (issued counting_start w') = pipe_sequence ++ result_queries.
Proof.
  intros w'.
  apply (proj1 (proj2 (pipe_plane_strain_sequence (VFloat 2e5) (VFloat 0.3)
                         (VInt 175) (VInt 200) (VInt 100) (VPow10 1.4)
                         counting_start)) (8%Z, 31%Q) w').
  vm_compute. reflexivity.
Defined.

Lemma pipe_plane_strain_reads_global_rad1_witness :
  issued counting_start (final (study_run (VPow10 1.4) counting_start)) <>
  issued counting_other (final (study_run (VPow10 1.4) counting_other)).
Proof.
  refine (proj1 (proj2 (proj2
    (pipe_plane_strain_reads_global_rad1 (VFloat 2e5) (VFloat 0.3) (VInt 175)
       (VInt 175) (VInt 200) (VInt 100) (VPow10 1.4)
       counting_start counting_other (VInt 175) (VInt 150)
       (8%Z, 31%Q) (12%Z, 38%Q) _ _ _ _ _ _))) eq_refl _);
    try (vm_compute; reflexivity).
  discriminate.
Defined.

Lemma pipe_plane_strain_resets_first_witness :
  let w2 := final (study_run (VPow10 1.4) counting_start) in
  issued counting_start (final (study_run (VPow10 0) counting_start)) =
    pipe_calls (VFloat 2e5) (VFloat 0.3) (VInt 175) (VInt 200) (VInt 100)
      (VPow10 0) (VInt 175) /\
  issued counting_start (final (study_run (VPow10 0) counting_start)) =
    issued w2 (final (study_run (VPow10 0) w2)).
Proof.
  intros w2.
  assert (globals counting_start !! "rad1" = globals w2 !! "rad1") as Hr
    by (vm_compute; reflexivity).
  destruct (pipe_plane_strain_resets_first (VFloat 2e5) (VFloat 0.3) (VInt 175)
              (VInt 200) (VInt 100) (VPow10 0) counting_start w2 Hr)
    as (_ & _ & _ & _ & H1 & _ & H12 & _).
  split.
  - apply (H1 (8%Z, 31%Q)). vm_compute. reflexivity.
  - apply (H12 (8%Z, 31%Q) _ (10%Z, 62%Q)); vm_compute; reflexivity.
Defined.


Lemma sessions_bracketed_witness :
  issued counting_fresh (final (pipe_notebook counting_fresh)) =
    launch_call :: pipe_session_inner ++ [exit_call] /\
  issued counting_fresh (final (plate_notebook counting_fresh)) =
    launch_call :: plate_session_inner ++ [exit_call].
Proof.
  destruct (sessions_bracketed (L:=counting)) as [[_ Hpipe] [_ Hplate]].
  split.
  - apply (proj1 (proj2 (Hpipe counting_fresh))). vm_compute. reflexivity.
  - apply (proj1 (proj2 (Hplate counting_fresh))). vm_compute. reflexivity.
Defined.

(** On the flaky library the third solve of the study raises; the study
    ends there. *)
Lemma exceptions_propagate_witness :
  let o := convergence_study flaky_start in
  let ex := MapdlError "solution not converged" in
  trace (final o) =
    trace flaky_start ++ removelast (trace (final o)) ++
    [Cmd (Call "solve" [] []) (Raises ex)] /\
  quiet (removelast (trace (final o))) /\
  exists w', o = Raised ex w'.
Proof.
  intros o ex.
  assert (trace (final o) =
          trace flaky_start ++ removelast (trace (final o)) ++
          [Cmd (Call "solve" [] []) (Raises ex)]) as Heq
    by (vm_compute; reflexivity).
  split; [exact Heq|].
  exact (proj2 (proj1 (proj2 (exceptions_propagate (L:=flaky)))
                  flaky_start _ _ _ _ Heq)).
Defined.

(** ** The further properties at work *)

Lemma counting_accepts cs : @accepts counting cs.
Proof. by intros c s _. Qed.

Lemma pipe_plane_strain_needs_session_witness :
  study_run (VPow10 1.4) counting_fresh =
    Raised (NameError "mapdl") counting_fresh.
Proof.
  apply (proj1 (pipe_plane_strain_needs_session (VFloat 2e5) (VFloat 0.3)
                  (VInt 175) (VInt 200) (VInt 100) (VPow10 1.4) counting_fresh)).
  reflexivity.
Defined.

Lemma pipe_plane_strain_unbound_rad1_witness :
  exists w', study_run (VPow10 1.4) counting_no_rad1 =
               Raised (NameError "rad1") w' /\
             issued counting_no_rad1 w' =
               pipe_head (VFloat 2e5) (VFloat 0.3) (VInt 175) (VInt 200)
                 (VPow10 1.4) /\
             globals w' = globals counting_no_rad1.
Proof.
  apply (proj2 (proj2 (pipe_plane_strain_unbound_rad1 (VFloat 2e5) (VFloat 0.3)
                         (VInt 175) (VInt 200) (VInt 100) (VPow10 1.4)
                         counting_no_rad1 eq_refl eq_refl))).
  apply counting_accepts.
Defined.

Lemma pipe_plane_strain_empty_stress_witness :
  exists w',
    study_run (VPow10 1.4) hollow_start =
      Raised (ValueError "zero-size array to reduction operation maximum") w' /\
    issued hollow_start w' =
      pipe_commands (VFloat 2e5) (VFloat 0.3) (VInt 175) (VInt 200) (VInt 100)
        (VPow10 1.4) (VInt 175) ++ [nodal_eqv_stress_call] /\
    globals w' = globals hollow_start.
Proof.
  apply (pipe_plane_strain_empty_stress (L:=hollow) (VFloat 2e5) (VFloat 0.3)
           (VInt 175) (VInt 200) (VInt 100) (VPow10 1.4) hollow_start (VInt 175));
    reflexivity.
Defined.

Lemma plot_convergence_reference_line_witness :
  plot_convergence counting_two_results =
    Ok tt (World (globals counting_two_results) (remote counting_two_results)
             (trace counting_two_results ++
              map Show (plot_convergence_shows [VInt 56; VInt 96]
                          [VFloat 702.42; VFloat 725.72]))).
Proof.
  apply (plot_convergence_reference_line [VInt 56; VInt 96]
           [VFloat 702.42; VFloat 725.72] counting_two_results);
    reflexivity || discriminate.
Defined.

Lemma study_then_plot_witness :
  let w1 := final (convergence_study counting_start) in
  exists w0 outs first_out last_out,
    study_parameters counting_start = Ok tt w0 /\
    invocations w0 esizes outs w1 /\
    length outs = 20%nat /\
    head outs = Some first_out /\ last outs = Some last_out /\
    globals w1 !! "num_dof" = Some (dof_list outs) /\
    globals w1 !! "max_stress" = Some (stress_list outs) /\
    exists w2,
      plot_convergence w1 = Ok tt w2 /\
      globals w2 = globals w1 /\ remote w2 = remote w1 /\
      shown w1 w2 =
        [Call "plt.figure" [] [("figsize", VTuple [VInt 8; VInt 6]); ("dpi", VInt 80)];
         Call "plt.plot" [dof_list outs; stress_list outs; S_ "b-o"] [];
         Call "plt.plot"
           [VList [VInt first_out.1; VInt last_out.1];
            VList [VFloat last_out.2; VFloat last_out.2]; S_ "r:"] [];
         Call "plt.title" [S_ "Mesh Convergence Study"] [];
         Call "plt.xlabel" [S_ "Number of DOF"] [];
         Call "plt.ylabel" [S_ "Maximum eqv. Stress (MPa)"] [];
         Call "plt.show" [] []].
Proof.
  intros w1. apply (study_then_plot counting_start w1). vm_compute. reflexivity.
Defined.

Lemma plot_convergence_without_results_witness :
  exists w', plot_convergence counting_no_results =
             Raised (IndexError "index out of range") w'.
Proof.
  eexists.
  apply (proj2 (plot_convergence_without_results counting_no_results));
    reflexivity.
Defined.

Lemma study_refines_the_mesh_witness :
  exists ys,
    aesize_sizes (issued counting_start (final (convergence_study counting_start)))
      = map VPow10 ys /\
    length ys = 20%nat /\
    ys !! 0%nat = Some (Qred 1.4) /\ ys !! 19%nat = Some 0%Q /\
    decreasing ys.
Proof.
  apply (study_refines_the_mesh counting_start). vm_compute. reflexivity.
Defined.

Lemma sweep_call_radii_agree_witness :
  let w' := final (sweep_call counting_swept) in
  pcirc_radii (issued counting_swept w') = [VInt 175] /\
  lsel_radii (issued counting_swept w') = [VInt 175].
Proof.
  intros w'.
  apply (sweep_call_radii_agree counting_swept (VInt 175) (8%Z, 31%Q) w').
  - reflexivity.
  - vm_compute. reflexivity.
Defined.

Lemma failed_runs_do_not_exit_witness :
  let w' := final (pipe_notebook flaky_fresh) in
  exists t, trace w' = trace flaky_fresh ++ t /\
    (Forall (fun c => meth c <> "exit") (commands t) \/
     exists pre,
       t = pre ++ [Cmd exit_call (Raises (MapdlError "solution not converged"))]).
Proof.
  intros w'.
  apply (proj1 (failed_runs_do_not_exit (L:=flaky)) flaky_fresh).
  vm_compute. reflexivity.
Defined.

Lemma plate_geometry_needs_parameters_witness :
  exists w', plate_geometry counting_fresh = Raised (NameError "LENGTH") w' /\
             issued counting_fresh w' =
               [launch_call; Call "clear" [] []; Call "prep7" [] []] /\
             globals w' = <["mapdl" := Mapdl]> (globals counting_fresh).
Proof.
  apply (proj2 (proj2 (plate_geometry_needs_parameters counting_fresh eq_refl))).
  apply counting_accepts.
Defined.

Lemma plate_geometry_without_holes_witness :
  issued plate_no_holes (final (plate_geometry plate_no_holes)) =
  [launch_call; Call "clear" [] []; Call "prep7" [] [];
   Call "block" [VInt 0; VInt 5; VInt 0; VFloat 2.5; VInt 0; VFloat 0.1] [];
   Call "vsbv" [VInt 1; S_ "all"] []; Call "vplot" [S_ "all"] []].
Proof.
  refine (proj1 (proj2
    (plate_geometry_without_holes 5 2.5 0.1 (VFloat 0.5) (-1) (VFloat 2e11)
       (VFloat 0.27) (VInt 1000) plate_no_holes _ _)) _ _).
  - by vm_compute.
  - lia.
  - vm_compute. reflexivity.
Defined.

Lemma plate_geometry_float_NUM_witness :
  exists w', plate_geometry plate_float_NUM = Raised (TypeError "range") w' /\
             issued plate_float_NUM w' =
               [launch_call; Call "clear" [] []; Call "prep7" [] [];
                Call "block"
                  [VInt 0; VInt 5; VInt 0; VFloat 2.5; VInt 0; VFloat 0.1] []].
Proof.
  apply (proj2 (proj2 (plate_geometry_float_NUM (VInt 5) (VFloat 2.5)
                         (VFloat 0.1) 3 plate_float_NUM
                         eq_refl eq_refl eq_refl eq_refl))).
  apply counting_accepts.
Defined.

Lemma plate_geometry_overflow_witness :
  exists w',
    plate_geometry plate_too_long =
      Raised (OverflowError "integer division result too large for a float") w' /\
    issued plate_too_long w' =
      [launch_call; Call "clear" [] []; Call "prep7" [] [];
       Call "block"
         [VInt 0; VInt (10 ^ 400); VInt 0; VFloat 2.5; VInt 0; VFloat 0.1] []].
Proof.
  refine (proj2 (proj2
    (plate_geometry_overflow (10 ^ 400) 2.5 0.1 (VFloat 0.5) 3 (VFloat 2e11)
       (VFloat 0.27) (VInt 1000) plate_too_long _ _ _)) _).
  - by vm_compute.
  - lia.
  - by vm_compute.
  - apply counting_accepts.
Defined.


Lemma plots_follow_the_last_invocation_witness :
  exists before,
    issued counting_fresh (final (pipe_notebook counting_fresh)) =
      before ++ study_calls (VPow10 0) ++ pipe_plot_calls ++ [exit_call] /\
    forallb (fun c => negb (rebuilds c)) pipe_plot_calls = true.
Proof.
  apply (plots_follow_the_last_invocation counting_fresh). vm_compute. reflexivity.
Defined.
